(** * csolution project manager: context resolution run

    A shallow embedding of [tools/projmgr/src/ProjMgr.cpp] (the command
    driver of the csolution Project Manager) together with the properties
    its specification states about context selection, per-context failure
    isolation, load policy, listing and conversion.

    The driver talks to several collaborators whose code lives in other
    translation units (the worker, the yml parser, the emitter, the cprj
    generator, the file system).  They appear here as the fields of one
    record of operations, [External]; the parts of the worker that the
    specification describes (identifier algebra, selection policy, context
    listing) are modelled from the specification and marked as such.

    The member functions are state transformers on the [ProjMgr] object.
    What a run does to the outside (log messages, printed lines, calls
    that build contexts or write files) is kept as a trace in the state,
    and the properties are statements on results, final states and
    traces.

    The last sections go through the rest of the driver: how the contexts
    are populated, the update of the RTE files, where the generation of
    files stops, the listing commands and the code generator, the exit
    codes, and the parsing of the command line with its positional
    arguments. *)

From Stdlib Require Import String Ascii List Bool ZArith Lia.
From Stdlib Require Import Sorting.Sorted Permutation.
From stdpp Require Import base option list strings gmap sets.

Import ListNotations.
Local Open Scope string_scope.
Local Open Scope list_scope.

(* ===================================================================== *)
(** ** Identifier algebra *)
(* ===================================================================== *)

(** Modelled from the spec: the ContextIdentifier value object of the data
    model, [{ project, buildType : optional, targetType : optional }]; its
    declaration (ProjMgrUtils) is not part of the sources at hand. *)
Record ContextIdentifier := mkContextIdentifier {
  project : string;
  buildType : option string;
  targetType : option string
}.

Inductive ParseOutcome :=
| Parsed (id : ContextIdentifier)
| ParseError (text : string).

(** Modelled from the spec: the characters that may not occur in a name
    of the identifier grammar, namely the two separators and white space
    (space, and the control characters 9..13); the parser of identifiers
    (ProjMgrUtils) is not part of the sources at hand. *)
Definition is_whitespace (c : ascii) : bool :=
  let n := nat_of_ascii c in
  Nat.eqb n 32 || (Nat.leb 9 n && Nat.leb n 13).

Definition is_name_char (c : ascii) : bool :=
  negb (Ascii.eqb c "." || Ascii.eqb c "+" || is_whitespace c).

(** Modelled from the spec: reading one name of the grammar, that is the
    longest prefix made of name characters, and what follows it. *)
Fixpoint take_name (s : string) : string * string :=
  match s with
  | EmptyString => (EmptyString, EmptyString)
  | String c s' =>
      if is_name_char c
      then let (n, r) := take_name s' in (String c n, r)
      else (EmptyString, s)
  end.

Definition is_empty (s : string) : bool :=
  match s with EmptyString => true | _ => false end.

(** Modelled from the spec: the optional [+name] tail of an identifier
    text. *)
Definition parse_target (text : string) (p : string) (b : option string)
    (rest : string) : ParseOutcome :=
  match rest with
  | EmptyString => Parsed (mkContextIdentifier p b None)
  | String c r =>
      if Ascii.eqb c "+" then
        let (t, r') := take_name r in
        if is_empty t then ParseError text
        else if is_empty r' then Parsed (mkContextIdentifier p b (Some t))
        else ParseError text
      else ParseError text
  end.

(** Modelled from the spec: [parse(text) -> ContextIdentifier | ParseError],
    accepting exactly the grammar [name[.name][+name]] whose names are
    non-empty and contain no '.', no '+' and no white space. *)
Definition parse (text : string) : ParseOutcome :=
  let (p, r1) := take_name text in
  if is_empty p then ParseError text
  else
    match r1 with
    | EmptyString => Parsed (mkContextIdentifier p None None)
    | String c r2 =>
        if Ascii.eqb c "." then
          let (b, r3) := take_name r2 in
          if is_empty b then ParseError text
          else parse_target text p (Some b) r3
        else parse_target text p None r1
    end.

(** Modelled from the spec: an optional axis of the canonical text, with
    its separator. *)
Definition format_axis (sep : string) (axis : option string) : string :=
  match axis with
  | Some n => sep +:+ n
  | None => ""
  end.

(** Modelled from the spec: [format(ContextIdentifier) -> string], the
    canonical text [project[.buildType][+targetType]]. *)
Definition format (id : ContextIdentifier) : string :=
  project id +:+ format_axis "." (buildType id) +:+ format_axis "+" (targetType id).

(** Modelled from the spec: matching on one optional axis; an absent or
    empty pattern field matches anything. *)
Definition axis_matches (pattern concrete : option string) : bool :=
  match pattern with
  | None => true
  | Some p => is_empty p || bool_decide (concrete = Some p)
  end.

(** Modelled from the spec: [matches(pattern, concrete)]; every non-empty
    pattern field must equal the concrete field, an empty pattern field
    matches anything. *)
Definition matches (pattern concrete : ContextIdentifier) : bool :=
  (is_empty (project pattern) || String.eqb (project pattern) (project concrete))
  && axis_matches (buildType pattern) (buildType concrete)
  && axis_matches (targetType pattern) (targetType concrete).

(** Modelled from the spec: the grammar [name[.name][+name]] of the
    well-formed identifier texts, stated independently of the parser. *)
Fixpoint all_name_chars (s : string) : bool :=
  match s with
  | EmptyString => true
  | String c s' => is_name_char c && all_name_chars s'
  end.

Definition is_name (n : string) : Prop :=
  n <> EmptyString /\ all_name_chars n = true.

Definition is_optional_name (o : option string) : Prop :=
  match o with Some n => is_name n | None => True end.

Definition well_formed (s : string) : Prop :=
  exists (p : string) (b t : option string),
    is_name p /\ is_optional_name b /\ is_optional_name t /\
    s = p +:+ format_axis "." b +:+ format_axis "+" t.

(* ===================================================================== *)
(** ** Data of the driver and of its collaborators *)
(* ===================================================================== *)

(** The closed set of pack loading policies handed to the worker. *)
Inductive LoadPacksPolicy := DEFAULT | LATEST | ALL | REQUIRED.

(** Enumerators of [ProjMgr::ErrorCode], declared in ProjMgr.h, which is
    not among the sources at hand.  [SUCCESS] is the zero that
    [RunProjMgr] compares the parse result with; [ERROR] is the generic
    non-zero failure code. *)
Definition SUCCESS : Z := 0.
Definition ERROR : Z := 1.
Definition VARIABLE_NOT_DEFINED : Z := 2.

(** The RTE project attached to a processed context; the driver only sets
    one attribute on it and asks it to update its files. *)
Record RteProject := mkRteProject {
  rte_attributes : gmap string string
}.

Definition SetAttribute (k v : string) (p : RteProject) : RteProject :=
  mkRteProject (<[k := v]> (rte_attributes p)).

Record DirectoriesItem := mkDirectoriesItem {
  cprj : string
}.

(** One entry of the [contexts] sequence of a parsed csolution; the driver
    reads its [cproject] member only. *)
Record ContextDesc := mkContextDesc {
  cproject : string
}.

(** The parsed csolution, as far as the driver reads it.  ([cs_name] and
    [cs_directory] are the members [name] and [directory].) *)
Record CsolutionItem := mkCsolutionItem {
  cs_name : string;
  cs_directory : string;
  cprojects : list string;
  contexts : list ContextDesc;
  enableCdefault : bool
}.

Record ProjMgrParser := mkParser {
  GetCsolution : CsolutionItem
}.

(** Command-line members of [ProjMgr]: assigned once by the command-line
    front end and only read afterwards. *)
Record Options := mkOptions {
  m_csolutionFile : string;
  m_command : string;
  m_args : string;
  m_rootDir : string;
  m_context : list string;
  m_filter : string;
  m_codeGenerator : string;
  m_loadPacksPolicy : string;
  m_clayerSearchPath : string;
  m_export : string;
  m_outputDir : string;
  m_checkSchema : bool;
  m_missingPacks : bool;
  m_updateRteFiles : bool;
  m_verbose : bool;
  m_debug : bool;
  m_dryRun : bool;
  m_ymlOrder : bool;
  m_contextSet : bool;
  m_relativePaths : bool;
  m_frozenPacks : bool;
  m_updateIdx : bool
}.

(** Members as the constructor of [ProjMgr] leaves them. *)
Definition Options_init : Options :=
  mkOptions "" "" "" "" [] "" "" "" "" "" ""
            false false true false false false false false false false false.

Section Model.

(** [R] is what a context item carries of its resolution (packs, layers,
    toolchain, dependencies, config files): the driver never looks inside.
    [X] is the state the worker keeps besides the members shown below. *)
Context {R X : Type}.

Record ContextItem := mkContextItem {
  name : string;
  directories : DirectoriesItem;
  rteActiveProject : option RteProject;
  resolution : R
}.

Definition set_rteActiveProject (p : option RteProject) (c : ContextItem) : ContextItem :=
  mkContextItem (name c) (directories c) p (resolution c).

(** The worker.  [w_contexts] is the map [GetContexts] hands out a pointer
    to and [w_ymlOrderedContexts] the sequence [GetYmlOrderedContexts]
    copies; the selection members are those of the selection policy. *)
Record ProjMgrWorker := mkWorker {
  w_contexts : gmap string ContextItem;
  w_ymlOrderedContexts : list string;
  w_selectedContexts : list string;
  w_missingFilters : list string;
  w_loadPacksPolicy : LoadPacksPolicy;
  w_selectedToolchain : string;
  w_outputDir : string;
  w_rootDir : string;
  w_envVars : list string;
  w_internal : X
}.

Definition set_w_contexts (m : gmap string ContextItem) (w : ProjMgrWorker) :=
  mkWorker m (w_ymlOrderedContexts w) (w_selectedContexts w) (w_missingFilters w)
           (w_loadPacksPolicy w) (w_selectedToolchain w) (w_outputDir w)
           (w_rootDir w) (w_envVars w) (w_internal w).

Definition set_w_selection (sel missing : list string) (w : ProjMgrWorker) :=
  mkWorker (w_contexts w) (w_ymlOrderedContexts w) sel missing
           (w_loadPacksPolicy w) (w_selectedToolchain w) (w_outputDir w)
           (w_rootDir w) (w_envVars w) (w_internal w).

Definition set_w_internal (x : X) (w : ProjMgrWorker) :=
  mkWorker (w_contexts w) (w_ymlOrderedContexts w) (w_selectedContexts w)
           (w_missingFilters w) (w_loadPacksPolicy w) (w_selectedToolchain w)
           (w_outputDir w) (w_rootDir w) (w_envVars w) x.

Definition w_SetLoadPacksPolicy (p : LoadPacksPolicy) (w : ProjMgrWorker) :=
  mkWorker (w_contexts w) (w_ymlOrderedContexts w) (w_selectedContexts w)
           (w_missingFilters w) p (w_selectedToolchain w) (w_outputDir w)
           (w_rootDir w) (w_envVars w) (w_internal w).

Definition w_SetSelectedToolchain (t : string) (w : ProjMgrWorker) :=
  mkWorker (w_contexts w) (w_ymlOrderedContexts w) (w_selectedContexts w)
           (w_missingFilters w) (w_loadPacksPolicy w) t (w_outputDir w)
           (w_rootDir w) (w_envVars w) (w_internal w).

Definition w_SetOutputDir (d : string) (w : ProjMgrWorker) :=
  mkWorker (w_contexts w) (w_ymlOrderedContexts w) (w_selectedContexts w)
           (w_missingFilters w) (w_loadPacksPolicy w) (w_selectedToolchain w) d
           (w_rootDir w) (w_envVars w) (w_internal w).

Definition w_SetRootDir (d : string) (w : ProjMgrWorker) :=
  mkWorker (w_contexts w) (w_ymlOrderedContexts w) (w_selectedContexts w)
           (w_missingFilters w) (w_loadPacksPolicy w) (w_selectedToolchain w)
           (w_outputDir w) d (w_envVars w) (w_internal w).

Definition w_SetEnvironmentVariables (e : list string) (w : ProjMgrWorker) :=
  mkWorker (w_contexts w) (w_ymlOrderedContexts w) (w_selectedContexts w)
           (w_missingFilters w) (w_loadPacksPolicy w) (w_selectedToolchain w)
           (w_outputDir w) (w_rootDir w) e (w_internal w).

(** What a run does that can be seen from outside: the messages passed to
    [ProjMgrLogger] (with the file they are about, empty when there is
    none), the lines written to [cout], and the calls made to the
    collaborators that build contexts or write files. *)
Inductive Event :=
| LogError (file msg : string)
| LogWarn (file msg : string)
| LogInfo (file msg : string)
| Cout (line : string)
| DiagMissingFilter (pattern : string)
| EvAddContexts (descriptor : ContextDesc) (cprojectFile : string)
| EvProcessContext (contextName : string) (item : ContextItem) (ok : bool)
| EvUpdateRte (contextName : string)
| EvGenerateCbuildPack (items : list ContextItem) (keepExistingPackContent frozen : bool)
| EvGenerateCbuildIndex (items : list ContextItem) (outputDir : string)
| EvGenerateCbuildSet (items : list ContextItem) (toolchain file : string)
| EvGenerateCbuild (item : ContextItem) (convError : bool)
| EvCreateDirectories (dir : string)
| EvGenerateCprj (item : ContextItem) (filename : string) (nonLocked : bool).

(** The [ProjMgr] object.  The two context sequences hold pointers into the
    worker's map; a pointer to the entry of a key is represented by that
    key, so that an item seen through them is always the worker's current
    one.  [out] is the trace of events so far. *)
Record ProjMgr := mkProjMgr {
  opts : Options;
  m_selectedToolchain : string;
  m_cdefaultFile : string;
  m_parser : ProjMgrParser;
  m_worker : ProjMgrWorker;
  m_allContexts : list string;
  m_processedContexts : list string;
  m_failedContext : gset string;
  out : list Event
}.

Definition set_opts (o : Options) (pm : ProjMgr) :=
  mkProjMgr o (m_selectedToolchain pm) (m_cdefaultFile pm) (m_parser pm)
            (m_worker pm) (m_allContexts pm) (m_processedContexts pm)
            (m_failedContext pm) (out pm).

Definition set_selectedToolchain (t : string) (pm : ProjMgr) :=
  mkProjMgr (opts pm) t (m_cdefaultFile pm) (m_parser pm)
            (m_worker pm) (m_allContexts pm) (m_processedContexts pm)
            (m_failedContext pm) (out pm).

Definition set_cdefaultFile (f : string) (pm : ProjMgr) :=
  mkProjMgr (opts pm) (m_selectedToolchain pm) f (m_parser pm)
            (m_worker pm) (m_allContexts pm) (m_processedContexts pm)
            (m_failedContext pm) (out pm).

Definition set_parser (p : ProjMgrParser) (pm : ProjMgr) :=
  mkProjMgr (opts pm) (m_selectedToolchain pm) (m_cdefaultFile pm) p
            (m_worker pm) (m_allContexts pm) (m_processedContexts pm)
            (m_failedContext pm) (out pm).

Definition set_worker (w : ProjMgrWorker) (pm : ProjMgr) :=
  mkProjMgr (opts pm) (m_selectedToolchain pm) (m_cdefaultFile pm) (m_parser pm)
            w (m_allContexts pm) (m_processedContexts pm)
            (m_failedContext pm) (out pm).

Definition set_allContexts (l : list string) (pm : ProjMgr) :=
  mkProjMgr (opts pm) (m_selectedToolchain pm) (m_cdefaultFile pm) (m_parser pm)
            (m_worker pm) l (m_processedContexts pm)
            (m_failedContext pm) (out pm).

Definition set_processedContexts (l : list string) (pm : ProjMgr) :=
  mkProjMgr (opts pm) (m_selectedToolchain pm) (m_cdefaultFile pm) (m_parser pm)
            (m_worker pm) (m_allContexts pm) l
            (m_failedContext pm) (out pm).

Definition set_failedContext (s : gset string) (pm : ProjMgr) :=
  mkProjMgr (opts pm) (m_selectedToolchain pm) (m_cdefaultFile pm) (m_parser pm)
            (m_worker pm) (m_allContexts pm) (m_processedContexts pm)
            s (out pm).

Definition set_out (o : list Event) (pm : ProjMgr) :=
  mkProjMgr (opts pm) (m_selectedToolchain pm) (m_cdefaultFile pm) (m_parser pm)
            (m_worker pm) (m_allContexts pm) (m_processedContexts pm)
            (m_failedContext pm) o.

(** *** The collaborators

    Operations of the parser, the file system, the worker, the emitter and
    the generator that the driver calls and whose code is elsewhere.  The
    worker operations that change a context take it by reference, so they
    return the new item. *)
Record External := mkExternal {
  (* parser *)
  ParseCsolution : string -> bool -> bool -> option CsolutionItem;
  ParseCdefault : string -> bool -> bool;
  ParseCproject : string -> bool -> bool;
  LoadContextSet : string -> list string;   (* the persisted context set *)
  (* file system and path utilities *)
  Exists : string -> bool;
  canonical : string -> string;
  is_absolute : string -> bool;
  MakePathCanonical : string -> string;
  parent_path : string -> string;
  filename : string -> string;
  FindFileRegEx : list string -> string -> bool * string;
  (* worker *)
  internal_init : X;
  default_resolution : R;
  InitializeModel : ProjMgrWorker -> bool * ProjMgrWorker;
  GetCompilerRoot : ProjMgrWorker -> string;
  AddContexts : ContextDesc -> string -> ProjMgrWorker -> bool * ProjMgrWorker;
  RetrieveAllContextTypes : ProjMgrWorker -> ProjMgrWorker;
  ProcessContext : ProjMgrWorker -> ContextItem -> bool -> bool -> bool ->
                   bool * ContextItem * X;
  GetSelectedToochain : ProjMgrWorker -> string;
  ListConfigFiles : ProjMgrWorker -> list string;
  ListLayers : string -> ProjMgrWorker -> bool * list string * ProjMgrWorker;
  HasVarDefineError : ProjMgrWorker -> bool;
  (* what the specification leaves open in the listing of contexts *)
  derivedOrder : gmap string ContextItem -> list string;
  filterAccepts : string -> string -> bool;
  listingFails : string -> list string -> bool;
  (* RTE project *)
  UpdateRte : RteProject -> RteProject;
  (* emitter and generator *)
  GenerateCbuildPack : ProjMgrParser -> list ContextItem -> bool -> bool -> bool;
  GenerateCbuildIndex : ProjMgrParser -> list ContextItem -> string -> bool;
  GenerateCbuildSet : list ContextItem -> string -> string -> bool;
  GenerateCbuild : ContextItem -> bool -> bool;
  GenerateCprj : ContextItem -> string -> bool -> bool;
  (* the commands of the driver that no property below mentions *)
  RunOtherCommand : string -> string -> ProjMgr -> bool * ProjMgr
}.

(** *** State-passing notation *)

Definition M (A : Type) : Type := ProjMgr -> A * ProjMgr.

Definition ret {A} (a : A) : M A := fun pm => (a, pm).

Definition bind {A B} (m : M A) (k : A -> M B) : M B :=
  fun pm => let (a, pm') := m pm in k a pm'.

Definition get : M ProjMgr := fun pm => (pm, pm).

Definition modify (f : ProjMgr -> ProjMgr) : M unit := fun pm => (tt, f pm).

Definition emit (e : Event) : M unit :=
  modify (fun pm => set_out (out pm ++ [e]) pm).

Definition emits (es : list Event) : M unit :=
  modify (fun pm => set_out (out pm ++ es) pm).

End Model.

Arguments ContextItem : clear implicits.
Arguments ProjMgrWorker : clear implicits.
Arguments Event : clear implicits.
Arguments ProjMgr : clear implicits.
Arguments External : clear implicits.
Arguments M : clear implicits.

Declare Scope pm_scope.
Delimit Scope pm_scope with pm.
Notation "x <- c1 ;; c2" := (bind c1 (fun x => c2))
  (at level 100, c1 at next level, right associativity) : pm_scope.
Notation "c1 ;;; c2" := (bind c1 (fun _ => c2))
  (at level 100, right associativity) : pm_scope.

(* ===================================================================== *)
(** ** Ordered multisets of strings *)
(* ===================================================================== *)

(** [std::multiset<string>]: the elements kept in ascending order of
    [std::less<string>] (bytewise lexicographic), a new element going
    after the elements equal to it. *)
Fixpoint multiset_insert (x : string) (s : list string) : list string :=
  match s with
  | [] => [x]
  | y :: s' => if String.ltb x y then x :: s else y :: multiset_insert x s'
  end.

Definition multiset_of (l : list string) : list string :=
  fold_left (fun s x => multiset_insert x s) l [].

(** [std::adjacent_find]: position of the first element equal to its
    successor, [None] standing for the end iterator. *)
Fixpoint adjacent_find (l : list string) : option nat :=
  match l with
  | a :: tl =>
      match tl with
      | b :: _ => if String.eqb a b then Some 0%nat else S <$> adjacent_find tl
      | [] => None
      end
  | [] => None
  end.

Definition is_nil {A} (l : list A) : bool :=
  match l with [] => true | _ => false end.

Definition is_some {A} (o : option A) : bool :=
  match o with Some _ => true | None => false end.

Definition newline : string := String (ascii_of_nat 10) "".

(* ===================================================================== *)
(** ** The driver *)
(* ===================================================================== *)

Section Driver.

Context {R X : Type} (E : External R X).
Local Open Scope pm_scope.

Definition modify_worker (f : ProjMgrWorker R X -> ProjMgrWorker R X) : M R X unit :=
  modify (fun pm => set_worker (f (m_worker pm)) pm).

(** A default-constructed context item. *)
Definition ContextItem_default : ContextItem R :=
  mkContextItem "" (mkDirectoriesItem "") None (default_resolution E).

(** Subscripting the worker's map with [contextName]: [operator[]] of
    [std::map] creates a default item under a key that is absent. *)
Definition contexts_at (contextName : string) (w : ProjMgrWorker R X)
    : ContextItem R * ProjMgrWorker R X :=
  match w_contexts w !! contextName with
  | Some c => (c, w)
  | None => (ContextItem_default,
             set_w_contexts (<[contextName := ContextItem_default]> (w_contexts w)) w)
  end.

(** Reading and writing a context item through a pointer to it. *)
Definition deref (w : ProjMgrWorker R X) (ptr : string) : ContextItem R :=
  default ContextItem_default (w_contexts w !! ptr).

Definition store (ptr : string) (c : ContextItem R) (w : ProjMgrWorker R X)
    : ProjMgrWorker R X :=
  set_w_contexts (<[ptr := c]> (w_contexts w)) w.

(** *** Worker operations described by the specification *)

(** Modelled from the spec: [ProjMgrWorker::GetYmlOrderedContexts], the
    accessor of the full ordered context list (ProjMgrWorker is not among
    the sources at hand). *)
Definition GetYmlOrderedContexts (w : ProjMgrWorker R X) : list string :=
  w_ymlOrderedContexts w.

(** Modelled from the spec: [ProjMgrWorker::IsContextSelected], membership
    in the output of the Selection Policy (ProjMgrWorker is not among the
    sources at hand). *)
Definition IsContextSelected (w : ProjMgrWorker R X) (contextName : string) : bool :=
  bool_decide (contextName ∈ w_selectedContexts w).

(** Modelled from the spec: a pattern text selects a context name when
    both are well-formed identifiers and the first matches the second
    (section 4.1); a malformed text selects nothing. *)
Definition matches_text (pattern context : string) : bool :=
  match parse pattern, parse context with
  | Parsed p, Parsed c => matches p c
  | _, _ => false
  end.

(** Modelled from the spec: the error kind MalformedIdentifier. *)
Definition is_malformed (text : string) : bool :=
  match parse text with
  | ParseError _ => true
  | Parsed _ => false
  end.

(** Modelled from the spec: "matching at least one pattern". *)
Definition matches_any (patterns : list string) (context : string) : bool :=
  existsb (fun p => matches_text p context) patterns.

(** Modelled from the spec: "a pattern matching zero contexts". *)
Definition matches_none (contexts : list string) (pattern : string) : bool :=
  negb (existsb (matches_text pattern) contexts).

(** Modelled from the spec: the error of section 7 that invalidates the
    whole run, "MalformedIdentifier in a user-supplied filter when no
    context matches at all". *)
Definition selection_aborts (patterns contexts : list string) : bool :=
  existsb is_malformed patterns
  && is_nil (List.filter (matches_any patterns) contexts).

(** Modelled from the spec: the "missing filter" diagnostics collected for
    later display, that is the patterns that selected nothing, each kept
    once, in the order given. *)
Fixpoint collect_missing (contexts patterns seen : list string) : list string :=
  match patterns with
  | [] => []
  | p :: rest =>
      if matches_none contexts p && negb (bool_decide (p ∈ seen))
      then p :: collect_missing contexts rest (p :: seen)
      else collect_missing contexts rest seen
  end.

(** The path of the cbuild-set file, as [GenerateYMLConfigurationFiles]
    builds it. *)
Definition cbuildSetFileOf (parser : ProjMgrParser) : string :=
  cs_directory (GetCsolution parser) +:+ "/" +:+
  cs_name (GetCsolution parser) +:+ ".cbuild-set.yml".

(** Modelled from the spec: the Selection Policy (section 4.2) behind
    [ProjMgrWorker::ParseContextSelection], whose code is not among the
    sources at hand.
    - patterns given: every context matching at least one pattern is
      selected, in declaration order; a pattern matching no context is
      collected as a "missing filter" and is not a failure; a malformed
      filter when no context matches at all aborts (section 7);
    - no pattern, context set requested: the persisted set is used when
      the file exists; when it is absent, warn and select all;
    - otherwise all contexts are selected. *)
Definition ParseContextSelection (parser : ProjMgrParser)
    (contextSelection : list string) (checkCbuildSet : bool)
    (w : ProjMgrWorker R X) : bool * ProjMgrWorker R X * list (Event R) :=
  let all := w_ymlOrderedContexts w in
  match contextSelection with
  | _ :: _ =>
      let selected := List.filter (matches_any contextSelection) all in
      if selection_aborts contextSelection all
      then (false, w, [LogError "" "malformed context identifier and no context matches"])
      else (true,
            set_w_selection selected (collect_missing all contextSelection []) w,
            [])
  | [] =>
      if checkCbuildSet then
        let cbuildSetFile := cbuildSetFileOf parser in
        if Exists E cbuildSetFile
        then (true, set_w_selection (LoadContextSet E cbuildSetFile) [] w, [])
        else (true, set_w_selection all [] w,
              [LogWarn "" ("unable to locate " +:+ cbuildSetFile +:+ " file.")])
      else (true, set_w_selection all [] w, [])
  end.

(** Modelled from the spec: the diagnostics collected by the selection are
    displayed, one per missing filter ([ProjMgrWorker::PrintMissingFilters]
    is not among the sources at hand). *)
Definition PrintMissingFilters (w : ProjMgrWorker R X) : list (Event R) :=
  map DiagMissingFilter (w_missingFilters w).

(** Modelled from the spec: [ProjMgrWorker::ListContexts] (not among the
    sources at hand).  In "yml order preserved" mode the contexts come in
    the order of their first appearance in the input, otherwise in a
    derived order; the filter keeps an order-preserving sub-sequence.  The
    spec does not say when listing fails: that is left to [listingFails]. *)
Definition ListContexts (w : ProjMgrWorker R X) (filter : string) (ymlOrder : bool)
    : bool * list string :=
  let ordered := if ymlOrder then w_ymlOrderedContexts w
                 else derivedOrder E (w_contexts w) in
  let contexts := if is_empty filter then ordered
                  else List.filter (filterAccepts E filter) ordered in
  (negb (listingFails E filter contexts), contexts).

(** The call [m_worker.ParseContextSelection(contextSelection,
    checkCbuildSet)]; the second argument is [false] where the driver
    leaves it out. *)
Definition callParseContextSelection (contextSelection : list string)
    (checkCbuildSet : bool) : M R X bool :=
  pm <- get ;;
  let '(ok, w, evs) :=
    ParseContextSelection (m_parser pm) contextSelection checkCbuildSet (m_worker pm) in
  modify (set_worker w) ;;;
  emits evs ;;;
  ret ok.

(** *** [ProjMgr::SetLoadPacksPolicy] *)

Definition SetLoadPacksPolicy : M R X bool :=
  pm <- get ;;
  let p := m_loadPacksPolicy (opts pm) in
  if is_empty p then
    modify_worker (w_SetLoadPacksPolicy DEFAULT) ;;; ret true
  else if String.eqb p "latest" then
    modify_worker (w_SetLoadPacksPolicy LATEST) ;;; ret true
  else if String.eqb p "all" then
    modify_worker (w_SetLoadPacksPolicy ALL) ;;; ret true
  else if String.eqb p "required" then
    modify_worker (w_SetLoadPacksPolicy REQUIRED) ;;; ret true
  else
    emit (LogError "" ("unknown load option: '" +:+ p +:+
                       "', it must be 'latest', 'all' or 'required'")) ;;;
    ret false.

(** *** [ProjMgr::GetCdefaultFile] *)

Definition GetCdefaultFile : M R X bool :=
  pm <- get ;;
  let compilerRoot := GetCompilerRoot E (m_worker pm) in
  let searchPaths :=
    m_rootDir (opts pm) :: (if is_empty compilerRoot then [] else [compilerRoot]) in
  let (found, cdefaultFile) := FindFileRegEx E searchPaths ".*/cdefault\.(yml|yaml)" in
  if negb found then
    (if negb (is_empty cdefaultFile)
     then emit (LogError cdefaultFile "multiple cdefault files were found")
     else ret tt) ;;;
    ret false
  else
    modify (set_cdefaultFile cdefaultFile) ;;; ret true.

(** *** [ProjMgr::PopulateContexts] *)

(** "Check cproject separate folders and unique names"; [false] is the
    early [return false]. *)
Definition CheckCprojects (cprojects : list string) : M R X bool :=
  if Nat.ltb 1 (length cprojects) then
    let dirs := multiset_of (map (parent_path E) cprojects) in
    let names := multiset_of (map (filename E) cprojects) in
    if is_some (adjacent_find names) then
      pm <- get ;;
      emit (LogError (m_csolutionFile (opts pm)) "cproject.yml filenames must be unique") ;;;
      ret false
    else
      (if is_some (adjacent_find dirs) then
         pm <- get ;;
         emit (LogWarn (m_csolutionFile (opts pm))
                 "cproject.yml files should be placed in separate sub-directories")
       else ret tt) ;;;
      ret true
  else ret true.

(** "Parse cprojects". *)
Fixpoint ParseCprojects (cprojects : list string) : M R X bool :=
  match cprojects with
  | [] => ret true
  | cproject :: rest =>
      pm <- get ;;
      let cprojectFile := canonical E (m_rootDir (opts pm) +:+ "/" +:+ cproject) in
      if is_empty cprojectFile then
        emit (LogError cproject "cproject file was not found") ;;; ret false
      else if negb (ParseCproject E cprojectFile (m_checkSchema (opts pm))) then
        ret false
      else ParseCprojects rest
  end.

(** "Add contexts". *)
Fixpoint AddAllContexts (descriptors : list ContextDesc) : M R X bool :=
  match descriptors with
  | [] => ret true
  | descriptor :: rest =>
      pm <- get ;;
      let cprojectFile :=
        if is_absolute E (cproject descriptor) then cproject descriptor
        else canonical E (m_rootDir (opts pm) +:+ "/" +:+ cproject descriptor) in
      emit (EvAddContexts descriptor cprojectFile) ;;;
      let (ok, w) := AddContexts E descriptor cprojectFile (m_worker pm) in
      modify (set_worker w) ;;;
      if negb ok then ret false else AddAllContexts rest
  end.

(** "Parse cdefault"; [false] is the early [return false]. *)
Definition ParseCdefaultIfEnabled (cs : CsolutionItem) : M R X bool :=
  if enableCdefault cs then
    found <- GetCdefaultFile ;;
    if found then
      pm <- get ;;
      ret (ParseCdefault E (m_cdefaultFile pm) (m_checkSchema (opts pm)))
    else ret true
  else ret true.

(** "Set toolchain", "Set output directory", "Add contexts", "Retrieve
    all context types". *)
Definition AddContextsAndTypes : M R X bool :=
  pm <- get ;;
  modify_worker (w_SetSelectedToolchain (m_selectedToolchain pm)) ;;;
  modify_worker (w_SetOutputDir (m_outputDir (opts pm))) ;;;
  modify_worker (w_SetRootDir (m_rootDir (opts pm))) ;;;
  added <- AddAllContexts (contexts (GetCsolution (m_parser pm))) ;;
  if negb added then ret false
  else
    modify_worker (RetrieveAllContextTypes E) ;;; ret true.

(** What [PopulateContexts] does once the cproject names and folders are
    checked: "Parse cprojects" and all that follows. *)
Definition PopulateAfterCheck (cs : CsolutionItem) : M R X bool :=
  parsed <- ParseCprojects (cprojects cs) ;;
  if negb parsed then ret false else AddContextsAndTypes.

Definition PopulateContexts : M R X bool :=
  pm <- get ;;
  if negb (is_empty (m_csolutionFile (opts pm))) then
    match ParseCsolution E (m_csolutionFile (opts pm)) (m_checkSchema (opts pm))
                         (m_frozenPacks (opts pm)) with
    | None => ret false
    | Some cs =>
        modify (set_parser (mkParser cs)) ;;;
        cdefaultOk <- ParseCdefaultIfEnabled cs ;;
        if negb cdefaultOk then ret false
        else
          checked <- CheckCprojects (cprojects cs) ;;
          if negb checked then ret false
          else PopulateAfterCheck cs
    end
  else
    emit (LogError "" "input yml files were not specified") ;;; ret false.

(** *** [ProjMgr::Configure] *)

(** One turn of the loop "Process contexts"; [error] is the local flag. *)
Definition ConfigureStep (contextName : string) (error : bool) : M R X bool :=
  pm <- get ;;
  let (contextItem, w) := contexts_at contextName (m_worker pm) in
  modify (set_worker w) ;;;
  modify (fun pm => set_allContexts (m_allContexts pm ++ [contextName]) pm) ;;;
  if negb (IsContextSelected w contextName) then ret error
  else
    let '(ok, contextItem', x) := ProcessContext E w contextItem true true false in
    modify (set_worker (set_w_internal x (store contextName contextItem' w))) ;;;
    emit (EvProcessContext contextName contextItem' ok) ;;;
    error' <-
      (if negb ok then
         emit (LogError "" ("processing context '" +:+ contextName +:+ "' failed")) ;;;
         modify (fun pm =>
                   set_failedContext ({[ name contextItem' ]} ∪ m_failedContext pm) pm) ;;;
         ret true
       else ret error) ;;
    modify (fun pm => set_processedContexts (m_processedContexts pm ++ [contextName]) pm) ;;;
    ret error'.

Fixpoint ConfigureLoop (orderedContexts : list string) (error : bool) : M R X bool :=
  match orderedContexts with
  | [] => ret error
  | contextName :: rest =>
      error' <- ConfigureStep contextName error ;;
      ConfigureLoop rest error'
  end.

Definition configFilesInfo (configFiles : list string) : string :=
  fold_left (fun infoMsg configFile => infoMsg +:+ newline +:+ "  " +:+ configFile)
            configFiles "config files for each component:".

(** The part of [Configure] that follows the context selection: "Get
    context pointers", "Process contexts", "Print warnings for missing
    filters". *)
Definition ProcessSelectedContexts : M R X bool :=
  pm <- get ;;
  let orderedContexts := GetYmlOrderedContexts (m_worker pm) in
  modify (set_allContexts []) ;;;
  modify (set_processedContexts []) ;;;
  modify (set_failedContext ∅) ;;;
  error <- ConfigureLoop orderedContexts false ;;
  pm1 <- get ;;
  modify (set_selectedToolchain (GetSelectedToochain E (m_worker pm1))) ;;;
  emits (PrintMissingFilters (m_worker pm1)) ;;;
  (if m_verbose (opts pm1) then
     let configFiles := ListConfigFiles E (m_worker pm1) in
     if negb (is_nil configFiles)
     then emit (LogInfo "" (configFilesInfo configFiles))
     else ret tt
   else ret tt) ;;;
  ret (negb error).

(** The local [checkCbuildSet] of [Configure]. *)
Definition checkCbuildSet (o : Options) : bool :=
  Nat.eqb (length (m_context o)) 0 && m_contextSet o.

Definition Configure : M R X bool :=
  populated <- PopulateContexts ;;
  if negb populated then ret false
  else
    pm <- get ;;
    selected <- callParseContextSelection (m_context (opts pm)) (checkCbuildSet (opts pm)) ;;
    if negb selected then ret false
    else ProcessSelectedContexts.

(** [Configure], started in [pm], gets past its two early returns: the
    inputs are populated, leaving the state [pm1], and the context
    selection is parsed, leaving the state [pm2] in which the contexts are
    processed. *)
Definition reaches_processing (pm pm1 pm2 : ProjMgr R X) : Prop :=
  PopulateContexts pm = (true, pm1) /\
  callParseContextSelection (m_context (opts pm1)) (checkCbuildSet (opts pm1)) pm1
    = (true, pm2).

(** *** [ProjMgr::updateRte] and [ProjMgr::RunConfigure] *)

Fixpoint updateRteLoop (ptrs : list string) : M R X unit :=
  match ptrs with
  | [] => ret tt
  | ptr :: rest =>
      pm <- get ;;
      let contextItem := deref (m_worker pm) ptr in
      match rteActiveProject contextItem with
      | Some project =>
          let project' := UpdateRte E (SetAttribute "update-rte-files" "1" project) in
          modify_worker (store ptr (set_rteActiveProject (Some project') contextItem)) ;;;
          emit (EvUpdateRte (name contextItem))
      | None => ret tt
      end ;;;
      updateRteLoop rest
  end.

Definition updateRte : M R X unit :=
  pm <- get ;;
  if m_updateRteFiles (opts pm) then updateRteLoop (m_processedContexts pm)
  else ret tt.

Definition RunConfigure : M R X bool :=
  success <- Configure ;;
  updateRte ;;;
  ret success.

(** *** [ProjMgr::GenerateYMLConfigurationFiles] *)

(** "Generate cbuild files". *)
Fixpoint GenerateCbuildLoop (ptrs : list string) : M R X bool :=
  match ptrs with
  | [] => ret true
  | ptr :: rest =>
      pm <- get ;;
      let contextItem := deref (m_worker pm) ptr in
      let convError := bool_decide (name contextItem ∈ m_failedContext pm) in
      emit (EvGenerateCbuild contextItem convError) ;;;
      if negb (GenerateCbuild E contextItem convError) then ret false
      else GenerateCbuildLoop rest
  end.

Definition GenerateYMLConfigurationFiles : M R X bool :=
  pm <- get ;;
  let isUsingContexts :=
    m_contextSet (opts pm) || negb (Nat.eqb (length (m_context (opts pm))) 0) in
  let processed := map (deref (m_worker pm)) (m_processedContexts pm) in
  emit (EvGenerateCbuildPack processed isUsingContexts (m_frozenPacks (opts pm))) ;;;
  if negb (GenerateCbuildPack E (m_parser pm) processed isUsingContexts
                              (m_frozenPacks (opts pm)))
  then ret false
  else
    updateRte ;;;
    pm1 <- get ;;
    indexOk <-
      (if negb (is_nil (m_allContexts pm1)) then
         let all := map (deref (m_worker pm1)) (m_allContexts pm1) in
         emit (EvGenerateCbuildIndex all (m_outputDir (opts pm1))) ;;;
         ret (GenerateCbuildIndex E (m_parser pm1) all (m_outputDir (opts pm1)))
       else ret true) ;;
    if negb indexOk then ret false
    else
      setOk <-
        (if m_contextSet (opts pm1) then
           let cbuildSetFile := cbuildSetFileOf (m_parser pm1) in
           if Nat.eqb (length (m_context (opts pm1))) 0
              && negb (Exists E cbuildSetFile)
           then
             emit (LogWarn "" ("unable to locate " +:+ cbuildSetFile +:+ " file.")) ;;;
             ret true
           else if negb (is_nil (m_processedContexts pm1)) then
             let processed1 := map (deref (m_worker pm1)) (m_processedContexts pm1) in
             emit (EvGenerateCbuildSet processed1 (m_selectedToolchain pm1) cbuildSetFile) ;;;
             ret (GenerateCbuildSet E processed1 (m_selectedToolchain pm1) cbuildSetFile)
           else ret true
         else ret true) ;;
      if negb setOk then ret false
      else GenerateCbuildLoop (m_processedContexts pm1).

(** *** [ProjMgr::RunConvert] *)

(** "Generate Cprjs"; [false] is the early [return false]. *)
Fixpoint GenerateCprjLoop (ptrs : list string) : M R X bool :=
  match ptrs with
  | [] => ret true
  | ptr :: rest =>
      pm <- get ;;
      let contextItem := deref (m_worker pm) ptr in
      let dir := cprj (directories contextItem) in
      let filename :=
        MakePathCanonical E (dir +:+ "/" +:+ name contextItem +:+ ".cprj") in
      emit (EvCreateDirectories dir) ;;;
      emit (EvGenerateCprj contextItem filename false) ;;;
      if GenerateCprj E contextItem filename false then
        emit (LogInfo filename "file generated successfully") ;;;
        if negb (is_empty (m_export (opts pm))) then
          let exportfilename :=
            MakePathCanonical E
              (dir +:+ "/" +:+ name contextItem +:+ m_export (opts pm) +:+ ".cprj") in
          emit (EvGenerateCprj contextItem exportfilename true) ;;;
          if GenerateCprj E contextItem exportfilename true then
            emit (LogInfo exportfilename "export file generated successfully") ;;;
            GenerateCprjLoop rest
          else
            emit (LogError exportfilename "export file cannot be written") ;;;
            ret false
        else GenerateCprjLoop rest
      else
        emit (LogError filename "file cannot be written") ;;;
        ret false
  end.

Definition RunConvert : M R X bool :=
  configured <- Configure ;;
  generated <- GenerateYMLConfigurationFiles ;;
  let Success := configured && generated in
  pm <- get ;;
  written <- GenerateCprjLoop (m_processedContexts pm) ;;
  if negb written then ret false else ret Success.

(** *** [ProjMgr::RunListContexts] and [ProjMgr::RunListLayers] *)

Definition RunListContexts : M R X bool :=
  populated <- PopulateContexts ;;
  if negb populated then ret false
  else
    pm <- get ;;
    let (ok, contexts) :=
      ListContexts (m_worker pm) (m_filter (opts pm)) (m_ymlOrder (opts pm)) in
    if negb ok then
      emit (LogError "" "processing contexts list failed") ;;; ret false
    else
      emits (map Cout contexts) ;;; ret true.

(** The loop of [RunListLayers] that fills [m_allContexts]. *)
Fixpoint CollectAllContexts (orderedContexts : list string) : M R X unit :=
  match orderedContexts with
  | [] => ret tt
  | contextName :: rest =>
      pm <- get ;;
      let (contextItem, w) := contexts_at contextName (m_worker pm) in
      modify (set_worker w) ;;;
      modify (fun pm => set_allContexts (m_allContexts pm ++ [contextName]) pm) ;;;
      CollectAllContexts rest
  end.

Definition RunListLayers : M R X bool :=
  pm <- get ;;
  populated <-
    (if negb (is_empty (m_csolutionFile (opts pm))) then PopulateContexts
     else ret true) ;;
  if negb populated then ret false
  else
    selected <- callParseContextSelection (m_context (opts pm)) false ;;
    if negb selected then ret false
    else
      pm1 <- get ;;
      let '(ok, layers, w) :=
        ListLayers E (m_clayerSearchPath (opts pm1)) (m_worker pm1) in
      modify (set_worker w) ;;;
      if negb ok then ret false
      else
        (if negb (m_updateIdx (opts pm1)) then emits (map Cout layers)
         else ret tt) ;;;
        if m_updateIdx (opts pm1) then
          pm2 <- get ;;
          CollectAllContexts (GetYmlOrderedContexts (m_worker pm2)) ;;;
          pm3 <- get ;;
          if negb (is_nil (m_allContexts pm3)) then
            let all := map (deref (m_worker pm3)) (m_allContexts pm3) in
            emit (EvGenerateCbuildIndex all (m_outputDir (opts pm3))) ;;;
            if negb (GenerateCbuildIndex E (m_parser pm3) all (m_outputDir (opts pm3)))
            then ret false
            else ret true
          else ret true
        else ret true.

(** *** [ProjMgr::ProcessCommands] *)

Definition runCommand (run : M R X bool) : M R X Z :=
  ok <- run ;;
  if negb ok then ret ERROR else ret SUCCESS.

Definition ProcessCommands : M R X Z :=
  pm <- get ;;
  let command := m_command (opts pm) in
  let args := m_args (opts pm) in
  if String.eqb command "list" then
    if is_empty args then
      emit (LogError "" "list <args> was not specified") ;;; ret ERROR
    else if String.eqb args "contexts" then runCommand RunListContexts
    else if String.eqb args "layers" then runCommand RunListLayers
    else if String.eqb args "environment" then
      _ <- RunOtherCommand E command args ;; ret SUCCESS
    else if bool_decide (args ∈ ["packs"; "boards"; "devices"; "components"; "configs";
                                 "dependencies"; "generators"; "toolchains"]) then
      runCommand (RunOtherCommand E command args)
    else
      emit (LogError "" "list <args> was not found") ;;; ret ERROR
  else if String.eqb command "update-rte" then runCommand RunConfigure
  else if String.eqb command "convert" then
    ok <- RunConvert ;;
    if negb ok then ret ERROR
    else
      pm1 <- get ;;
      if HasVarDefineError E (m_worker pm1) then ret VARIABLE_NOT_DEFINED
      else ret SUCCESS
  else if String.eqb command "run" then runCommand (RunOtherCommand E command args)
  else
    emit (LogError "" "<command> was not found") ;;; ret ERROR.

(** *** [ProjMgr::ParseCommandLine] and [ProjMgr::RunProjMgr] *)

(** What the option parsing of [ParseCommandLine] comes to: either it
    returns at once, after some output, with -1 (usage, version or help
    shown) or with an error code (csolution file not found, bad option,
    too many arguments, unknown command in a help request), or it has
    assigned the command-line members. *)
Inductive FrontEnd :=
| FrontEndReturn (shown : bool) (events : list (Event R))
| FrontEndOptions (o : Options) (toolchain : string).

Definition ParseCommandLine (fe : FrontEnd) : M R X Z :=
  match fe with
  | FrontEndReturn shown events =>
      emits events ;;; ret (if shown then (-1)%Z else ERROR)
  | FrontEndOptions o toolchain =>
      modify (set_opts o) ;;;
      modify (set_selectedToolchain toolchain) ;;;
      (if negb (is_empty (m_csolutionFile o))
       then modify_worker (w_SetRootDir (m_rootDir o))
       else ret tt) ;;;
      ok <- SetLoadPacksPolicy ;;
      if negb ok then ret ERROR else ret SUCCESS
  end.

(** The object built by the constructor of [ProjMgr]. *)
Definition ProjMgr_init : ProjMgr R X :=
  mkProjMgr Options_init "" "" (mkParser (mkCsolutionItem "" "" [] [] false))
            (mkWorker ∅ [] [] [] DEFAULT "" "" "" [] (internal_init E))
            [] [] ∅ [].

Definition RunProjMgr (fe : FrontEnd) (envp : option (list string)) : Z * ProjMgr R X :=
  let manager := ProjMgr_init in
  let (res, manager) := ParseCommandLine fe manager in
  if negb (Z.eqb res 0) then
    (if Z.ltb 0 res then res else SUCCESS, manager)
  else
    let envVars := match envp with Some env => env | None => [] end in
    let manager :=
      set_worker (w_SetEnvironmentVariables envVars (m_worker manager)) manager in
    let (ok, w) := InitializeModel E (m_worker manager) in
    let manager := set_worker w manager in
    if ok then ProcessCommands manager else (ERROR, manager).

End Driver.

(* ===================================================================== *)
(** ** Observations on the trace of a run *)
(* ===================================================================== *)

Section Observations.

Context {R : Type}.

(** The contexts handed to [ProcessContext], in the order of the calls,
    each with the item as the call left it and with the call's result. *)
Definition processing (evs : list (Event R)) : list (string * ContextItem R * bool) :=
  omap (fun e => match e with
                 | EvProcessContext k it ok => Some (k, it, ok)
                 | _ => None
                 end) evs.

Definition processed_key (r : string * ContextItem R * bool) : string := r.1.1.
Definition processed_item (r : string * ContextItem R * bool) : ContextItem R := r.1.2.
Definition processed_ok (r : string * ContextItem R * bool) : bool := r.2.

(** The calls that failed. *)
Definition failures (rs : list (string * ContextItem R * bool))
    : list (string * ContextItem R * bool) :=
  List.filter (fun r => negb (processed_ok r)) rs.

(** The item left by the last call of [ProcessContext] on a context. *)
Definition last_processed (k : string) (evs : list (Event R)) : option (ContextItem R) :=
  last (omap (fun e => match e with
                       | EvProcessContext k' it _ =>
                           if String.eqb k' k then Some it else None
                       | _ => None
                       end) evs).

(** The calls to the emitter's [GenerateCbuild] and to the generator's
    [GenerateCprj]. *)
Definition cbuild_calls (evs : list (Event R)) : list (ContextItem R * bool) :=
  omap (fun e => match e with
                 | EvGenerateCbuild it convError => Some (it, convError)
                 | _ => None
                 end) evs.

Definition cprj_calls (evs : list (Event R)) : list (ContextItem R) :=
  omap (fun e => match e with
                 | EvGenerateCprj it _ false => Some it
                 | _ => None
                 end) evs.

(** Events of the loop "Process contexts": calls of [ProcessContext] and
    error messages. *)
Definition is_processing_event (e : Event R) : bool :=
  match e with
  | EvProcessContext _ _ _ | LogError _ _ => true
  | _ => false
  end.

Definition is_info (e : Event R) : bool :=
  match e with LogInfo _ _ => true | _ => false end.

(** Events that precede the generation of the cbuild index: the call for
    the cbuild-pack file and the updates of RTE files. *)
Definition is_prelude_event (e : Event R) : bool :=
  match e with
  | EvGenerateCbuildPack _ _ _ | EvUpdateRte _ => true
  | _ => false
  end.

(** Events that are no call of [ProcessContext], [GenerateCbuild] or
    [GenerateCprj]. *)
Definition no_calls (evs : list (Event R)) : Prop :=
  processing evs = [] /\ cbuild_calls evs = [] /\ cprj_calls evs = [].

End Observations.

(* ===================================================================== *)
(** ** Statements about runs *)
(* ===================================================================== *)

(** What may follow a name: nothing, or a character that is not a name
    character. *)
Definition starts_with_separator (rest : string) : Prop :=
  match rest with
  | EmptyString => True
  | String c _ => is_name_char c = false
  end.

(** The load options [SetLoadPacksPolicy] knows. *)
Definition known_load_option (p : string) : Prop :=
  p = "" \/ p = "latest" \/ p = "all" \/ p = "required".

Section Facts.

Context {R X : Type} (E : External R X).

(** Members of the worker that processing a context leaves alone. *)
Definition worker_frame (w w' : ProjMgrWorker R X) : Prop :=
  w_ymlOrderedContexts w' = w_ymlOrderedContexts w /\
  w_selectedContexts w' = w_selectedContexts w /\
  w_missingFilters w' = w_missingFilters w /\
  w_loadPacksPolicy w' = w_loadPacksPolicy w.

(** Members of the driver that processing a context leaves alone. *)
Definition driver_frame (pm pm' : ProjMgr R X) : Prop :=
  opts pm' = opts pm /\ m_parser pm' = m_parser pm /\
  m_cdefaultFile pm' = m_cdefaultFile pm /\
  m_selectedToolchain pm' = m_selectedToolchain pm /\
  worker_frame (m_worker pm) (m_worker pm').

(** What the loop has done when it went through [l], from the state [pm]
    with flag [err] to the state [pm'] with flag [err'], adding the
    events [evs]. *)
Record loop_facts (l : list string) (err : bool) (pm : ProjMgr R X)
    (err' : bool) (pm' : ProjMgr R X) (evs : list (Event R)) : Prop := {
  lf_out : out pm' = out pm ++ evs;
  lf_all : m_allContexts pm' = m_allContexts pm ++ l;
  lf_processed :
    m_processedContexts pm' =
    m_processedContexts pm ++ List.filter (IsContextSelected (m_worker pm)) l;
  lf_calls :
    map processed_key (processing evs) = List.filter (IsContextSelected (m_worker pm)) l;
  lf_failed :
    m_failedContext pm' =
    m_failedContext pm ∪
      list_to_set (map (fun r => name (processed_item r)) (failures (processing evs)));
  lf_error : err' = err || negb (forallb processed_ok (processing evs));
  lf_deref : forall k,
    deref E (m_worker pm') k =
    from_option id (deref E (m_worker pm) k) (last_processed k evs);
  lf_frame : driver_frame pm pm';
  lf_events : forallb is_processing_event evs = true
}.

(** What [ProcessSelectedContexts] has done when it returns [res] in the
    state [pm'], started in [pm], having added the events [evs]. *)
Record run_facts (pm : ProjMgr R X) (res : bool) (pm' : ProjMgr R X)
    (evs : list (Event R)) : Prop := {
  rf_out : out pm' = out pm ++ evs;
  rf_shape : exists loop_evs info,
    evs = loop_evs ++ PrintMissingFilters (m_worker pm) ++ info /\
    forallb is_processing_event loop_evs = true /\
    forallb is_info info = true;
  rf_all : m_allContexts pm' = GetYmlOrderedContexts (m_worker pm);
  rf_processed :
    m_processedContexts pm' =
    List.filter (IsContextSelected (m_worker pm)) (GetYmlOrderedContexts (m_worker pm));
  rf_calls :
    map processed_key (processing evs) =
    List.filter (IsContextSelected (m_worker pm)) (GetYmlOrderedContexts (m_worker pm));
  rf_failed :
    m_failedContext pm' =
    list_to_set (map (fun r => name (processed_item r)) (failures (processing evs)));
  rf_result : res = forallb processed_ok (processing evs);
  rf_deref : forall k,
    deref E (m_worker pm') k =
    from_option id (deref E (m_worker pm) k) (last_processed k evs);
  rf_opts : opts pm' = opts pm;
  rf_parser : m_parser pm' = m_parser pm;
  rf_worker : worker_frame (m_worker pm) (m_worker pm')
}.

(** What [updateRte] keeps: everything of the driver but the RTE projects
    of the items and the trace. *)
Record rte_facts (pm pm' : ProjMgr R X) (evs : list (Event R)) : Prop := {
  uf_out : out pm' = out pm ++ evs;
  uf_quiet : no_calls evs;
  uf_events : forallb is_prelude_event evs = true;
  uf_opts : opts pm' = opts pm;
  uf_parser : m_parser pm' = m_parser pm;
  uf_toolchain : m_selectedToolchain pm' = m_selectedToolchain pm;
  uf_all : m_allContexts pm' = m_allContexts pm;
  uf_processed : m_processedContexts pm' = m_processedContexts pm;
  uf_failed : m_failedContext pm' = m_failedContext pm;
  uf_name : forall k, name (deref E (m_worker pm') k) = name (deref E (m_worker pm) k)
}.

(** The events of "Generate Cprjs" for one context. *)
Definition cprj_events (exp : string) (c : ContextItem R) : list (Event R) :=
  let dir := cprj (directories c) in
  let filename := MakePathCanonical E (dir +:+ "/" +:+ name c +:+ ".cprj") in
  [EvCreateDirectories dir; EvGenerateCprj c filename false;
   LogInfo filename "file generated successfully"] ++
  (if negb (is_empty exp) then
     let exportfilename :=
       MakePathCanonical E (dir +:+ "/" +:+ name c +:+ exp +:+ ".cprj") in
     [EvGenerateCprj c exportfilename true;
      LogInfo exportfilename "export file generated successfully"]
   else []).

(** The state in which [GenerateYMLConfigurationFiles] generates the
    cbuild index: the cbuild-pack call is traced and the RTE files are
    updated. *)
Definition after_updateRte (pm : ProjMgr R X) : ProjMgr R X :=
  (updateRte E
     (set_out (out pm ++
        [EvGenerateCbuildPack (map (deref E (m_worker pm)) (m_processedContexts pm))
           (m_contextSet (opts pm) || negb (Nat.eqb (length (m_context (opts pm))) 0))
           (m_frozenPacks (opts pm))]) pm)).2.

(** "Generate cbuild index file": what it adds to the trace and whether
    it lets [GenerateYMLConfigurationFiles] go on. *)
Definition index_events (pm : ProjMgr R X) : list (Event R) :=
  if negb (is_nil (m_allContexts pm)) then
    [EvGenerateCbuildIndex (map (deref E (m_worker pm)) (m_allContexts pm))
                           (m_outputDir (opts pm))]
  else [].

Definition index_succeeds (pm : ProjMgr R X) : bool :=
  if negb (is_nil (m_allContexts pm)) then
    GenerateCbuildIndex E (m_parser pm) (map (deref E (m_worker pm)) (m_allContexts pm))
                        (m_outputDir (opts pm))
  else true.

(** "Generate cbuild set file": what it adds to the trace and whether it
    lets [GenerateYMLConfigurationFiles] go on. *)
Definition cbuild_set_events (pm : ProjMgr R X) : list (Event R) :=
  if m_contextSet (opts pm) then
    if Nat.eqb (length (m_context (opts pm))) 0
       && negb (Exists E (cbuildSetFileOf (m_parser pm)))
    then [LogWarn "" ("unable to locate " +:+ cbuildSetFileOf (m_parser pm) +:+ " file.")]
    else if negb (is_nil (m_processedContexts pm)) then
      [EvGenerateCbuildSet (map (deref E (m_worker pm)) (m_processedContexts pm))
                           (m_selectedToolchain pm) (cbuildSetFileOf (m_parser pm))]
    else []
  else [].

Definition cbuild_set_succeeds (pm : ProjMgr R X) : bool :=
  if m_contextSet (opts pm) then
    if Nat.eqb (length (m_context (opts pm))) 0
       && negb (Exists E (cbuildSetFileOf (m_parser pm)))
    then true
    else if negb (is_nil (m_processedContexts pm)) then
      GenerateCbuildSet E (map (deref E (m_worker pm)) (m_processedContexts pm))
                        (m_selectedToolchain pm) (cbuildSetFileOf (m_parser pm))
    else true
  else true.

End Facts.

(* ===================================================================== *)
(** ** The positional arguments of the command line *)
(* ===================================================================== *)

(** The three members the positional arguments are assigned to. *)
Definition set_positional (csolutionFile command args : string) (o : Options) : Options :=
  mkOptions csolutionFile command args (m_rootDir o) (m_context o) (m_filter o)
            (m_codeGenerator o) (m_loadPacksPolicy o) (m_clayerSearchPath o)
            (m_export o) (m_outputDir o) (m_checkSchema o) (m_missingPacks o)
            (m_updateRteFiles o) (m_verbose o) (m_debug o) (m_dryRun o)
            (m_ymlOrder o) (m_contextSet o) (m_relativePaths o) (m_frozenPacks o)
            (m_updateIdx o).

(** The loop of [ParseCommandLine] over the positional arguments.
    [is_csolution] is the match of an argument with the regular expression
    of csolution file names, which the regex library decides. *)
Fixpoint AssignPositionalArguments (is_csolution : string -> bool)
    (positionalArguments : list string) (o : Options) : Options :=
  match positionalArguments with
  | [] => o
  | it :: rest =>
      AssignPositionalArguments is_csolution rest
        (if is_csolution it then set_positional it (m_command o) (m_args o) o
         else if is_empty (m_command o) then set_positional (m_csolutionFile o) it (m_args o) o
         else if is_empty (m_args o) then set_positional (m_csolutionFile o) (m_command o) it o
         else o)
  end.

(** The positional arguments that can become the command or its
    argument: those that are no csolution file and are not empty. *)
Definition command_words (is_csolution : string -> bool)
    (positionalArguments : list string) : list string :=
  List.filter (fun it => negb (is_csolution it) && negb (is_empty it)) positionalArguments.

(* ===================================================================== *)
(** ** The listing commands and the code generator *)
(* ===================================================================== *)

(** The member functions behind the commands list packs, boards, devices,
    components, configs, dependencies, generators, toolchains and
    environment, and behind the command run; [ProcessCommands] above
    reaches them through [RunOtherCommand]. *)

(** [ToolchainItem], as [RunListToolchains] reads it. *)
Record ToolchainItem := mkToolchainItem {
  tc_name : string;
  tc_version : string;
  tc_required : string;
  tc_root : string;
  tc_config : string
}.

Record EnvironmentList := mkEnvironmentList {
  cmsis_pack_root : string;
  cmsis_compiler_root : string
}.

(** [CrossPlatformUtils::REG_STATUS]. *)
Inductive REG_STATUS := ENABLED | DISABLED | NOT_SUPPORTED.

(** [std::set<string>] ([StrSet]): the elements in ascending order, an
    element equal to one of the set not being inserted again. *)
Fixpoint set_insert (x : string) (s : list string) : list string :=
  match s with
  | [] => [x]
  | y :: s' =>
      if String.ltb x y then x :: s
      else if String.eqb x y then s
      else y :: set_insert x s'
  end.

(** [std::replace] over the characters of a string. *)
Fixpoint replace (old new : ascii) (s : string) : string :=
  match s with
  | EmptyString => EmptyString
  | String c s' => String (if Ascii.eqb c old then new else c) (replace old new s')
  end.

(** The text of a string but for its last character. *)
Fixpoint without_last (s : string) : string :=
  match s with
  | EmptyString => EmptyString
  | String c s' =>
      match s' with
      | EmptyString => EmptyString
      | String _ _ => String c (without_last s')
      end
  end.

(** The entry [RunListToolchains] builds for a toolchain. *)
Definition toolchainEntry (verbose : bool) (toolchain : ToolchainItem) : string :=
  let toolchainEntry :=
    tc_name toolchain +:+ "@" +:+
    (if is_empty (tc_required toolchain) then tc_version toolchain
     else tc_required toolchain) +:+ newline in
  if verbose then
    let env := replace "." "_" (tc_version toolchain) in
    let toolchainEntry :=
      if negb (is_empty (tc_root toolchain)) then
        (toolchainEntry +:+
         ("  Environment: " +:+ tc_name toolchain +:+ "_TOOLCHAIN_" +:+ env +:+ newline)) +:+
        ("  Toolchain: " +:+ tc_root toolchain +:+ newline)
      else toolchainEntry in
    if negb (is_empty (tc_config toolchain)) then
      toolchainEntry +:+ ("  Configuration: " +:+ tc_config toolchain +:+ newline)
    else toolchainEntry
  else toolchainEntry.

(** The set [RunListToolchains] fills, in the order it is iterated. *)
Definition toolchainsSet (verbose : bool) (toolchains : list ToolchainItem) : list string :=
  fold_left (fun s toolchain => set_insert (toolchainEntry verbose toolchain) s)
            toolchains [].

Section Commands.

Context {R X : Type}.

(** The operations behind the listing commands and the [run] command:
    the worker's listings, each filling a vector and returning whether it
    succeeded, the long path status of the platform, and the two ways of
    running a generator. *)
Record Listing := mkListing {
  ListPacks : bool -> string -> ProjMgrWorker R X -> bool * list string * ProjMgrWorker R X;
  ListBoards : string -> ProjMgrWorker R X -> bool * list string * ProjMgrWorker R X;
  ListDevices : string -> ProjMgrWorker R X -> bool * list string * ProjMgrWorker R X;
  ListComponents : string -> ProjMgrWorker R X -> bool * list string * ProjMgrWorker R X;
  ListConfigs : string -> ProjMgrWorker R X -> bool * list string * ProjMgrWorker R X;
  ListDependencies : string -> ProjMgrWorker R X -> bool * list string * ProjMgrWorker R X;
  ListGenerators : ProjMgrWorker R X -> bool * list string * ProjMgrWorker R X;
  ListToolchains : ProjMgrWorker R X -> bool * list ToolchainItem * ProjMgrWorker R X;
  ListEnvironment : ProjMgrWorker R X -> EnvironmentList;
  GetLongPathRegStatus : REG_STATUS;
  IsGlobalGenerator : ProjMgr R X -> string -> bool;
  ExecuteExtGenerator : string -> ProjMgrWorker R X -> bool * ProjMgrWorker R X;
  ExecuteGenerator : string -> ProjMgrWorker R X -> bool * ProjMgrWorker R X
}.

End Commands.

Arguments Listing : clear implicits.

Section OtherCommands.

Context {R X : Type} (E : External R X) (L : Listing R X).
Local Open Scope pm_scope.

(** The opening of the listing commands and of [RunCodeGenerator]: "Parse
    all input files and create contexts", which the commands with an
    optional csolution file skip when none is given, then "Parse context
    selection".  [false] is one of the two early [return false]. *)
Definition PopulateAndSelect (optionalSolution : bool) : M R X bool :=
  pm <- get ;;
  populated <-
    (if optionalSolution && is_empty (m_csolutionFile (opts pm)) then ret true
     else PopulateContexts E) ;;
  if negb populated then ret false
  else
    pm1 <- get ;;
    callParseContextSelection E (m_context (opts pm1)) false.

(** *** [ProjMgr::RunListPacks] *)

Definition RunListPacks : M R X bool :=
  selected <- PopulateAndSelect true ;;
  if negb selected then ret false
  else
    pm <- get ;;
    let '(ret_, packs, w) :=
      ListPacks L (m_missingPacks (opts pm)) (m_filter (opts pm)) (m_worker pm) in
    modify (set_worker w) ;;;
    emits (map Cout packs) ;;;
    ret ret_.

(** *** [ProjMgr::RunListBoards], [RunListDevices], [RunListComponents],
        [RunListConfigs], [RunListDependencies]

    The five functions differ in the worker operation they call, in the
    word of their error message, and in whether the csolution file is
    optional. *)
Definition RunListItems (optionalSolution : bool)
    (listing : string -> ProjMgrWorker R X -> bool * list string * ProjMgrWorker R X)
    (what : string) : M R X bool :=
  selected <- PopulateAndSelect optionalSolution ;;
  if negb selected then ret false
  else
    pm <- get ;;
    let '(ok, items, w) := listing (m_filter (opts pm)) (m_worker pm) in
    modify (set_worker w) ;;;
    if negb ok then
      emit (LogError "" ("processing " +:+ what +:+ " list failed")) ;;; ret false
    else
      emits (map Cout items) ;;; ret true.

Definition RunListBoards : M R X bool := RunListItems true (ListBoards L) "boards".

Definition RunListDevices : M R X bool := RunListItems true (ListDevices L) "devices".

Definition RunListComponents : M R X bool :=
  RunListItems true (ListComponents L) "components".

Definition RunListConfigs : M R X bool := RunListItems true (ListConfigs L) "config".

Definition RunListDependencies : M R X bool :=
  RunListItems false (ListDependencies L) "dependencies".

(** *** [ProjMgr::RunListGenerators] *)

Definition RunListGenerators : M R X bool :=
  selected <- PopulateAndSelect false ;;
  if negb selected then ret false
  else
    pm <- get ;;
    let '(ok, generators, w) := ListGenerators L (m_worker pm) in
    modify (set_worker w) ;;;
    if negb ok then ret false
    else
      emits (map Cout generators) ;;; ret true.

(** *** [ProjMgr::RunCodeGenerator] *)

Definition RunCodeGenerator : M R X bool :=
  pm <- get ;;
  if is_empty (m_codeGenerator (opts pm)) then
    emit (LogError "" "generator identifier was not specified") ;;; ret false
  else
    selected <- PopulateAndSelect false ;;
    if negb selected then ret false
    else
      pm1 <- get ;;
      let codeGenerator := m_codeGenerator (opts pm1) in
      let (ok, w) :=
        if IsGlobalGenerator L pm1 codeGenerator
        then ExecuteExtGenerator L codeGenerator (m_worker pm1)
        else ExecuteGenerator L codeGenerator (m_worker pm1) in
      modify (set_worker w) ;;;
      if negb ok then ret false else ret true.

(** *** [ProjMgr::RunListToolchains]

    An entry ends with a newline and is written to [cout] as it is: the
    event carries the entry without that last character. *)
Definition RunListToolchains : M R X bool :=
  selected <- PopulateAndSelect true ;;
  if negb selected then ret false
  else
    pm <- get ;;
    let '(ret_, toolchains, w) := ListToolchains L (m_worker pm) in
    modify (set_worker w) ;;;
    emits (map (fun toolchainEntry => Cout (without_last toolchainEntry))
               (toolchainsSet (m_verbose (opts pm)) toolchains)) ;;;
    ret ret_.

(** *** [ProjMgr::RunListEnvironment] *)

Definition RunListEnvironment : M R X bool :=
  pm <- get ;;
  let notFound := "<Not Found>" in
  let env := ListEnvironment L (m_worker pm) in
  emit (Cout ("CMSIS_PACK_ROOT=" +:+
              (if is_empty (cmsis_pack_root env) then notFound
               else cmsis_pack_root env))) ;;;
  emit (Cout ("CMSIS_COMPILER_ROOT=" +:+
              (if is_empty (cmsis_compiler_root env) then notFound
               else cmsis_compiler_root env))) ;;;
  let status := GetLongPathRegStatus L in
  (match status with
   | NOT_SUPPORTED => ret tt
   | _ =>
       emit (Cout ("Long pathname support=" +:+
                   (match status with ENABLED => "enabled" | _ => "disabled" end)))
   end) ;;;
  ret true.

End OtherCommands.

(* ===================================================================== *)
(** ** The usage of the commands *)
(* ===================================================================== *)

(** A [cxxopts::Option], by its first two members: the names of the option
    and its description. *)
Record cxxopts_Option := mkOption {
  opt_names : string;
  opt_desc : string
}.

(** What the help needs from outside: the strings of ProductInfo.h and
    the text [cxxopts] composes for a program line, a group and its
    options (the last argument tells that the custom help is emptied). *)
Record Console := mkConsole {
  VERSION_STRING : string;
  COPYRIGHT_NOTICE : string;
  ORIGINAL_FILENAME : string;
  options_help : string -> string -> list cxxopts_Option -> bool -> string
}.

(** The constant [USAGE], line by line. *)
Definition USAGE : string :=
  String.concat newline
    [""; "Usage:";
     "  csolution <command> [<name>.csolution.yml] [options]";
     "";
     "Commands:";
     "  convert                       Convert user input *.yml files to *.cprj files";
     "  list boards                   Print list of available board names";
     "  list configs                  Print list of configuration files";
     "  list contexts                 Print list of contexts in a <name>.csolution.yml";
     "  list components               Print list of available components";
     "  list dependencies             Print list of unresolved project dependencies";
     "  list devices                  Print list of available device names";
     "  list environment              Print list of environment configurations";
     "  list generators               Print list of code generators of a given context";
     "  list layers                   Print list of available, referenced and compatible layers";
     "  list packs                    Print list of used packs from the pack repository";
     "  list toolchains               Print list of supported toolchains";
     "  run                           Run code generator";
     "  update-rte                    Create/update configuration files and validate solution";
     "";
     "Options:";
     "  -c, --context arg [...]       Input context names [<project-name>][.<build-type>][+<target-type>]";
     "  -d, --debug                   Enable debug messages";
     "  -D, --dry-run                 Enable dry-run";
     "  -e, --export arg              Set suffix for exporting <context><suffix>.cprj retaining only specified versions";
     "  -f, --filter arg              Filter words";
     "  -g, --generator arg           Code generator identifier";
     "  -l, --load arg                Set policy for packs loading [latest | all | required]";
     "  -L, --clayer-path arg         Set search path for external clayers";
     "  -m, --missing                 List only required packs that are missing in the pack repository";
     "  -n, --no-check-schema         Skip schema check";
     "  -N, --no-update-rte           Skip creation of RTE directory and files";
     "  -o, --output arg              Output directory";
     "  -R, --relative-paths          Print paths relative to project or ${CMSIS_PACK_ROOT}";
     "  -S, --context-set             Use context set";
     "  -t, --toolchain arg           Selection of the toolchain used in the project optionally with version";
     "  -v, --verbose                 Enable verbose messages";
     "  -V, --version                 Print version";
     "";
     "Use 'csolution <command> -h' for more information about a command.";
     ""].

(** The options [ParseCommandLine] declares and its dictionary of the
    commands: for each command, whether the csolution file is optional,
    and the options its help shows. *)
Module CommandLine.

Definition solution := mkOption "s,solution" "Input csolution.yml file".
Definition context :=
  mkOption "c,context"
           "Input context names [<project-name>][.<build-type>][+<target-type>]".
Definition filter := mkOption "f,filter" "Filter words".
Definition help := mkOption "h,help" "Print usage".
Definition generator := mkOption "g,generator" "Code generator identifier".
Definition load :=
  mkOption "l,load" "Set policy for packs loading [latest | all | required]".
Definition clayerSearchPath :=
  mkOption "L,clayer-path" "Set search path for external clayers".
Definition missing :=
  mkOption "m,missing"
           "List only required packs that are missing in the pack repository".
Definition schemaCheck := mkOption "n,no-check-schema" "Skip schema check".
Definition noUpdateRte :=
  mkOption "N,no-update-rte" "Skip creation of RTE directory and files".
Definition output := mkOption "o,output" "Output directory".
Definition version := mkOption "V,version" "Print version".
Definition verbose := mkOption "v,verbose" "Enable verbose messages".
Definition debug := mkOption "d,debug" "Enable debug messages".
Definition dryRun := mkOption "D,dry-run" "Enable dry-run".
Definition exportSuffix :=
  mkOption "e,export"
           "Set suffix for exporting <context><suffix>.cprj retaining only specified versions".
Definition toolchain :=
  mkOption "t,toolchain"
           "Selection of the toolchain used in the project optionally with version".
Definition ymlOrder := mkOption "yml-order" "Preserve order as specified in input yml".
Definition contextSet := mkOption "S,context-set" "Use context set".
Definition relativePaths :=
  mkOption "R,relative-paths" "Output paths relative to project or to CMSIS_PACK_ROOT".
Definition frozenPacks :=
  mkOption "frozen-packs"
           "The list of packs from cbuild-pack.yml is frozen and raises error if not up-to-date".
Definition updateIdx := mkOption "update-idx" "Update cbuild-idx file with layer info".

Definition optionsDict : list (string * (bool * list cxxopts_Option)) :=
  [("update-rte",
    (false, [context; contextSet; debug; load; schemaCheck; toolchain; verbose;
             frozenPacks]));
   ("convert",
    (false, [context; contextSet; debug; exportSuffix; load; schemaCheck; noUpdateRte;
             output; toolchain; verbose; frozenPacks]));
   ("run",
    (false, [context; debug; generator; load; schemaCheck; verbose; dryRun]));
   ("list packs",
    (true, [context; debug; filter; load; missing; schemaCheck; toolchain; verbose;
            relativePaths]));
   ("list boards",
    (true, [context; debug; filter; load; schemaCheck; toolchain; verbose]));
   ("list devices",
    (true, [context; debug; filter; load; schemaCheck; toolchain; verbose]));
   ("list configs",
    (true, [context; debug; filter; load; schemaCheck; toolchain; verbose]));
   ("list components",
    (true, [context; debug; filter; load; schemaCheck; toolchain; verbose]));
   ("list dependencies",
    (false, [context; debug; filter; load; schemaCheck; toolchain; verbose]));
   ("list contexts",
    (false, [debug; filter; schemaCheck; verbose; ymlOrder]));
   ("list generators",
    (false, [context; debug; load; schemaCheck; toolchain; verbose]));
   ("list layers",
    (false, [context; debug; load; clayerSearchPath; schemaCheck; toolchain; verbose;
             updateIdx]));
   ("list toolchains",
    (false, [context; debug; toolchain; verbose]));
   ("list environment",
    (true, []))].

End CommandLine.

(** [std::map::find] on a dictionary of commands. *)
Fixpoint dict_find {A : Type} (dict : list (string * A)) (key : string) : option A :=
  match dict with
  | [] => None
  | (k, a) :: rest => if String.eqb k key then Some a else dict_find rest key
  end.

Section Usage.

Context {R X : Type} (C : Console).
Local Open Scope pm_scope.

(** *** [ProjMgr::PrintUsage] *)

Definition PrintUsage (cmdOptionsDict : list (string * (bool * list cxxopts_Option)))
    (cmd subCmd : string) : M R X bool :=
  let signature :=
    "csolution: Project Manager " +:+ VERSION_STRING C +:+ " " +:+ COPYRIGHT_NOTICE C in
  if is_empty cmd && is_empty subCmd then
    emit (Cout signature) ;;;
    emit (Cout USAGE) ;;;
    ret true
  else
    let filter := cmd +:+ (if is_empty subCmd then "" else " " +:+ subCmd) in
    match dict_find cmdOptionsDict filter with
    | None =>
        emit (LogError ""
                ("'" +:+ filter +:+ "' is not a valid command. See 'csolution --help'.")) ;;;
        ret false
    | Some (optionalArg, cmdOptions) =>
        emit (Cout signature) ;;;
        let program :=
          ORIGINAL_FILENAME C +:+ " " +:+ cmd +:+
          (if is_empty subCmd then "" else " " +:+ subCmd) in
        let program :=
          if negb (is_nil cmdOptions) then
            program +:+ (if optionalArg then " [" else " <") +:+ "csolution.yml" +:+
            (if optionalArg then "]" else ">")
          else program in
        emit (Cout (options_help C program filter cmdOptions (is_nil cmdOptions))) ;;;
        ret true
    end.

(** *** [ProjMgr::ShowVersion] *)

Definition ShowVersion : M R X unit :=
  emit (Cout (ORIGINAL_FILENAME C +:+ " " +:+ VERSION_STRING C +:+ " " +:+
              COPYRIGHT_NOTICE C)).

End Usage.

(* ===================================================================== *)
(** ** The command line *)
(* ===================================================================== *)

(** What [options.parse] of [cxxopts] hands back: how often an option was
    given, its value as a string or as a vector of strings, and the
    arguments that matched nothing. *)
Record ParseResult := mkParseResult {
  count : string -> nat;
  as_string : string -> string;
  as_strings : string -> list string;
  unmatched : list string
}.

(** [parseResult.count(name)] read as a condition. *)
Definition given (parseResult : ParseResult) (option : string) : bool :=
  Nat.ltb 0 (count parseResult option).

(** The parse result with another number of occurrences of one option. *)
Definition with_count (option : string) (n : nat) (parseResult : ParseResult)
    : ParseResult :=
  mkParseResult (fun name => if String.eqb name option then n else count parseResult name)
                (as_string parseResult) (as_strings parseResult) (unmatched parseResult).

(** The members [ParseCommandLine] assigns together. *)
Definition set_flags (checkSchema missingPacks updateRteFiles verbose debug dryRun
    ymlOrder contextSet relativePaths frozenPacks updateIdx : bool) (o : Options) : Options :=
  mkOptions (m_csolutionFile o) (m_command o) (m_args o) (m_rootDir o) (m_context o)
            (m_filter o) (m_codeGenerator o) (m_loadPacksPolicy o) (m_clayerSearchPath o)
            (m_export o) (m_outputDir o) checkSchema missingPacks updateRteFiles verbose
            debug dryRun ymlOrder contextSet relativePaths frozenPacks updateIdx.

Definition set_solution (csolutionFile rootDir : string) (o : Options) : Options :=
  mkOptions csolutionFile (m_command o) (m_args o) rootDir (m_context o)
            (m_filter o) (m_codeGenerator o) (m_loadPacksPolicy o) (m_clayerSearchPath o)
            (m_export o) (m_outputDir o) (m_checkSchema o) (m_missingPacks o)
            (m_updateRteFiles o) (m_verbose o) (m_debug o) (m_dryRun o)
            (m_ymlOrder o) (m_contextSet o) (m_relativePaths o) (m_frozenPacks o)
            (m_updateIdx o).

Definition set_values (context : list string)
    (filter codeGenerator loadPacksPolicy clayerSearchPath export outputDir : string)
    (o : Options) : Options :=
  mkOptions (m_csolutionFile o) (m_command o) (m_args o) (m_rootDir o) context
            filter codeGenerator loadPacksPolicy clayerSearchPath
            export outputDir (m_checkSchema o) (m_missingPacks o)
            (m_updateRteFiles o) (m_verbose o) (m_debug o) (m_dryRun o)
            (m_ymlOrder o) (m_contextSet o) (m_relativePaths o) (m_frozenPacks o)
            (m_updateIdx o).

(** What the parsing of the command line takes from other libraries: the
    match with the pattern of csolution files, [RteUtils::ExtractFilePath]
    and the generic form of a path. *)
Record PathUtils := mkPathUtils {
  is_csolution : string -> bool;
  ExtractFilePath : string -> bool -> string;
  generic_string : string -> string
}.

Section FlagSetters.

Context {R X : Type}.

(** The setters to which [ParseCommandLine] hands the flags:
    [SetCheckSchema], [SetVerbose], [SetDebug], [SetDryRun] and
    [SetPrintRelativePaths] of the worker, and [SetCheckSchema] of the
    external generator ([ext_SetCheckSchema]).  Their code is elsewhere.
    What they set is in the part of the state the driver never reads, [X];
    the external generator, which the worker holds a pointer to, has its
    state there too. *)
Record Setters := mkSetters {
  SetCheckSchema : bool -> X -> X;
  ext_SetCheckSchema : bool -> X -> X;
  SetVerbose : bool -> X -> X;
  SetDebug : bool -> X -> X;
  SetDryRun : bool -> X -> X;
  SetPrintRelativePaths : bool -> X -> X
}.

(** A call that changes that part of the state only. *)
Definition w_call (f : X -> X) (w : ProjMgrWorker R X) : ProjMgrWorker R X :=
  set_w_internal (f (w_internal w)) w.

End FlagSetters.

Arguments Setters : clear implicits.

Section CommandLineParsing.

Context {R X : Type} (E : External R X) (C : Console) (P : PathUtils) (S : Setters X).
Local Open Scope pm_scope.

(** *** [ProjMgr::ParseCommandLine], the option parsing written out

    [parsed] is what [options.parse] gives: the parse result, or the
    message of the exception it throws.  The assignments of the flags to
    the members are gathered in [set_flags]; the calls of the setters of
    the worker and of the external generator, which take the members just
    assigned by value, follow in the order of the source. *)
Definition ParseCommandLineArguments (parsed : string + ParseResult) : M R X Z :=
  match parsed with
  | inl what => emit (LogError "" what) ;;; ret ERROR
  | inr parseResult =>
      modify (fun pm =>
        set_opts
          (set_flags (negb (given parseResult "n")) (given parseResult "m")
                     (negb (given parseResult "no-update-rte")) (given parseResult "v")
                     (given parseResult "d") (given parseResult "D")
                     (given parseResult "yml-order") (given parseResult "context-set")
                     (given parseResult "relative-paths")
                     (given parseResult "frozen-packs") (given parseResult "update-idx")
                     (opts pm)) pm) ;;;
      pm <- get ;;
      modify_worker (w_call (SetCheckSchema S (m_checkSchema (opts pm)))) ;;;
      modify_worker (w_call (ext_SetCheckSchema S (m_checkSchema (opts pm)))) ;;;
      modify_worker (w_call (SetVerbose S (m_verbose (opts pm)))) ;;;
      modify_worker (w_call (SetDebug S (m_debug (opts pm)))) ;;;
      modify_worker (w_call (SetDryRun S (m_dryRun (opts pm)))) ;;;
      modify_worker (w_call (SetPrintRelativePaths S (m_relativePaths (opts pm)))) ;;;
      if given parseResult "positional" then
        modify (fun pm =>
          set_opts (AssignPositionalArguments (is_csolution P)
                      (as_strings parseResult "positional") (opts pm)) pm) ;;;
        (if given parseResult "solution" then
           modify (fun pm =>
             set_opts (set_solution (as_string parseResult "solution")
                                    (m_rootDir (opts pm)) (opts pm)) pm)
         else ret tt) ;;;
        pm <- get ;;
        found <-
          (if negb (is_empty (m_csolutionFile (opts pm))) then
             if negb (Exists E (m_csolutionFile (opts pm))) then
               emit (LogError (m_csolutionFile (opts pm)) "csolution file was not found") ;;;
               ret false
             else
               let csolutionFile := MakePathCanonical E (m_csolutionFile (opts pm)) in
               let rootDir := ExtractFilePath P csolutionFile false in
               modify (fun pm => set_opts (set_solution csolutionFile rootDir (opts pm)) pm) ;;;
               modify_worker (w_SetRootDir rootDir) ;;;
               ret true
           else ret true) ;;
        if negb found then ret ERROR
        else
          modify (fun pm =>
            let o := opts pm in
            set_opts
              (set_values
                 (if given parseResult "context" then as_strings parseResult "context"
                  else m_context o)
                 (if given parseResult "filter" then as_string parseResult "filter"
                  else m_filter o)
                 (if given parseResult "generator" then as_string parseResult "generator"
                  else m_codeGenerator o)
                 (if given parseResult "load" then as_string parseResult "load"
                  else m_loadPacksPolicy o)
                 (if given parseResult "clayer-path" then as_string parseResult "clayer-path"
                  else m_clayerSearchPath o)
                 (if given parseResult "export" then as_string parseResult "export"
                  else m_export o)
                 (if given parseResult "output"
                  then generic_string P (as_string parseResult "output")
                  else m_outputDir o)
                 o) pm) ;;;
          (if given parseResult "toolchain" then
             modify (set_selectedToolchain (as_string parseResult "toolchain"))
           else ret tt) ;;;
          if negb (is_nil (unmatched parseResult)) then
            emit (LogError "" "too many command line arguments") ;;; ret ERROR
          else if given parseResult "help" then
            pm1 <- get ;;
            shown <- PrintUsage C CommandLine.optionsDict
                                (m_command (opts pm1)) (m_args (opts pm1)) ;;
            ret (if shown then (-1)%Z else 1%Z)
          else
            ok <- SetLoadPacksPolicy ;;
            if negb ok then ret ERROR else ret SUCCESS
      else if given parseResult "version" then
        ShowVersion C ;;; ret (-1)%Z
      else
        shown <- PrintUsage C CommandLine.optionsDict "" "" ;;
        ret (if shown then (-1)%Z else 1%Z)
  end.

(** [ProjMgr::RunProjMgr] on the arguments: as [RunProjMgr] above, the
    option parsing written out. *)
Definition RunProjMgrArguments (parsed : string + ParseResult)
    (envp : option (list string)) : Z * ProjMgr R X :=
  let manager := ProjMgr_init E in
  let (res, manager) := ParseCommandLineArguments parsed manager in
  if negb (Z.eqb res 0) then
    (if Z.ltb 0 res then res else SUCCESS, manager)
  else
    let envVars := match envp with Some env => env | None => [] end in
    let manager :=
      set_worker (w_SetEnvironmentVariables envVars (m_worker manager)) manager in
    let (ok, w) := InitializeModel E (m_worker manager) in
    let manager := set_worker w manager in
    if ok then ProcessCommands E manager else (ERROR, manager).

End CommandLineParsing.

(** A text without a space. *)
Fixpoint no_space (s : string) : bool :=
  match s with
  | EmptyString => true
  | String c s' => negb (Ascii.eqb c " ") && no_space s'
  end.

(* ===================================================================== *)
(** ** Further observations and statements *)
(* ===================================================================== *)

Section MoreObservations.

Context {R : Type}.

(** The lines written to [cout]. *)
Definition cout_lines (evs : list (Event R)) : list string :=
  omap (fun e => match e with Cout line => Some line | _ => None end) evs.

(** The calls of [ProjMgrWorker::AddContexts]. *)
Definition add_calls (evs : list (Event R)) : list (ContextDesc * string) :=
  omap (fun e => match e with
                 | EvAddContexts descriptor file => Some (descriptor, file)
                 | _ => None
                 end) evs.

(** The contexts whose RTE files are updated, by name. *)
Definition rte_updates (evs : list (Event R)) : list string :=
  omap (fun e => match e with EvUpdateRte n => Some n | _ => None end) evs.


(** The calls of [GenerateCbuildIndex]. *)
Definition index_calls (evs : list (Event R)) : list (list (ContextItem R) * string) :=
  omap (fun e => match e with
                 | EvGenerateCbuildIndex items outputDir => Some (items, outputDir)
                 | _ => None
                 end) evs.

(** The messages passed to [ProjMgrLogger::Info]. *)
Definition infos (evs : list (Event R)) : list (string * string) :=
  omap (fun e => match e with LogInfo file msg => Some (file, msg) | _ => None end) evs.

(** Events of [PopulateContexts]: messages of the logger and calls of
    [AddContexts]. *)
Definition is_populate_event (e : Event R) : bool :=
  match e with
  | LogError _ _ | LogWarn _ _ | EvAddContexts _ _ => true
  | _ => false
  end.

End MoreObservations.

Section MoreFacts.

Context {R X : Type} (E : External R X).

(** The file "Parse cprojects" looks for, and whether the loop gets past
    a cproject: the file is found and parses. *)
Definition cprojectFileOf (o : Options) (cproject : string) : string :=
  canonical E (m_rootDir o +:+ "/" +:+ cproject).

Definition cproject_found (o : Options) (cproject : string) : bool :=
  negb (is_empty (cprojectFileOf o cproject)).

Definition cproject_parsed (o : Options) (cproject : string) : bool :=
  cproject_found o cproject
  && ParseCproject E (cprojectFileOf o cproject) (m_checkSchema o).

(** The file "Add contexts" hands to the worker for a descriptor. *)
Definition descriptorFileOf (o : Options) (descriptor : ContextDesc) : string :=
  if is_absolute E (cproject descriptor) then cproject descriptor
  else canonical E (m_rootDir o +:+ "/" +:+ cproject descriptor).

(** The search paths of [GetCdefaultFile]. *)
Definition cdefaultSearchPaths (pm : ProjMgr R X) : list string :=
  m_rootDir (opts pm) ::
  (if is_empty (GetCompilerRoot E (m_worker pm)) then []
   else [GetCompilerRoot E (m_worker pm)]).

(** The members of the driver that hold the outcome of [Configure]. *)
Definition same_results (pm pm' : ProjMgr R X) : Prop :=
  m_allContexts pm' = m_allContexts pm /\
  m_processedContexts pm' = m_processedContexts pm /\
  m_failedContext pm' = m_failedContext pm.

(** What the steps of [PopulateContexts] keep of the driver, [evs] being
    the events they add. *)
Definition populate_facts (pm pm' : ProjMgr R X) (evs : list (Event R)) : Prop :=
  opts pm' = opts pm /\ m_selectedToolchain pm' = m_selectedToolchain pm /\
  same_results pm pm' /\
  out pm' = out pm ++ evs /\ forallb is_populate_event evs = true.

(** What [updateRte] does to an item: nothing without an active RTE
    project, else the attribute is set and the project updated. *)
Definition updated_item (c : ContextItem R) : ContextItem R :=
  match rteActiveProject c with
  | Some project =>
      set_rteActiveProject
        (Some (UpdateRte E (SetAttribute "update-rte-files" "1" project))) c
  | None => c
  end.

Definition has_rteActiveProject (pm : ProjMgr R X) (ptr : string) : bool :=
  is_some (rteActiveProject (deref E (m_worker pm) ptr)).

(** The call of [GenerateCbuild] made for a processed context. *)
Definition cbuild_call (pm : ProjMgr R X) (ptr : string) : ContextItem R * bool :=
  (deref E (m_worker pm) ptr,
   bool_decide (name (deref E (m_worker pm) ptr) ∈ m_failedContext pm)).

Definition cbuild_ok (call : ContextItem R * bool) : bool :=
  GenerateCbuild E call.1 call.2.

(** "Generate cbuild pack file": whether it lets
    [GenerateYMLConfigurationFiles] go on. *)
Definition cbuild_pack_succeeds (pm : ProjMgr R X) : bool :=
  GenerateCbuildPack E (m_parser pm)
    (map (deref E (m_worker pm)) (m_processedContexts pm))
    (m_contextSet (opts pm) || negb (Nat.eqb (length (m_context (opts pm))) 0))
    (m_frozenPacks (opts pm)).



(** Following the spec (section 4.6, Resolution Run: "Iterates the
    Selection Policy's ordered output; for each context invokes Context
    Builder"): what the Context Builder, [ProcessContext], answers on the
    selected contexts of an ordered list, taken in order, each call made
    on the worker as the calls before it left it, its item stored back
    under its key; with the worker the calls leave.  A context that is
    not selected is subscripted and passed over.  Nothing here depends on
    an answer: a failure does not end the iteration. *)
Fixpoint resolution_results (orderedContexts : list string) (w : ProjMgrWorker R X)
    : list (string * ContextItem R * bool) * ProjMgrWorker R X :=
  match orderedContexts with
  | [] => ([], w)
  | contextName :: rest =>
      let (contextItem, w1) := contexts_at E contextName w in
      if IsContextSelected w1 contextName then
        let '(ok, contextItem', x) := ProcessContext E w1 contextItem true true false in
        let (results, w') :=
          resolution_results rest (set_w_internal x (store contextName contextItem' w1)) in
        ((contextName, contextItem', ok) :: results, w')
      else resolution_results rest w1
  end.

(** The state in which [Configure], started in [pm], processes the
    contexts, when it gets that far: the inputs are populated and the
    context selection is parsed. *)
Definition processing_state (pm : ProjMgr R X) : option (ProjMgr R X) :=
  let (populated, pm1) := PopulateContexts E pm in
  if populated then
    let (selected, pm2) :=
      callParseContextSelection E (m_context (opts pm1)) (checkCbuildSet (opts pm1)) pm1 in
    if selected then Some pm2 else None
  else None.


(** The flags as the worker and the external generator have them once
    [ParseCommandLine] has handed them over. *)
Definition flags_handed_over (S : Setters X) (o : Options) (x : X) : X :=
  SetPrintRelativePaths S (m_relativePaths o)
    (SetDryRun S (m_dryRun o)
       (SetDebug S (m_debug o)
          (SetVerbose S (m_verbose o)
             (ext_SetCheckSchema S (m_checkSchema o)
                (SetCheckSchema S (m_checkSchema o) x))))).

End MoreFacts.

(* ===================================================================== *)
(** ** A sample solution *)
(* ===================================================================== *)

(** A concrete set of collaborators, on which the statements below are
    exercised: the solution of the specification's scenario (project App,
    build types Debug and Release, target types BoardA and BoardB), where
    no toolchain can be resolved for BoardB.  The resolution carried by an
    item counts the steps that succeeded; the worker counts the calls. *)
Module Sample.

Fixpoint last_slash (s : string) : option (string * string) :=
  match s with
  | EmptyString => None
  | String c s' =>
      match last_slash s' with
      | Some (d, f) => Some (String c d, f)
      | None => if Ascii.eqb c "/" then Some (EmptyString, s') else None
      end
  end.

Definition parent_path (s : string) : string :=
  match last_slash s with Some (d, _) => d | None => "" end.

Definition filename (s : string) : string :=
  match last_slash s with Some (_, f) => f | None => s end.

Definition csolution (cprojects : list string) : CsolutionItem :=
  mkCsolutionItem "demo" "/work" cprojects [mkContextDesc "app/App.cproject.yml"] false.

Definition ParseCsolution (file : string) (checkSchema frozen : bool)
    : option CsolutionItem :=
  if String.eqb file "/work/demo.csolution.yml" then
    Some (csolution ["app/App.cproject.yml"; "lib/Lib.cproject.yml"])
  else if String.eqb file "/work/samename.csolution.yml" then
    Some (csolution ["app/App.cproject.yml"; "lib/App.cproject.yml"])
  else if String.eqb file "/work/samedir.csolution.yml" then
    Some (csolution ["app/App.cproject.yml"; "app/Lib.cproject.yml"])
  else None.

Definition item (n : string) : ContextItem nat :=
  mkContextItem n (mkDirectoriesItem ("/work/out/" +:+ n)) None 0.

Definition AppContexts : list string :=
  ["App.Debug+BoardA"; "App.Debug+BoardB"; "App.Release+BoardA"; "App.Release+BoardB"].

Definition AddContexts (d : ContextDesc) (file : string) (w : ProjMgrWorker nat nat)
    : bool * ProjMgrWorker nat nat :=
  let names := if String.eqb (cproject d) "app/App.cproject.yml" then AppContexts else [] in
  (true,
   mkWorker (foldr (fun n m => <[n := item n]> m) (w_contexts w) names)
            (w_ymlOrderedContexts w ++ names) (w_selectedContexts w)
            (w_missingFilters w) (w_loadPacksPolicy w) (w_selectedToolchain w)
            (w_outputDir w) (w_rootDir w) (w_envVars w) (w_internal w)).

Definition targets_BoardB (c : ContextItem nat) : bool :=
  match parse (name c) with
  | Parsed id => bool_decide (targetType id = Some "BoardB")
  | ParseError _ => true
  end.

Definition ProcessContext (w : ProjMgrWorker nat nat) (c : ContextItem nat)
    (loadGenFiles resolveDependencies updateRteFiles : bool)
    : bool * ContextItem nat * nat :=
  if targets_BoardB c then
    (false, mkContextItem (name c) (directories c) None 1, S (w_internal w))
  else
    (true, mkContextItem (name c) (directories c) (Some (mkRteProject ∅)) 2,
     S (w_internal w)).

Definition ext : External nat nat :=
  mkExternal
    ParseCsolution (fun _ _ => true) (fun _ _ => true) (fun _ => [])
    (fun _ => false) (fun p => p) (fun _ => false) (fun p => p)
    parent_path filename (fun _ _ => (false, ""))
    0 0 (fun w => (true, w)) (fun _ => "") AddContexts (fun w => w) ProcessContext
    (fun w => w_selectedToolchain w) (fun _ => [])
    (fun _ w => (true, ["Net.clayer.yml"; "Shield.clayer.yml"], w))
    (fun _ => false) (fun _ => []) (fun _ _ => true) (fun _ l => is_nil l)
    (fun p => p)
    (fun _ _ _ _ => true) (fun _ _ _ => true) (fun _ _ _ => true)
    (fun _ _ => true) (fun _ _ _ => true)
    (fun _ _ pm => (true, pm)).

Definition options (csolutionFile command args : string) (context : list string)
    (ymlOrder contextSet updateIdx : bool) : Options :=
  mkOptions csolutionFile command args "/work" context "" "" "" "" "" "/work/out"
            true false true false false false ymlOrder contextSet false false updateIdx.

Definition manager (o : Options) : ProjMgr nat nat :=
  set_opts o (ProjMgr_init ext).

(** [csolution convert demo.csolution.yml -c App.Debug -c Lib.Release] *)
Definition convert : ProjMgr nat nat :=
  manager (options "/work/demo.csolution.yml" "convert" "" ["App.Debug"; "Lib.Release"]
                   false false false).

Definition convert_populated : ProjMgr nat nat := (PopulateContexts ext convert).2.

Definition convert_selected : ProjMgr nat nat :=
  (callParseContextSelection ext (m_context (opts convert_populated))
     (checkCbuildSet (opts convert_populated)) convert_populated).2.

(** [csolution convert demo.csolution.yml -S], no cbuild-set file on disk *)
Definition convert_set : ProjMgr nat nat :=
  manager (options "/work/demo.csolution.yml" "convert" "" [] false true false).

Definition convert_set_populated : ProjMgr nat nat := (PopulateContexts ext convert_set).2.

(** [csolution list contexts demo.csolution.yml --yml-order] *)
Definition list_contexts : ProjMgr nat nat :=
  manager (options "/work/demo.csolution.yml" "list" "contexts" [] true false false).

Definition list_contexts_populated : ProjMgr nat nat :=
  (PopulateContexts ext list_contexts).2.

(** [csolution list layers demo.csolution.yml --update-idx] *)
Definition list_layers : ProjMgr nat nat :=
  manager (options "/work/demo.csolution.yml" "list" "layers" [] false false true).

Definition list_layers_populated : ProjMgr nat nat :=
  (PopulateContexts ext list_layers).2.

Definition list_layers_selected : ProjMgr nat nat :=
  (callParseContextSelection ext [] false list_layers_populated).2.

(** [csolution list layers --update-idx], without a csolution file *)
Definition list_layers_alone : ProjMgr nat nat :=
  manager (options "" "list" "layers" [] false false true).

(** [csolution convert samename.csolution.yml] *)
Definition convert_samename : ProjMgr nat nat :=
  manager (options "/work/samename.csolution.yml" "convert" "" [] false false false).

(** [csolution convert demo.csolution.yml -l newest] *)
Definition options_newest : Options :=
  mkOptions "/work/demo.csolution.yml" "convert" "" "/work" [] "" "" "newest" "" ""
            "/work/out" true false true false false false false false false false false.

End Sample.

(** Collaborators of the listing commands, and further command lines, on
    the sample solution. *)
Module SampleCommands.

Definition toolchains : list ToolchainItem :=
  [mkToolchainItem "GCC" "10.3.1" "" "/opt/gcc" "";
   mkToolchainItem "AC6" "6.18.0" "6.16.0" "" "/etc/AC6.6.16.0.cmake";
   mkToolchainItem "GCC" "10.3.1" "" "/opt/gcc" ""].

Definition listing : Listing nat nat :=
  mkListing
    (fun _ _ w => (false, ["ARM::CMSIS@5.9.0"], w))
    (fun _ w => (true, ["BoardA"; "BoardB"], w))
    (fun _ w => (true, ["DeviceA"], w))
    (fun _ w => (false, [], w))
    (fun _ w => (true, [], w))
    (fun _ w => (true, [], w))
    (fun w => (true, ["GeneratorA"], w))
    (fun w => (false, toolchains, w))
    (fun _ => mkEnvironmentList "/packs" "")
    DISABLED
    (fun _ g => String.eqb g "GlobalGenerator")
    (fun _ w => (true, w))
    (fun _ w => (false, w)).

(** [csolution update-rte demo.csolution.yml --no-update-rte] *)
Definition options_no_update_rte : Options :=
  mkOptions "/work/demo.csolution.yml" "update-rte" "" "/work" [] "" "" "" "" ""
            "/work/out" true false false false false false false false false false false.

Definition update_rte_skipped : ProjMgr nat nat := Sample.manager options_no_update_rte.

(** The driver once [csolution convert demo.csolution.yml -c App.Debug
    -c Lib.Release] is configured. *)
Definition convert_configured : ProjMgr nat nat := (Configure Sample.ext Sample.convert).2.

(** [csolution build demo.csolution.yml] *)
Definition build : ProjMgr nat nat :=
  Sample.manager (Sample.options "/work/demo.csolution.yml" "build" "" [] false false false).

(** [csolution convert], without a csolution file *)
Definition convert_alone : ProjMgr nat nat :=
  Sample.manager (Sample.options "" "convert" "" [] false false false).


(** [csolution list dependencies], without a csolution file *)
Definition list_dependencies_alone : ProjMgr nat nat :=
  Sample.manager (Sample.options "" "list" "dependencies" [] false false false).

(** Names that end in .csolution.yml, for the match of the positional
    arguments. *)
Fixpoint ends_with_csolution_yml (s : string) : bool :=
  String.eqb s ".csolution.yml" ||
  match s with
  | EmptyString => false
  | String _ s' => ends_with_csolution_yml s'
  end.

(** The strings of the product and a help text reduced to its program
    line. *)
Definition console : Console :=
  mkConsole "2.2.1" "(C) 2023 Arm Ltd. and Contributors" "csolution"
            (fun program _ _ _ => program).

(** The path utilities: the directory of a file for
    [RteUtils::ExtractFilePath], paths in generic form already. *)
Definition paths : PathUtils :=
  mkPathUtils ends_with_csolution_yml (fun path _ => Sample.parent_path path) (fun p => p).

(** Setters that keep the flags as the bits of a number. *)
Definition setters : Setters nat :=
  mkSetters (fun b x => if b then x + 1 else x) (fun b x => if b then x + 2 else x)
            (fun b x => if b then x + 4 else x) (fun b x => if b then x + 8 else x)
            (fun b x => if b then x + 16 else x) (fun b x => if b then x + 32 else x).

(** [csolution list environment -v] *)
Definition list_environment_line : ParseResult :=
  mkParseResult
    (fun name => if String.eqb name "positional" then 2
                 else if String.eqb name "v" then 1 else 0)%nat
    (fun _ => "")
    (fun name => if String.eqb name "positional" then ["list"; "environment"] else [])
    [].

(** [csolution --version -v] *)
Definition version_line : ParseResult :=
  mkParseResult
    (fun name => if String.eqb name "version" then 1
                 else if String.eqb name "v" then 1 else 0)%nat
    (fun _ => "") (fun _ => []) [].

(** [csolution convert gone.csolution.yml --help --load none surplus],
    the file not being there *)
Definition convert_gone_line : ParseResult :=
  mkParseResult
    (fun name => if String.eqb name "positional" then 2
                 else if String.eqb name "help" then 1
                 else if String.eqb name "load" then 1 else 0)%nat
    (fun name => if String.eqb name "load" then "none" else "")
    (fun name => if String.eqb name "positional" then ["convert"; "gone.csolution.yml"]
                 else [])
    ["surplus"].

End SampleCommands.

(** Unfolding of the state-passing combinators. *)
Ltac run_pm :=
  cbv [bind ret get modify modify_worker emit emits].

(* ===================================================================== *)
(** ** Round trip of the identifier algebra *)
(* ===================================================================== *)

Lemma app_cons (c : ascii) (s r : string) : String c s +:+ r = String c (s +:+ r).
Proof. reflexivity. Qed.

Lemma app_nil_l (r : string) : "" +:+ r = r.
Proof. reflexivity. Qed.

Lemma append_empty_r (s : string) : s +:+ "" = s.
Proof. induction s as [|c s IH]; [reflexivity | rewrite app_cons; f_equal; exact IH]. Qed.

Lemma take_name_app (n rest : string) :
  all_name_chars n = true ->
  starts_with_separator rest ->
  take_name (n +:+ rest) = (n, rest).
Proof.
  induction n as [|c n IH]; intros Hn Hrest.
  - rewrite app_nil_l. destruct rest as [|c r]; simpl in *; [reflexivity|].
    now rewrite Hrest.
  - rewrite app_cons. simpl in *. apply andb_prop in Hn as [Hc Hn].
    rewrite Hc, (IH Hn Hrest). reflexivity.
Qed.

Lemma is_empty_name (n : string) : is_name n -> is_empty n = false.
Proof. intros [Hne _]. destruct n; [congruence | reflexivity]. Qed.

Lemma format_axis_separator (c : ascii) (t : option string) :
  is_name_char c = false ->
  starts_with_separator (format_axis (String c "") t).
Proof. intros Hc. destruct t as [t|]; simpl; auto. Qed.

Lemma parse_target_ok (text p : string) (b t : option string) :
  is_optional_name t ->
  parse_target text p b (format_axis "+" t) = Parsed (mkContextIdentifier p b t).
Proof.
  destruct t as [t|]; simpl; [|reflexivity].
  intros Ht. pose proof (is_empty_name _ Ht) as He. destruct Ht as [_ Hc].
  pose proof (take_name_app t "" Hc I) as Ht.
  rewrite append_empty_r in Ht. rewrite ?app_cons, ?app_nil_l. simpl.
  rewrite Ht, He. reflexivity.
Qed.

Lemma take_name_spec (s n r : string) :
  take_name s = (n, r) ->
  s = n +:+ r /\ all_name_chars n = true /\ starts_with_separator r.
Proof.
  revert n r. induction s as [|c s IH]; simpl; intros n r Heq.
  - injection Heq as <- <-. repeat split.
  - destruct (is_name_char c) eqn:Hc.
    + destruct (take_name s) as [n' r'].
      destruct (IH n' r' eq_refl) as (-> & Hn & Hr).
      injection Heq as <- <-. rewrite app_cons. simpl. rewrite Hc, Hn. auto.
    + injection Heq as <- <-. rewrite app_nil_l. simpl. auto.
Qed.

Lemma is_name_intro (n : string) :
  is_empty n = false -> all_name_chars n = true -> is_name n.
Proof. intros He Hn. split; [now destruct n | exact Hn]. Qed.

Lemma parse_target_sound (text p : string) (b : option string) (rest : string)
    (id : ContextIdentifier) :
  parse_target text p b rest = Parsed id ->
  exists t, is_optional_name t /\ rest = format_axis "+" t /\
            id = mkContextIdentifier p b t.
Proof.
  unfold parse_target. destruct rest as [|c r].
  - intros Heq; injection Heq as <-. exists None. repeat split.
  - destruct (Ascii.eqb_spec c "+") as [->|]; [|discriminate].
    destruct (take_name r) as [t r'] eqn:Ht.
    destruct (take_name_spec _ _ _ Ht) as (-> & Hc & _).
    destruct (is_empty t) eqn:He; [discriminate|].
    destruct r'; [|discriminate]. simpl.
    intros Heq; injection Heq as <-. exists (Some t).
    split; [now apply is_name_intro|]. split; [|reflexivity].
    simpl. now rewrite append_empty_r.
Qed.

(** The parser accepts the texts of the grammar only, and what it returns
    is the identifier the text spells. *)
Lemma parse_sound (s : string) (id : ContextIdentifier) :
  parse s = Parsed id -> well_formed s /\ format id = s.
Proof.
  unfold parse. destruct (take_name s) as [p r1] eqn:Hp.
  destruct (take_name_spec _ _ _ Hp) as (-> & Hpc & _).
  destruct (is_empty p) eqn:Hep; [discriminate|].
  pose proof (is_name_intro p Hep Hpc) as Hname.
  destruct r1 as [|c r2].
  - intros Heq; injection Heq as <-.
    split; [|reflexivity]. exists p, None, None. repeat split; apply Hname.
  - destruct (Ascii.eqb_spec c ".") as [->|Hc].
    + destruct (take_name r2) as [b r3] eqn:Hb.
      destruct (take_name_spec _ _ _ Hb) as (-> & Hbc & _).
      destruct (is_empty b) eqn:Heb; [discriminate|].
      intros (t & Ht & -> & ->)%parse_target_sound.
      split; [|reflexivity]. exists p, (Some b), t.
      repeat split; try apply Hname; try assumption; now apply is_name_intro.
    + intros (t & Ht & Hrest & ->)%parse_target_sound.
      rewrite Hrest. split; [|reflexivity]. exists p, None, t.
      repeat split; try apply Hname; assumption.
Qed.

Example parse_full :
  parse "App.Debug+BoardA" = Parsed (mkContextIdentifier "App" (Some "Debug") (Some "BoardA")).
Proof. reflexivity. Qed.

Example parse_project_target :
  parse "App+BoardA" = Parsed (mkContextIdentifier "App" None (Some "BoardA")).
Proof. reflexivity. Qed.

Example parse_rejects :
  Forall (fun s => parse s = ParseError s)
         [""; ".Debug"; "App."; "App..Debug"; "App+"; "App+BoardA.Debug"; "App Debug"].
Proof. repeat constructor. Qed.

Example matches_scenario :
  List.filter (fun c => match parse "App.Debug", parse c with
                        | Parsed p, Parsed id => matches p id
                        | _, _ => false
                        end)
    ["App.Debug+BoardA"; "App.Debug+BoardB"; "App.Release+BoardA"; "App.Release+BoardB"]
  = ["App.Debug+BoardA"; "App.Debug+BoardB"].
Proof. reflexivity. Qed.

(** C8. For every well-formed identifier text [s] (grammar
    [name[.name][+name]]), parsing succeeds and formatting the parsed
    identifier gives back [s]: [format (parse s) = s]. *)
Theorem format_parse_roundtrip (s : string) :
  well_formed s ->
  exists id, parse s = Parsed id /\ format id = s.
Proof.
  intros (p & b & t & Hp & Hb & Ht & ->).
  exists (mkContextIdentifier p b t). split; [|reflexivity].
  unfold parse. pose proof (is_empty_name _ Hp) as Hep. destruct Hp as [_ Hpc].
  pose proof (format_axis_separator "+" t eq_refl) as Hplus.
  destruct b as [b|].
  - rewrite (take_name_app p _ Hpc) by reflexivity.
    rewrite Hep. simpl format_axis at 1. rewrite !app_cons, app_nil_l. simpl.
    pose proof (is_empty_name _ Hb) as Heb. destruct Hb as [_ Hbc].
    rewrite (take_name_app b _ Hbc Hplus), Heb.
    now apply parse_target_ok.
  - simpl format_axis at 1. rewrite app_nil_l.
    rewrite (take_name_app p _ Hpc Hplus), Hep.
    destruct t as [t|]; [|reflexivity].
    simpl format_axis. rewrite app_cons, app_nil_l. simpl.
    pose proof (parse_target_ok (p +:+ "+" +:+ t) p None (Some t) Ht) as Hpt.
    simpl format_axis in Hpt. rewrite app_cons, app_nil_l in Hpt.
    simpl in Hpt. exact Hpt.
Qed.

Lemma format_parse_roundtrip_witness :
  well_formed "App.Debug+BoardA" /\
  exists id, parse "App.Debug+BoardA" = Parsed id /\ format id = "App.Debug+BoardA".
Proof.
  assert (H : well_formed "App.Debug+BoardA").
  { exists "App", (Some "Debug"), (Some "BoardA").
    repeat split; simpl; congruence. }
  split; [exact H | exact (format_parse_roundtrip _ H)].
Defined.

(* ===================================================================== *)
(** ** Load policy *)
(* ===================================================================== *)

Section LoadPolicy.

Context {R X : Type} (E : External R X).

Lemma SetLoadPacksPolicy_unknown (pm : ProjMgr R X) :
  ~ known_load_option (m_loadPacksPolicy (opts pm)) ->
  SetLoadPacksPolicy pm =
    (false,
     set_out (out pm ++
       [LogError "" ("unknown load option: '" +:+ m_loadPacksPolicy (opts pm) +:+
                     "', it must be 'latest', 'all' or 'required'")]) pm).
Proof.
  intros Hp. unfold SetLoadPacksPolicy, known_load_option in *. run_pm.
  assert (He : is_empty (m_loadPacksPolicy (opts pm)) = false)
    by (destruct (m_loadPacksPolicy (opts pm)); [tauto | reflexivity]).
  rewrite He.
  repeat match goal with
  | |- context [String.eqb ?a ?b] =>
      destruct (String.eqb_spec a b); [tauto|]
  end.
  reflexivity.
Qed.

Lemma SetLoadPacksPolicy_known (pm : ProjMgr R X) (policy : LoadPacksPolicy) :
  (m_loadPacksPolicy (opts pm), policy) ∈
    [("", DEFAULT); ("latest", LATEST); ("all", ALL); ("required", REQUIRED)] ->
  SetLoadPacksPolicy pm =
    (true, set_worker (w_SetLoadPacksPolicy policy (m_worker pm)) pm).
Proof.
  intros Hin. unfold SetLoadPacksPolicy. run_pm.
  repeat (apply elem_of_cons in Hin as [Hin|Hin];
          [injection Hin as -> ->; reflexivity|]).
  inversion Hin.
Qed.

(** C3. [SetLoadPacksPolicy] maps the load option onto the closed set of
    policies: the empty option gives DEFAULT, "latest", "all" and
    "required" give LATEST, ALL and REQUIRED; for every other string it
    reports an error and returns false, and then the run ([RunProjMgr])
    ends with the error code having processed no context: the error
    message is the only event and no context was created or processed. *)
Theorem SetLoadPacksPolicy_exhaustive :
  (forall (pm : ProjMgr R X),
     let p := m_loadPacksPolicy (opts pm) in
     let sets policy :=
       SetLoadPacksPolicy pm =
         (true, set_worker (w_SetLoadPacksPolicy policy (m_worker pm)) pm) in
     (p = "" -> sets DEFAULT) /\
     (p = "latest" -> sets LATEST) /\
     (p = "all" -> sets ALL) /\
     (p = "required" -> sets REQUIRED) /\
     (~ known_load_option p ->
        exists msg,
          SetLoadPacksPolicy pm = (false, set_out (out pm ++ [LogError "" msg]) pm))) /\
  (forall (o : Options) (toolchain : string) (envp : option (list string)),
     ~ known_load_option (m_loadPacksPolicy o) ->
     exists msg pm',
       RunProjMgr E (FrontEndOptions o toolchain) envp = (ERROR, pm') /\
       out pm' = [LogError "" msg] /\
       m_allContexts pm' = [] /\
       m_processedContexts pm' = [] /\
       w_contexts (m_worker pm') = ∅).
Proof.
  split.
  - intros pm p sets. subst p sets. cbv beta.
    repeat split; intros Hp.
    1-4: apply SetLoadPacksPolicy_known; rewrite Hp; set_solver.
    eexists. now apply SetLoadPacksPolicy_unknown.
  - intros o toolchain envp Hp.
    unfold RunProjMgr, ParseCommandLine. run_pm.
    destruct (is_empty (m_csolutionFile o)); cbn [negb];
      match goal with
      | |- context [SetLoadPacksPolicy ?st] =>
          rewrite (SetLoadPacksPolicy_unknown st) by exact Hp
      end;
      simpl; do 2 eexists; (split; [reflexivity|]); simpl; auto.
Qed.

End LoadPolicy.

(* ===================================================================== *)
(** ** Duplicates through an ordered multiset *)
(* ===================================================================== *)

Lemma ltb_le (x y : string) : String.ltb x y = true -> String.le x y.
Proof.
  unfold String.le, String.ltb, String.leb.
  destruct (String.compare x y); simpl; intros; (discriminate || constructor).
Qed.

Lemma not_ltb_le (x y : string) : String.ltb x y = false -> String.le y x.
Proof.
  unfold String.le, String.ltb, String.leb.
  rewrite (String.compare_antisym y x).
  destruct (String.compare x y); simpl; intros; (discriminate || constructor).
Qed.

Lemma multiset_insert_perm (x : string) (s : list string) :
  multiset_insert x s ≡ₚ x :: s.
Proof.
  induction s as [|y s IH]; simpl; [reflexivity|].
  destruct (String.ltb x y); [reflexivity|].
  rewrite IH. apply Permutation_swap.
Qed.

Lemma multiset_insert_sorted (x : string) (s : list string) :
  StronglySorted String.le s -> StronglySorted String.le (multiset_insert x s).
Proof.
  induction 1 as [|y s Hs IH Hy]; simpl.
  - repeat constructor.
  - destruct (String.ltb x y) eqn:Hxy.
    + constructor; [now constructor|].
      apply ltb_le in Hxy. constructor; [exact Hxy|].
      eapply Forall_impl; [exact Hy|]. intros z Hz. simpl in Hz.
      transitivity y; assumption.
    + constructor; [exact IH|].
      rewrite multiset_insert_perm. constructor; [|exact Hy].
      now apply not_ltb_le.
Qed.

Lemma fold_multiset_insert (l acc : list string) :
  StronglySorted String.le acc ->
  fold_left (fun s x => multiset_insert x s) l acc ≡ₚ l ++ acc /\
  StronglySorted String.le (fold_left (fun s x => multiset_insert x s) l acc).
Proof.
  revert acc. induction l as [|x l IH]; simpl; intros acc Hacc; [easy|].
  destruct (IH (multiset_insert x acc) (multiset_insert_sorted x acc Hacc)) as [Hp Hs].
  split; [|exact Hs].
  rewrite Hp, multiset_insert_perm. now rewrite Permutation_middle.
Qed.

Lemma multiset_of_perm (l : list string) : multiset_of l ≡ₚ l.
Proof.
  destruct (fold_multiset_insert l [] (SSorted_nil _)) as [Hp _].
  unfold multiset_of. now rewrite Hp, app_nil_r.
Qed.

Lemma multiset_of_sorted (l : list string) : StronglySorted String.le (multiset_of l).
Proof. apply (fold_multiset_insert l [] (SSorted_nil _)). Qed.

Lemma adjacent_find_sorted (l : list string) :
  StronglySorted String.le l -> adjacent_find l = None -> NoDup l.
Proof.
  induction 1 as [|a l Hs IH Ha]; intros Hfind; [constructor|].
  simpl in Hfind. destruct l as [|b l]; [repeat constructor; set_solver|].
  destruct (String.eqb_spec a b) as [|Hab]; [discriminate|].
  destruct (adjacent_find (b :: l)) eqn:Hrest; [discriminate|].
  constructor; [|now apply IH].
  intros Hin.
  apply Forall_cons in Ha as [Hle Ha].
  apply StronglySorted_inv in Hs as [_ Hb].
  apply elem_of_cons in Hin as [->|Hin]; [congruence|].
  apply Hab. apply (anti_symm String.le); [exact Hle|].
  rewrite Forall_forall in Hb. exact (Hb a Hin).
Qed.

Lemma adjacent_find_dup (l : list string) :
  is_some (adjacent_find l) = true -> ~ NoDup l.
Proof.
  induction l as [|a l IH]; simpl; [discriminate|].
  destruct l as [|b l]; [discriminate|].
  destruct (String.eqb_spec a b) as [->|Hab].
  - intros _ Hnd. apply NoDup_cons in Hnd as [Hn _]. set_solver.
  - intros Hsome Hnd. apply NoDup_cons in Hnd as [_ Hnd].
    apply IH; [|exact Hnd]. now destruct (adjacent_find (b :: l)).
Qed.

(** The multiset test of [PopulateContexts] finds a pair exactly when the
    sequence has a repeated element. *)
Lemma adjacent_find_multiset (l : list string) :
  is_some (adjacent_find (multiset_of l)) = true <-> ~ NoDup l.
Proof.
  split.
  - intros H Hnd. apply (adjacent_find_dup _ H). now rewrite multiset_of_perm.
  - intros Hnd. destruct (adjacent_find (multiset_of l)) eqn:Hf; [reflexivity|].
    exfalso. apply Hnd. rewrite <- multiset_of_perm.
    apply adjacent_find_sorted; [apply multiset_of_sorted | exact Hf].
Qed.

(* ===================================================================== *)
(** ** Checks on the cproject files *)
(* ===================================================================== *)

Section CprojectChecks.

Context {R X : Type} (E : External R X).

Lemma ParseCdefaultIfEnabled_frame (cs : CsolutionItem) (pm pm' : ProjMgr R X) (b : bool) :
  ParseCdefaultIfEnabled E cs pm = (b, pm') ->
  opts pm' = opts pm /\ m_worker pm' = m_worker pm /\ m_parser pm' = m_parser pm /\
  exists evs, out pm' = out pm ++ evs /\
              forall d f, EvAddContexts d f ∉ evs.
Proof.
  unfold ParseCdefaultIfEnabled, GetCdefaultFile. run_pm.
  destruct (enableCdefault cs).
  2:{ intros Heq; injection Heq as _ <-. repeat split. exists []. rewrite app_nil_r. set_solver. }
  destruct (FindFileRegEx E _ _) as [found file].
  destruct found; cbn [negb].
  - intros Heq; injection Heq as _ <-. repeat split. exists []. simpl. rewrite app_nil_r. set_solver.
  - destruct (is_empty file); cbn [negb]; intros Heq; injection Heq as _ <-; repeat split.
    + exists []. rewrite app_nil_r. set_solver.
    + eexists. split; [reflexivity|].
      intros d f Hin%list_elem_of_singleton. discriminate.
Qed.

(** C9. With more than one cproject in the solution, two cproject files
    of the same file name make [PopulateContexts] fail with an error
    before any context is created (no call to [AddContexts], the worker
    untouched); two cproject files in the same folder, the names being
    distinct, only add a warning, after which [PopulateContexts] goes on
    with parsing the cprojects and adding the contexts, exactly as it
    does when the folders are distinct too. *)
Theorem PopulateContexts_cproject_checks (pm pmc : ProjMgr R X) (cs : CsolutionItem) :
  is_empty (m_csolutionFile (opts pm)) = false ->
  ParseCsolution E (m_csolutionFile (opts pm)) (m_checkSchema (opts pm))
                 (m_frozenPacks (opts pm)) = Some cs ->
  ParseCdefaultIfEnabled E cs (set_parser (mkParser cs) pm) = (true, pmc) ->
  (1 < length (cprojects cs))%nat ->
  let file := m_csolutionFile (opts pm) in
  let names := map (filename E) (cprojects cs) in
  let dirs := map (parent_path E) (cprojects cs) in
  (~ NoDup names ->
     exists pm' evs,
       PopulateContexts E pm = (false, pm') /\
       out pm' = out pm ++ evs /\
       last evs = Some (LogError file "cproject.yml filenames must be unique") /\
       (forall d f, EvAddContexts d f ∉ evs) /\
       m_worker pm' = m_worker pm) /\
  (NoDup names -> ~ NoDup dirs ->
     PopulateContexts E pm =
       PopulateAfterCheck E cs
         (set_out (out pmc ++
            [LogWarn file "cproject.yml files should be placed in separate sub-directories"])
            pmc)) /\
  (NoDup names -> NoDup dirs ->
     PopulateContexts E pm = PopulateAfterCheck E cs pmc).
Proof.
  intros Hfile Hcs Hcdef Hlen file names dirs.
  destruct (ParseCdefaultIfEnabled_frame _ _ _ _ Hcdef)
    as (Hopts & Hw & _ & evs0 & Hout & Hno).
  simpl in Hopts, Hw, Hout.
  assert (Hlt : Nat.ltb 1 (length (cprojects cs)) = true) by now apply Nat.ltb_lt.
  assert (Hstart :
            PopulateContexts E pm =
            (let (checked, pm1) := CheckCprojects E (cprojects cs) pmc in
             if negb checked then (false, pm1) else PopulateAfterCheck E cs pm1)).
  { unfold PopulateContexts. run_pm. rewrite Hfile. cbn [negb].
    rewrite Hcs, Hcdef. cbn [negb].
    destruct (CheckCprojects E (cprojects cs) pmc) as [[] ?]; reflexivity. }
  rewrite Hstart. clear Hstart.
  unfold CheckCprojects. rewrite Hlt. run_pm.
  fold names dirs.
  repeat split.
  - intros Hdup. apply adjacent_find_multiset in Hdup. rewrite Hdup. cbn [negb].
    rewrite Hopts. fold file.
    do 2 eexists. split; [reflexivity|]. simpl.
    split; [rewrite Hout, <- app_assoc; reflexivity|].
    split; [apply last_snoc|]. split; [|exact Hw].
    intros d f [Hin|Hin]%elem_of_app; [exact (Hno _ _ Hin)|].
    apply list_elem_of_singleton in Hin. discriminate.
  - intros Hnames Hdirs.
    destruct (is_some (adjacent_find (multiset_of names))) eqn:Hn.
    { apply adjacent_find_multiset in Hn. contradiction. }
    apply adjacent_find_multiset in Hdirs. rewrite Hdirs. cbn [negb].
    rewrite Hopts. reflexivity.
  - intros Hnames Hdirs.
    destruct (is_some (adjacent_find (multiset_of names))) eqn:Hn.
    { apply adjacent_find_multiset in Hn. contradiction. }
    destruct (is_some (adjacent_find (multiset_of dirs))) eqn:Hd.
    { apply adjacent_find_multiset in Hd. contradiction. }
    reflexivity.
Qed.

End CprojectChecks.

(* ===================================================================== *)
(** ** The loop over the ordered contexts *)
(* ===================================================================== *)

Section ResolutionRun.

Context {R X : Type} (E : External R X).

Lemma worker_frame_refl (w : ProjMgrWorker R X) : worker_frame w w.
Proof. repeat split. Qed.

Lemma driver_frame_refl (pm : ProjMgr R X) : driver_frame pm pm.
Proof. repeat split. Qed.

Lemma driver_frame_trans (pm1 pm2 pm3 : ProjMgr R X) :
  driver_frame pm1 pm2 -> driver_frame pm2 pm3 -> driver_frame pm1 pm3.
Proof.
  intros (?&?&?&?&?&?&?&?) (?&?&?&?&?&?&?&?).
  repeat split; congruence.
Qed.

Lemma frame_selected (pm pm' : ProjMgr R X) :
  driver_frame pm pm' ->
  IsContextSelected (m_worker pm') = IsContextSelected (m_worker pm).
Proof.
  intros (_&_&_&_&_&Hsel&_). unfold IsContextSelected. now rewrite Hsel.
Qed.

Lemma processing_app (evs1 evs2 : list (Event R)) :
  processing (evs1 ++ evs2) = processing evs1 ++ processing evs2.
Proof. apply omap_app. Qed.

Lemma last_processed_app (k : string) (evs1 evs2 : list (Event R)) :
  last_processed k (evs1 ++ evs2) =
  match last_processed k evs2 with
  | Some it => Some it
  | None => last_processed k evs1
  end.
Proof. unfold last_processed. rewrite omap_app. apply last_app. Qed.

Lemma failures_app (rs1 rs2 : list (string * ContextItem R * bool)) :
  failures (rs1 ++ rs2) = failures rs1 ++ failures rs2.
Proof. apply List.filter_app. Qed.

Lemma loop_facts_nil (err : bool) (pm : ProjMgr R X) : loop_facts E [] err pm err pm [].
Proof.
  split; simpl; rewrite ?app_nil_r; try reflexivity.
  - now rewrite (right_id_L ∅ (∪)).
  - now rewrite orb_false_r.
  - apply driver_frame_refl.
Qed.

Lemma loop_facts_app l1 l2 e0 e1 e2 (pm0 pm1 pm2 : ProjMgr R X) evs1 evs2 :
  loop_facts E l1 e0 pm0 e1 pm1 evs1 ->
  loop_facts E l2 e1 pm1 e2 pm2 evs2 ->
  loop_facts E (l1 ++ l2) e0 pm0 e2 pm2 (evs1 ++ evs2).
Proof.
  intros [] []. pose proof (frame_selected _ _ lf_frame0) as Hsel.
  split.
  - rewrite lf_out1, lf_out0. now rewrite <- app_assoc.
  - rewrite lf_all1, lf_all0. now rewrite <- app_assoc.
  - rewrite lf_processed1, lf_processed0, Hsel, List.filter_app.
    now rewrite <- app_assoc.
  - rewrite processing_app, map_app, lf_calls0, lf_calls1, Hsel, List.filter_app.
    reflexivity.
  - rewrite lf_failed1, lf_failed0, processing_app, failures_app, map_app,
      list_to_set_app_L. now rewrite (assoc_L (∪)).
  - rewrite lf_error1, lf_error0, processing_app, forallb_app.
    destruct e0, (forallb processed_ok (processing evs1)),
      (forallb processed_ok (processing evs2)); reflexivity.
  - intros k. rewrite lf_deref1, lf_deref0, last_processed_app.
    now destruct (last_processed k evs2).
  - eapply driver_frame_trans; eassumption.
  - rewrite forallb_app, lf_events0, lf_events1. reflexivity.
Qed.

Lemma deref_store (k k' : string) (it : ContextItem R) (w : ProjMgrWorker R X) :
  deref E (store k it w) k' = if String.eqb k k' then it else deref E w k'.
Proof.
  unfold deref, store. simpl.
  destruct (String.eqb_spec k k') as [->|Hne].
  - now rewrite lookup_insert_eq.
  - now rewrite lookup_insert_ne.
Qed.

Lemma contexts_at_spec (k : string) (w : ProjMgrWorker R X) :
  (contexts_at E k w).1 = deref E w k /\
  (forall k', deref E (contexts_at E k w).2 k' = deref E w k') /\
  worker_frame w (contexts_at E k w).2 /\
  w_selectedContexts (contexts_at E k w).2 = w_selectedContexts w.
Proof.
  unfold contexts_at, deref.
  destruct (w_contexts w !! k) eqn:Hk; simpl.
  - repeat split.
  - repeat split. intros k'.
    destruct (String.eqb_spec k k') as [<-|Hne].
    + now rewrite lookup_insert_eq, Hk.
    + now rewrite lookup_insert_ne.
Qed.

Lemma ConfigureStep_facts (k : string) (err err' : bool) (pm pm' : ProjMgr R X) :
  ConfigureStep E k err pm = (err', pm') ->
  exists evs, loop_facts E [k] err pm err' pm' evs.
Proof.
  unfold ConfigureStep. run_pm.
  destruct (contexts_at_spec k (m_worker pm)) as (Hitem & Hderef & Hframe & Hsel).
  destruct (contexts_at E k (m_worker pm)) as [item w]. simpl in *.
  assert (HS : IsContextSelected w k = IsContextSelected (m_worker pm) k)
    by (unfold IsContextSelected; now rewrite Hsel).
  rewrite HS.
  destruct (IsContextSelected (m_worker pm) k) eqn:Hk; cbn [negb].
  2:{ intros Heq; injection Heq as <- <-. exists [].
      split; simpl; rewrite ?Hk, ?app_nil_r; try reflexivity.
      - now rewrite (right_id_L ∅ (∪)).
      - now rewrite orb_false_r.
      - exact Hderef.
      - repeat split; apply Hframe. }
  destruct (ProcessContext E w item true true false) as [[ok item'] x].
  destruct ok; cbn [negb]; intros Heq; injection Heq as <- <-.
  - exists [EvProcessContext k item' true].
    split; simpl; rewrite ?Hk, ?app_nil_r; try reflexivity.
    + now rewrite (right_id_L ∅ (∪)).
    + now rewrite orb_false_r.
    + intros k'. unfold last_processed. simpl.
      change (deref E (set_w_internal x (store k item' w)) k')
        with (deref E (store k item' w) k').
      rewrite deref_store. destruct (String.eqb k k'); [reflexivity | apply Hderef].
    + repeat split; apply Hframe.
  - exists [EvProcessContext k item' false;
            LogError "" ("processing context '" +:+ k +:+ "' failed")].
    split; simpl; rewrite ?Hk, ?app_nil_r; try reflexivity.
    + now rewrite <- app_assoc.
    + unfold failures. simpl. now rewrite (right_id_L ∅ (∪)), (comm_L (∪)).
    + now rewrite orb_true_r.
    + intros k'. unfold last_processed. simpl.
      change (deref E (set_w_internal x (store k item' w)) k')
        with (deref E (store k item' w) k').
      rewrite deref_store. destruct (String.eqb k k'); [reflexivity | apply Hderef].
    + repeat split; apply Hframe.
Qed.

Lemma ConfigureLoop_facts (l : list string) (err err' : bool) (pm pm' : ProjMgr R X) :
  ConfigureLoop E l err pm = (err', pm') ->
  exists evs, loop_facts E l err pm err' pm' evs.
Proof.
  revert err pm. induction l as [|k l IH]; intros err pm; simpl.
  - intros Heq; injection Heq as <- <-. exists []. apply loop_facts_nil.
  - unfold bind at 1.
    destruct (ConfigureStep E k err pm) as [err1 pm1] eqn:Hstep.
    intros Hloop.
    destruct (ConfigureStep_facts _ _ _ _ _ Hstep) as [evs1 H1].
    destruct (IH _ _ Hloop) as [evs2 H2].
    exists (evs1 ++ evs2). exact (loop_facts_app [k] l _ _ _ _ _ _ _ _ H1 H2).
Qed.

Lemma processing_quiet (evs : list (Event R)) :
  forallb (fun e => negb (is_processing_event e) || is_info e) evs = true ->
  processing evs = [] /\ forall k, last_processed k evs = None.
Proof.
  unfold last_processed.
  induction evs as [|e evs IH]; simpl; [easy|].
  intros [He Hevs]%andb_prop. destruct (IH Hevs) as [IH1 IH2].
  destruct e; simpl in *; try discriminate; auto.
Qed.

Lemma diagnostics_quiet (l : list string) (info : list (Event R)) :
  forallb is_info info = true ->
  forallb (fun e : Event R => negb (is_processing_event e) || is_info e)
          (map DiagMissingFilter l ++ info) = true.
Proof.
  intros Hinfo. rewrite forallb_app. apply andb_true_intro. split.
  - induction l; simpl; auto.
  - induction info as [|e info IH]; simpl in *; [reflexivity|].
    apply andb_prop in Hinfo as [He Hinfo]. rewrite (IH Hinfo), andb_true_r.
    now destruct e.
Qed.

Lemma ProcessSelectedContexts_facts (pm pm' : ProjMgr R X) (res : bool) :
  ProcessSelectedContexts E pm = (res, pm') ->
  exists evs, run_facts E pm res pm' evs.
Proof.
  unfold ProcessSelectedContexts. run_pm.
  destruct (ConfigureLoop E _ false _) as [err pm1] eqn:Hloop.
  destruct (ConfigureLoop_facts _ _ _ _ _ Hloop) as [evs []].
  simpl in *.
  destruct lf_frame0 as (Hopts & Hparser & _ & _ & Hframe). simpl in *.
  set (info := if m_verbose (opts pm1) then
                 if negb (is_nil (ListConfigFiles E (m_worker pm1)))
                 then [LogInfo "" (configFilesInfo (ListConfigFiles E (m_worker pm1)))]
                 else []
               else [] : list (Event R)).
  assert (Hinfo : forallb is_info info = true).
  { subst info. destruct (m_verbose _); [|reflexivity].
    destruct (is_nil (ListConfigFiles E (m_worker pm1))); reflexivity. }
  assert (Hmissing : PrintMissingFilters (m_worker pm1) = PrintMissingFilters (m_worker pm)).
  { unfold PrintMissingFilters. destruct Hframe as (_&_&->&_). reflexivity. }
  intros Hres.
  assert (Hfinal : res = negb err /\
            pm' = set_out (out pm ++ evs ++ PrintMissingFilters (m_worker pm) ++ info)
                    (set_selectedToolchain (GetSelectedToochain E (m_worker pm1)) pm1)).
  { subst info. rewrite <- Hmissing.
    destruct (m_verbose (opts pm1)).
    - destruct (negb (is_nil (ListConfigFiles E (m_worker pm1))));
        injection Hres as <- <-; simpl; rewrite lf_out0, <- ?app_assoc, ?app_nil_r;
        split; reflexivity.
    - injection Hres as <- <-; simpl; rewrite lf_out0, <- ?app_assoc, ?app_nil_r;
        split; reflexivity. }
  clear Hres. destruct Hfinal as [-> ->].
  pose proof (diagnostics_quiet (w_missingFilters (m_worker pm)) info Hinfo) as Hq.
  apply processing_quiet in Hq as [Hq1 Hq2].
  fold (PrintMissingFilters (m_worker pm)) in Hq1, Hq2.
  exists (evs ++ PrintMissingFilters (m_worker pm) ++ info).
  split; simpl; rewrite ?(processing_app evs), ?Hq1, ?app_nil_r;
    try assumption; try reflexivity.
  - exists evs, info. auto.
  - rewrite lf_failed0. now rewrite (left_id_L ∅ (∪)).
  - rewrite lf_error0. simpl. now rewrite negb_involutive.
  - intros k. rewrite last_processed_app, Hq2. apply lf_deref0.
Qed.

Lemma Configure_reaches_processing (pm pm1 pm2 : ProjMgr R X) :
  reaches_processing E pm pm1 pm2 ->
  Configure E pm = ProcessSelectedContexts E pm2.
Proof.
  intros [Hpop Hsel]. unfold Configure. run_pm.
  rewrite Hpop. cbn [negb]. rewrite Hsel. reflexivity.
Qed.

Lemma Configure_facts (pm pm1 pm2 : ProjMgr R X) :
  reaches_processing E pm pm1 pm2 ->
  exists res pm' evs, Configure E pm = (res, pm') /\ run_facts E pm2 res pm' evs.
Proof.
  intros Hreach. rewrite (Configure_reaches_processing _ _ _ Hreach).
  destruct (ProcessSelectedContexts E pm2) as [res pm'] eqn:Hrun.
  destruct (ProcessSelectedContexts_facts _ _ _ Hrun) as [evs Hfacts].
  now exists res, pm', evs.
Qed.

Lemma elem_of_failures (r : string * ContextItem R * bool)
    (rs : list (string * ContextItem R * bool)) :
  r ∈ failures rs <-> r ∈ rs /\ processed_ok r = false.
Proof.
  unfold failures. rewrite !list_elem_of_In, List.filter_In.
  now rewrite negb_true_iff.
Qed.

End ResolutionRun.

(* ===================================================================== *)
(** ** Context selection *)
(* ===================================================================== *)

Section Selection.

Context {R X : Type} (E : External R X).

Lemma NoDup_filter_bool {A} (f : A -> bool) (l : list A) :
  NoDup l -> NoDup (List.filter f l).
Proof.
  induction 1 as [|a l Ha Hl IH]; simpl; [constructor|].
  destruct (f a); [|exact IH]. constructor; [|exact IH].
  rewrite list_elem_of_In, List.filter_In, <- list_elem_of_In. tauto.
Qed.

Lemma filter_sublist {A} (f : A -> bool) (l : list A) : List.filter f l `sublist_of` l.
Proof.
  induction l as [|a l IH]; simpl; [constructor|].
  destruct (f a); now constructor.
Qed.

Lemma filter_selected (f : string -> bool) (l : list string) :
  List.filter (fun k => bool_decide (k ∈ List.filter f l)) l = List.filter f l.
Proof.
  apply List.filter_ext_in. intros k Hk.
  destruct (f k) eqn:Hf.
  - apply bool_decide_eq_true. rewrite list_elem_of_In, List.filter_In. tauto.
  - apply bool_decide_eq_false. rewrite list_elem_of_In, List.filter_In.
    intros [_ H]. congruence.
Qed.

Lemma filter_all_selected (l : list string) :
  List.filter (fun k => bool_decide (k ∈ l)) l = l.
Proof.
  assert (H : List.filter (fun _ : string => true) l = l)
    by (induction l; simpl; congruence).
  pose proof (filter_selected (fun _ => true) l) as Hsel.
  now rewrite H in Hsel.
Qed.

Lemma matches_any_perm (pats pats' : list string) (k : string) :
  pats ≡ₚ pats' -> matches_any pats k = matches_any pats' k.
Proof.
  intros Hp. unfold matches_any. apply eq_true_iff_eq.
  rewrite !existsb_exists. split; intros (p & Hin & Hm); exists p; split; auto;
    apply list_elem_of_In; [rewrite <- Hp | rewrite Hp]; now apply list_elem_of_In.
Qed.



(** The selection when the context set is asked for without patterns and
    its file is absent. *)
Lemma select_without_context_set (pm1 : ProjMgr R X) :
  m_context (opts pm1) = [] ->
  m_contextSet (opts pm1) = true ->
  Exists E (cbuildSetFileOf (m_parser pm1)) = false ->
  callParseContextSelection E (m_context (opts pm1)) (checkCbuildSet (opts pm1)) pm1 =
    (true,
     set_out (out pm1 ++
                [LogWarn "" ("unable to locate " +:+ cbuildSetFileOf (m_parser pm1)
                             +:+ " file.")])
       (set_worker
          (set_w_selection (w_ymlOrderedContexts (m_worker pm1)) [] (m_worker pm1)) pm1)).
Proof.
  intros Hpats Hset Hfile.
  unfold callParseContextSelection, ParseContextSelection, checkCbuildSet. run_pm.
  rewrite Hpats, Hset, Hfile. reflexivity.
Qed.


Lemma forallb_weaken {A} (f g : A -> bool) (l : list A) :
  (forall a, f a = true -> g a = true) ->
  forallb f l = true -> forallb g l = true.
Proof.
  intros Hfg. rewrite !forallb_forall. auto.
Qed.


Lemma selection_frame (pats : list string) (b ok : bool) (pm1 pm2 : ProjMgr R X) :
  callParseContextSelection E pats b pm1 = (ok, pm2) ->
  w_ymlOrderedContexts (m_worker pm2) = w_ymlOrderedContexts (m_worker pm1) /\
  (pats <> [] -> ok = true ->
   w_selectedContexts (m_worker pm2) =
   List.filter (matches_any pats) (w_ymlOrderedContexts (m_worker pm1))).
Proof.
  unfold callParseContextSelection, ParseContextSelection. run_pm.
  destruct pats as [|p pats].
  - destruct b; [destruct (Exists E _)|]; intros Heq; injection Heq as _ <-;
      (split; [reflexivity | congruence]).
  - destruct (selection_aborts (p :: pats) _); intros Heq; injection Heq as <- <-;
      (split; [reflexivity|]); intros _ Hok; [discriminate | reflexivity].
Qed.

(** C4. The contexts [Configure] processes are the selected ones in the
    order of the worker's ordered context list, of which they form a
    sub-sequence; when patterns are given they are the contexts matching
    at least one pattern, in that same order, however the patterns are
    ordered.  In yml-order mode [RunListContexts] prints the contexts
    (those the filter keeps) in the order of the worker's yml-ordered
    list, whatever the derived order is. *)
Theorem contexts_in_declaration_order :
  (forall (pm pm1 pm2 : ProjMgr R X),
     reaches_processing E pm pm1 pm2 ->
     exists res pm' evs,
       Configure E pm = (res, pm') /\
       out pm' = out pm2 ++ evs /\
       map processed_key (processing evs) = m_processedContexts pm' /\
       m_processedContexts pm' `sublist_of` GetYmlOrderedContexts (m_worker pm1) /\
       (m_context (opts pm1) <> [] ->
          forall pats', pats' ≡ₚ m_context (opts pm1) ->
            m_processedContexts pm' =
            List.filter (matches_any pats') (GetYmlOrderedContexts (m_worker pm1)))) /\
  (forall (pm pm1 : ProjMgr R X),
     PopulateContexts E pm = (true, pm1) ->
     m_ymlOrder (opts pm1) = true ->
     let ordered := GetYmlOrderedContexts (m_worker pm1) in
     let shown := if is_empty (m_filter (opts pm1)) then ordered
                  else List.filter (filterAccepts E (m_filter (opts pm1))) ordered in
     listingFails E (m_filter (opts pm1)) shown = false ->
     RunListContexts E pm = (true, set_out (out pm1 ++ map Cout shown) pm1) /\
     shown `sublist_of` ordered).
Proof.
  split.
  - intros pm pm1 pm2 Hreach.
    destruct (Configure_facts E _ _ _ Hreach) as (res & pm' & evs & Hrun & []).
    destruct Hreach as [_ Hsel].
    destruct (selection_frame _ _ _ _ _ Hsel) as [Hyml Hpats].
    unfold GetYmlOrderedContexts in *. rewrite Hyml in *.
    exists res, pm', evs.
    split; [exact Hrun|]. split; [exact rf_out0|].
    split; [now rewrite rf_calls0, rf_processed0|].
    split; [rewrite rf_processed0; apply filter_sublist|].
    intros Hne pats' Hperm. rewrite rf_processed0.
    unfold IsContextSelected. rewrite (Hpats Hne eq_refl), filter_selected.
    apply List.filter_ext. intros k. symmetry. now apply matches_any_perm.
  - intros pm pm1 Hpop Horder ordered shown Hlist.
    subst ordered shown. unfold GetYmlOrderedContexts in *.
    split.
    + unfold RunListContexts, ListContexts. run_pm. rewrite Hpop. cbn [negb].
      rewrite Horder. cbv iota. rewrite Hlist. reflexivity.
    + destruct (is_empty _); [reflexivity | apply filter_sublist].
Qed.

End Selection.

(* ===================================================================== *)
(** ** Listing the layers *)
(* ===================================================================== *)

Section Layers.

Context {R X : Type} (E : External R X).

Lemma CollectAllContexts_facts (l : list string) (pm : ProjMgr R X) :
  exists w,
    CollectAllContexts E l pm =
      (tt, set_allContexts (m_allContexts pm ++ l) (set_worker w pm)) /\
    forall k, deref E w k = deref E (m_worker pm) k.
Proof.
  revert pm. induction l as [|c l IH]; intros pm; simpl.
  - exists (m_worker pm). rewrite app_nil_r. split; [now destruct pm | reflexivity].
  - run_pm. fold (CollectAllContexts E l).
    destruct (contexts_at_spec E c (m_worker pm)) as (_ & Hderef & _).
    destruct (contexts_at E c (m_worker pm)) as [item w]. simpl in *.
    destruct (IH (set_allContexts (m_allContexts pm ++ [c]) (set_worker w pm)))
      as (w' & -> & Hw').
    exists w'. simpl. rewrite <- app_assoc. split; [reflexivity|].
    intros k. now rewrite Hw', Hderef.
Qed.

(** C5 (as amended). Once [RunListLayers] has computed the layers: with
    the update-index mode off, every layer is printed, in order, and the
    build index is not touched; with the mode on, nothing is printed, and
    the build index is rewritten from the full ordered context list
    provided that list is not empty.  With the mode on and no context at
    all, nothing is printed and nothing is persisted. *)
Theorem RunListLayers_effects (pm pm1 pm2 : ProjMgr R X) (layers : list string)
    (w : ProjMgrWorker R X) :
  (if negb (is_empty (m_csolutionFile (opts pm))) then PopulateContexts E pm
   else (true, pm)) = (true, pm1) ->
  callParseContextSelection E (m_context (opts pm)) false pm1 = (true, pm2) ->
  ListLayers E (m_clayerSearchPath (opts pm2)) (m_worker pm2) = (true, layers, w) ->
  exists res pm' evs,
    RunListLayers E pm = (res, pm') /\
    out pm' = out pm2 ++ evs /\
    (m_updateIdx (opts pm2) = false ->
       res = true /\ evs = map Cout layers) /\
    (m_updateIdx (opts pm2) = true ->
       let all := m_allContexts pm2 ++ GetYmlOrderedContexts w in
       (all <> [] ->
          m_allContexts pm' = all /\
          evs = [EvGenerateCbuildIndex (map (deref E (m_worker pm')) all)
                                       (m_outputDir (opts pm2))] /\
          res = GenerateCbuildIndex E (m_parser pm2) (map (deref E (m_worker pm')) all)
                                    (m_outputDir (opts pm2))) /\
       (all = [] -> evs = [] /\ res = true)).
Proof.
  intros Hpop Hsel Hlayers.
  unfold RunListLayers. run_pm.
  assert (Hpop' : (if negb (is_empty (m_csolutionFile (opts pm)))
                   then PopulateContexts E
                   else fun pm0 : ProjMgr R X => (true, pm0)) pm = (true, pm1)).
  { destruct (negb (is_empty (m_csolutionFile (opts pm)))); exact Hpop. }
  rewrite Hpop'. cbn [negb]. rewrite Hsel. cbn [negb]. rewrite Hlayers. cbn [negb].
  destruct (m_updateIdx (opts pm2)) eqn:Hidx; cbn [negb].
  - destruct (CollectAllContexts_facts (GetYmlOrderedContexts (m_worker (set_worker w pm2)))
                (set_worker w pm2)) as (w' & Hcollect & Hw').
    rewrite Hcollect. simpl.
    destruct (m_allContexts pm2 ++ GetYmlOrderedContexts w) as [|c all] eqn:Hall;
      cbn [negb is_nil].
    + do 3 eexists. split; [reflexivity|]. simpl.
      split; [symmetry; apply app_nil_r|].
      split; [discriminate|]. intros _. split; [congruence | auto].
    + destruct (GenerateCbuildIndex E (m_parser pm2) _ (m_outputDir (opts pm2))) eqn:Hgen;
        cbn [negb]; do 3 eexists; (split; [reflexivity|]); simpl;
        (split; [reflexivity|]); (split; [discriminate|]); intros _;
        (split; [|congruence]); intros _; repeat split; auto.
  - do 3 eexists. split; [reflexivity|]. simpl.
    split; [reflexivity|]. split; [auto | discriminate].
Qed.

End Layers.

(* ===================================================================== *)
(** ** Conversion *)
(* ===================================================================== *)

Section Conversion.

Context {R X : Type} (E : External R X).

Lemma no_calls_app (evs1 evs2 : list (Event R)) :
  no_calls evs1 -> no_calls evs2 -> no_calls (evs1 ++ evs2).
Proof.
  unfold no_calls, processing, cbuild_calls, cprj_calls.
  intros (H1 & H2 & H3) (H4 & H5 & H6).
  rewrite !omap_app, H1, H2, H3, H4, H5, H6. auto.
Qed.

Lemma no_calls_nil : no_calls (R:=R) [].
Proof. repeat split. Qed.

Lemma cbuild_calls_app (evs1 evs2 : list (Event R)) :
  cbuild_calls (evs1 ++ evs2) = cbuild_calls evs1 ++ cbuild_calls evs2.
Proof. apply omap_app. Qed.

Lemma cprj_calls_app (evs1 evs2 : list (Event R)) :
  cprj_calls (evs1 ++ evs2) = cprj_calls evs1 ++ cprj_calls evs2.
Proof. apply omap_app. Qed.

Lemma rte_facts_refl (pm : ProjMgr R X) : rte_facts E pm pm [].
Proof. split; try reflexivity. - now rewrite app_nil_r. - apply no_calls_nil. Qed.

Lemma rte_facts_trans (pm1 pm2 pm3 : ProjMgr R X) evs1 evs2 :
  rte_facts E pm1 pm2 evs1 -> rte_facts E pm2 pm3 evs2 -> rte_facts E pm1 pm3 (evs1 ++ evs2).
Proof.
  intros [] []. split; try congruence.
  - rewrite uf_out1, uf_out0. now rewrite <- app_assoc.
  - now apply no_calls_app.
  - now rewrite forallb_app, uf_events0, uf_events1.
Qed.

Lemma updateRteLoop_facts (l : list string) (pm : ProjMgr R X) :
  exists evs, rte_facts E pm (updateRteLoop E l pm).2 evs.
Proof.
  revert pm. induction l as [|ptr l IH]; intros pm; simpl.
  - exists []. apply rte_facts_refl.
  - run_pm. fold (updateRteLoop E l).
    destruct (rteActiveProject (deref E (m_worker pm) ptr)) as [project|] eqn:Hrte.
    + cbv beta iota.
      match goal with |- context [updateRteLoop E l ?st] => set (pm1 := st) end.
      destruct (IH pm1) as [evs Hevs].
      destruct (updateRteLoop E l pm1) as [[] pm2]. simpl in *.
      exists ([EvUpdateRte (name (deref E (m_worker pm) ptr))] ++ evs).
      eapply rte_facts_trans; [|exact Hevs].
      subst pm1. split; simpl; try reflexivity.
      * repeat split.
      * intros k. rewrite deref_store. now destruct (String.eqb_spec ptr k) as [->|].
    + cbv beta iota. destruct (IH pm) as [evs Hevs].
      destruct (updateRteLoop E l pm) as [[] pm2]. simpl in *. now exists evs.
Qed.

Lemma updateRte_facts (pm : ProjMgr R X) :
  exists evs, rte_facts E pm (updateRte E pm).2 evs.
Proof.
  unfold updateRte. run_pm. destruct (m_updateRteFiles (opts pm)).
  - apply updateRteLoop_facts.
  - exists []. apply rte_facts_refl.
Qed.

Lemma GenerateCbuildLoop_ok (l : list string) (pm : ProjMgr R X) :
  (forall c b, GenerateCbuild E c b = true) ->
  GenerateCbuildLoop E l pm =
    (true,
     set_out (out pm ++
       map (fun k => EvGenerateCbuild (deref E (m_worker pm) k)
                       (bool_decide (name (deref E (m_worker pm) k) ∈ m_failedContext pm)))
           l) pm).
Proof.
  intros Hgen. revert pm. induction l as [|k l IH]; intros pm; simpl.
  - rewrite app_nil_r. now destruct pm.
  - run_pm. fold (GenerateCbuildLoop E l). rewrite Hgen. cbn [negb].
    rewrite IH. unfold set_out. simpl. now rewrite <- app_assoc.
Qed.

Lemma cbuild_calls_map (w : ProjMgrWorker R X) (failed : gset string) (l : list string) :
  cbuild_calls
    (map (fun k => EvGenerateCbuild (deref E w k)
                     (bool_decide (name (deref E w k) ∈ failed))) l)
  = map (fun k => (deref E w k, bool_decide (name (deref E w k) ∈ failed))) l.
Proof. induction l as [|k l IH]; simpl; [reflexivity|]. now rewrite <- IH. Qed.

Lemma cbuild_events_quiet (w : ProjMgrWorker R X) (failed : gset string) (l : list string) :
  processing (map (fun k => EvGenerateCbuild (deref E w k)
                              (bool_decide (name (deref E w k) ∈ failed))) l) = [] /\
  cprj_calls (map (fun k => EvGenerateCbuild (deref E w k)
                              (bool_decide (name (deref E w k) ∈ failed))) l) = [].
Proof. induction l as [|k l [IH1 IH2]]; simpl; auto. Qed.

Lemma GenerateCprjLoop_ok (l : list string) (pm : ProjMgr R X) :
  (forall c f b, GenerateCprj E c f b = true) ->
  GenerateCprjLoop E l pm =
    (true,
     set_out (out pm ++
       concat (map (fun k => cprj_events E (m_export (opts pm)) (deref E (m_worker pm) k)) l))
       pm).
Proof.
  intros Hgen. revert pm. induction l as [|k l IH]; intros pm; simpl.
  - rewrite app_nil_r. now destruct pm.
  - run_pm. fold (GenerateCprjLoop E l). rewrite Hgen.
    destruct (is_empty (m_export (opts pm))) eqn:Hexp; cbn [negb];
      rewrite ?Hgen, IH; unfold set_out; simpl; do 2 f_equal;
      rewrite <- !app_assoc; simpl; do 4 f_equal;
      unfold cprj_events; rewrite Hexp; reflexivity.
Qed.

Lemma cprj_events_calls (exp : string) (w : ProjMgrWorker R X) (l : list string) :
  let evs := concat (map (fun k => cprj_events E exp (deref E w k)) l) in
  cprj_calls evs = map (deref E w) l /\ processing evs = [] /\ cbuild_calls evs = [].
Proof.
  assert (Hone : forall c, cprj_calls (cprj_events E exp c) = [c] /\
                           processing (cprj_events E exp c) = [] /\
                           cbuild_calls (cprj_events E exp c) = []).
  { intros c. unfold cprj_events. destruct (is_empty exp); simpl; auto. }
  induction l as [|k l (IH1 & IH2 & IH3)]; [simpl; auto|].
  cbn [map concat]. cbv zeta in *.
  destruct (Hone (deref E w k)) as (H1 & H2 & H3).
  rewrite cprj_calls_app, cbuild_calls_app.
  unfold processing in *. rewrite omap_app.
  rewrite H1, H2, H3, IH1, IH2, IH3. auto.
Qed.

Lemma set_out_same (pm : ProjMgr R X) : set_out (out pm) pm = pm.
Proof. now destruct pm. Qed.

Ltac close_yml :=
  cbn [negb app]; rewrite ?app_nil_r, ?set_out_same;
  unfold set_out; simpl; rewrite ?app_nil_r, <- ?app_assoc; reflexivity.

Lemma GenerateYML_reaches_cbuild (pm : ProjMgr R X) :
  GenerateCbuildPack E (m_parser pm)
    (map (deref E (m_worker pm)) (m_processedContexts pm))
    (m_contextSet (opts pm) || negb (Nat.eqb (length (m_context (opts pm))) 0))
    (m_frozenPacks (opts pm)) = true ->
  index_succeeds E (after_updateRte E pm) = true ->
  cbuild_set_succeeds E (after_updateRte E pm) = true ->
  GenerateYMLConfigurationFiles E pm =
    GenerateCbuildLoop E (m_processedContexts (after_updateRte E pm))
      (set_out (out (after_updateRte E pm) ++ index_events E (after_updateRte E pm)
                ++ cbuild_set_events E (after_updateRte E pm))
               (after_updateRte E pm)).
Proof.
  intros Hpack Hidx Hset.
  unfold GenerateYMLConfigurationFiles. run_pm. rewrite Hpack. cbn [negb].
  fold (after_updateRte E pm).
  match goal with
  | |- (let (_, pm') := updateRte E ?st in _) = _ =>
      change st with (set_out (out pm ++
        [EvGenerateCbuildPack (map (deref E (m_worker pm)) (m_processedContexts pm))
           (m_contextSet (opts pm) || negb (Nat.eqb (length (m_context (opts pm))) 0))
           (m_frozenPacks (opts pm))]) pm);
      pose proof (eq_refl : (updateRte E st).2 = after_updateRte E pm) as HU;
      destruct (updateRte E st) as [[] pmU]
  end.
  simpl in HU. subst pmU.
  set (pmU := after_updateRte E pm) in *.
  unfold index_succeeds, index_events, cbuild_set_succeeds, cbuild_set_events in *.
  destruct (negb (is_nil (m_allContexts pmU))); cbv beta iota zeta.
  - rewrite Hidx. cbn [negb].
    destruct (m_contextSet (opts pmU)); cbv beta iota zeta.
    + destruct (Nat.eqb (length (m_context (opts pmU))) 0
                && negb (Exists E (cbuildSetFileOf (m_parser pmU)))); cbv beta iota zeta.
      * close_yml.
      * destruct (negb (is_nil (m_processedContexts pmU))); cbv beta iota zeta.
        -- rewrite Hset. close_yml.
        -- close_yml.
    + close_yml.
  - cbn [negb].
    destruct (m_contextSet (opts pmU)); cbv beta iota zeta.
    + destruct (Nat.eqb (length (m_context (opts pmU))) 0
                && negb (Exists E (cbuildSetFileOf (m_parser pmU)))); cbv beta iota zeta.
      * close_yml.
      * destruct (negb (is_nil (m_processedContexts pmU))); cbv beta iota zeta.
        -- rewrite Hset. close_yml.
        -- close_yml.
    + close_yml.
Qed.

Lemma last_processed_unique (k : string) (it : ContextItem R) (ok : bool)
    (evs : list (Event R)) :
  NoDup (map processed_key (processing evs)) ->
  (k, it, ok) ∈ processing evs ->
  last_processed k evs = Some it.
Proof.
  induction evs as [|e evs IH] using rev_ind; [intros _ Hin; inversion Hin|].
  rewrite processing_app, map_app, last_processed_app.
  intros Hnd Hin. apply NoDup_app in Hnd as (Hnd1 & Hdisj & _).
  destruct e; simpl in *; rewrite ?app_nil_r in Hin; auto.
  unfold last_processed at 1. simpl.
  apply elem_of_app in Hin as [Hin|Hin].
  - destruct (String.eqb_spec contextName k) as [->|Hne]; simpl; [|now apply IH].
    exfalso. apply (Hdisj k).
    + apply list_elem_of_fmap. now exists (k, it, ok).
    + left.
  - apply list_elem_of_singleton in Hin. injection Hin as -> -> ->.
    now rewrite String.eqb_refl.
Qed.

Lemma run_events_no_generation (evs loop_evs info : list (Event R)) (l : list string) :
  evs = loop_evs ++ map DiagMissingFilter l ++ info ->
  forallb is_processing_event loop_evs = true ->
  forallb is_info info = true ->
  cbuild_calls evs = [] /\ cprj_calls evs = [].
Proof.
  intros -> Hloop Hinfo.
  assert (H : forall evs : list (Event R),
            forallb (fun e => match e with
                              | EvGenerateCbuild _ _ | EvGenerateCprj _ _ _ => false
                              | _ => true
                              end) evs = true ->
            cbuild_calls evs = [] /\ cprj_calls evs = []).
  { induction evs as [|e evs IH]; simpl; [auto|].
    intros [He Hevs]%andb_prop. destruct (IH Hevs) as [IH1 IH2].
    destruct e; simpl in *; try discriminate; auto. }
  apply H. rewrite !forallb_app. repeat (apply andb_true_intro; split).
  - eapply forallb_weaken; [|exact Hloop]. now intros [].
  - clear. induction l; simpl; auto.
  - eapply forallb_weaken; [|exact Hinfo]. now intros [].
Qed.

Lemma index_events_quiet (pm : ProjMgr R X) : no_calls (index_events E pm).
Proof. unfold index_events. destruct (negb _); repeat split. Qed.

Lemma cbuild_set_events_quiet (pm : ProjMgr R X) : no_calls (cbuild_set_events E pm).
Proof.
  unfold cbuild_set_events.
  destruct (m_contextSet _); [|repeat split].
  destruct (_ && _); [repeat split|]. destruct (negb _); repeat split.
Qed.

Lemma after_updateRte_facts (pm : ProjMgr R X) :
  exists evs, rte_facts E pm (after_updateRte E pm) evs.
Proof.
  unfold after_updateRte.
  match goal with |- context [updateRte E ?st] => destruct (updateRte_facts st) as [evs H] end.
  eexists. eapply rte_facts_trans; [|exact H].
  split; simpl; try reflexivity. repeat split.
Qed.

End Conversion.

(* ===================================================================== *)
(** ** Context set without its file *)
(* ===================================================================== *)

Section ContextSet.

Context {R X : Type} (E : External R X).

Lemma prelude_not_cbuild_set (evs : list (Event R)) items t f :
  forallb is_prelude_event evs = true -> EvGenerateCbuildSet items t f ∉ evs.
Proof.
  intros Hall Hin. rewrite forallb_forall in Hall.
  apply list_elem_of_In in Hin. now specialize (Hall _ Hin).
Qed.

(** C6. With the context set asked for, no pattern given and the
    cbuild-set file absent, the selection only warns and selects all the
    contexts: [Configure] processes every context of the ordered list and
    its result depends on that processing alone.  In the same situation
    [GenerateYMLConfigurationFiles], once the cbuild-pack and cbuild-index
    files are generated, only repeats the warning, calls no generation of
    the cbuild-set file and goes on to generate the cbuild files. *)
Theorem context_set_absent_selects_all (pm pm1 : ProjMgr R X) :
  PopulateContexts E pm = (true, pm1) ->
  m_context (opts pm1) = [] ->
  m_contextSet (opts pm1) = true ->
  Exists E (cbuildSetFileOf (m_parser pm1)) = false ->
  let warning : Event R :=
    LogWarn "" ("unable to locate " +:+ cbuildSetFileOf (m_parser pm1) +:+ " file.") in
  exists pm2 res pm' evs,
    reaches_processing E pm pm1 pm2 /\
    Configure E pm = (res, pm') /\
    out pm' = out pm1 ++ warning :: evs /\
    m_processedContexts pm' = GetYmlOrderedContexts (m_worker pm1) /\
    map processed_key (processing evs) = GetYmlOrderedContexts (m_worker pm1) /\
    (res = true <-> forall r, r ∈ processing evs -> processed_ok r = true) /\
    ((forall p items a b, GenerateCbuildPack E p items a b = true) ->
     (forall p items d, GenerateCbuildIndex E p items d = true) ->
     exists pmW evsW,
       GenerateYMLConfigurationFiles E pm' =
         GenerateCbuildLoop E (m_processedContexts pm') pmW /\
       out pmW = out pm' ++ evsW /\
       last evsW = Some warning /\
       forall items t f, EvGenerateCbuildSet items t f ∉ evsW).
Proof.
  intros Hpop Hpats Hset Hfile warning.
  pose proof (select_without_context_set E pm1 Hpats Hset Hfile) as Hsel.
  fold warning in Hsel.
  match type of Hsel with _ = (true, ?st) => set (pm2 := st) in * end.
  assert (Hreach : reaches_processing E pm pm1 pm2) by (split; assumption).
  destruct (Configure_facts E _ _ _ Hreach) as (res & pm' & evs & Hrun & []).
  assert (Hall : List.filter (IsContextSelected (m_worker pm2))
                   (GetYmlOrderedContexts (m_worker pm2))
                 = GetYmlOrderedContexts (m_worker pm1)).
  { subst pm2. unfold IsContextSelected, GetYmlOrderedContexts. simpl.
    apply filter_all_selected. }
  rewrite Hall in *.
  exists pm2, res, pm', evs.
  split; [exact Hreach|]. split; [exact Hrun|].
  split; [rewrite rf_out0; subst pm2; simpl; now rewrite <- app_assoc|].
  split; [exact rf_processed0|]. split; [exact rf_calls0|].
  split.
  { rewrite rf_result0, forallb_forall.
    split; intros H r Hr; apply H; now apply list_elem_of_In. }
  intros Hpack Hindex.
  destruct (after_updateRte_facts E pm') as [evsU []].
  set (pmU := after_updateRte E pm') in *.
  assert (Hopts : opts pmU = opts pm1) by (now rewrite uf_opts0, rf_opts0).
  assert (Hparser : m_parser pmU = m_parser pm1) by (now rewrite uf_parser0, rf_parser0).
  assert (Hevents : cbuild_set_events E pmU = [warning]).
  { unfold cbuild_set_events. rewrite Hopts, Hparser, Hset, Hpats, Hfile. reflexivity. }
  exists (set_out (out pmU ++ index_events E pmU ++ cbuild_set_events E pmU) pmU),
         (evsU ++ index_events E pmU ++ [warning]).
  split.
  { rewrite GenerateYML_reaches_cbuild.
    - fold pmU. now rewrite uf_processed0.
    - apply Hpack.
    - unfold index_succeeds. destruct (negb _); [apply Hindex | reflexivity].
    - fold pmU. unfold cbuild_set_succeeds.
      rewrite Hopts, Hparser, Hset, Hpats, Hfile. reflexivity. }
  split; [simpl; rewrite Hevents, uf_out0; now rewrite <- !app_assoc|].
  split; [rewrite !app_assoc; apply last_snoc|].
  intros items t f [Hin|[Hin|Hin]%elem_of_app]%elem_of_app.
  - revert Hin. now apply prelude_not_cbuild_set.
  - unfold index_events in Hin. destruct (negb _); [|inversion Hin].
    apply list_elem_of_singleton in Hin. discriminate.
  - apply list_elem_of_singleton in Hin. discriminate.
Qed.

End ContextSet.

(* ===================================================================== *)
(** ** The statements on the sample solution *)
(* ===================================================================== *)

Example sample_convert_run :
  (RunConvert Sample.ext Sample.convert).1 = false /\
  m_processedContexts (RunConvert Sample.ext Sample.convert).2
    = ["App.Debug+BoardA"; "App.Debug+BoardB"] /\
  m_failedContext (RunConvert Sample.ext Sample.convert).2 = {["App.Debug+BoardB"]}.
Proof. vm_compute. repeat split. Qed.

(** The failed context keeps what its processing resolved, the sibling
    context is processed to the end. *)
Example sample_partial_resolution :
  let w := m_worker (Configure Sample.ext Sample.convert).2 in
  resolution (deref Sample.ext w "App.Debug+BoardB") = 1%nat /\
  resolution (deref Sample.ext w "App.Debug+BoardA") = 2%nat /\
  resolution (deref Sample.ext w "App.Release+BoardA") = 0%nat.
Proof. vm_compute. repeat split. Qed.

Example sample_cbuild_calls :
  map (fun c => (name c.1, c.2))
      (cbuild_calls (out (RunConvert Sample.ext Sample.convert).2))
  = [("App.Debug+BoardA", false); ("App.Debug+BoardB", true)].
Proof. vm_compute. reflexivity. Qed.

Example sample_same_folder_warns :
  let run := PopulateContexts Sample.ext
               (Sample.manager (Sample.options "/work/samedir.csolution.yml" "convert" ""
                                               [] false false false)) in
  run.1 = true /\
  out run.2 =
    [LogWarn "/work/samedir.csolution.yml"
             "cproject.yml files should be placed in separate sub-directories";
     EvAddContexts (mkContextDesc "app/App.cproject.yml") "/work/app/App.cproject.yml"].
Proof. vm_compute. repeat split. Qed.

Example sample_list_layers_prints :
  let run := RunListLayers Sample.ext
               (Sample.manager (Sample.options "/work/demo.csolution.yml" "list" "layers"
                                               [] false false false)) in
  run.1 = true /\
  List.filter (fun e => match e with Cout _ => true | _ => false end) (out run.2)
    = [Cout "Net.clayer.yml"; Cout "Shield.clayer.yml"].
Proof. vm_compute. repeat split. Qed.

Lemma SetLoadPacksPolicy_exhaustive_witness :
  ~ known_load_option (m_loadPacksPolicy Sample.options_newest) /\
  exists msg pm',
    RunProjMgr Sample.ext (FrontEndOptions Sample.options_newest "") None = (ERROR, pm') /\
    out pm' = [LogError "" msg] /\
    m_allContexts pm' = [] /\
    m_processedContexts pm' = [] /\
    w_contexts (m_worker pm') = ∅.
Proof.
  assert (H : ~ known_load_option (m_loadPacksPolicy Sample.options_newest)).
  { unfold known_load_option. simpl. intros [H|[H|[H|H]]]; discriminate. }
  split; [exact H|].
  exact (proj2 (SetLoadPacksPolicy_exhaustive Sample.ext) Sample.options_newest "" None H).
Defined.

Lemma contexts_in_declaration_order_witness :
  (reaches_processing Sample.ext Sample.convert Sample.convert_populated
                      Sample.convert_selected /\
   exists res pm' evs,
     Configure Sample.ext Sample.convert = (res, pm') /\
     out pm' = out Sample.convert_selected ++ evs /\
     map processed_key (processing evs) = m_processedContexts pm' /\
     m_processedContexts pm'
       `sublist_of` GetYmlOrderedContexts (m_worker Sample.convert_populated) /\
     (m_context (opts Sample.convert_populated) <> [] ->
        forall pats', pats' ≡ₚ m_context (opts Sample.convert_populated) ->
          m_processedContexts pm' =
          List.filter (matches_any pats')
                      (GetYmlOrderedContexts (m_worker Sample.convert_populated)))) /\
  (PopulateContexts Sample.ext Sample.list_contexts
     = (true, Sample.list_contexts_populated) /\
   m_ymlOrder (opts Sample.list_contexts_populated) = true /\
   RunListContexts Sample.ext Sample.list_contexts =
     (true, set_out (out Sample.list_contexts_populated ++ map Cout Sample.AppContexts)
                    Sample.list_contexts_populated)).
Proof.
  assert (H : reaches_processing Sample.ext Sample.convert Sample.convert_populated
                                 Sample.convert_selected)
    by (split; vm_compute; reflexivity).
  assert (Hpop : PopulateContexts Sample.ext Sample.list_contexts
                 = (true, Sample.list_contexts_populated))
    by (vm_compute; reflexivity).
  assert (Hyml : m_ymlOrder (opts Sample.list_contexts_populated) = true)
    by (vm_compute; reflexivity).
  destruct (contexts_in_declaration_order Sample.ext) as [Hconfigure Hlist].
  split; [split; [exact H | exact (Hconfigure _ _ _ H)]|].
  split; [exact Hpop|]. split; [exact Hyml|].
  exact (proj1 (Hlist _ _ Hpop Hyml eq_refl)).
Defined.

Lemma context_set_absent_selects_all_witness :
  PopulateContexts Sample.ext Sample.convert_set = (true, Sample.convert_set_populated) /\
  m_context (opts Sample.convert_set_populated) = [] /\
  m_contextSet (opts Sample.convert_set_populated) = true /\
  Exists Sample.ext (cbuildSetFileOf (m_parser Sample.convert_set_populated)) = false /\
  exists pm2 res pm' evs,
    reaches_processing Sample.ext Sample.convert_set Sample.convert_set_populated pm2 /\
    Configure Sample.ext Sample.convert_set = (res, pm') /\
    out pm' = out Sample.convert_set_populated ++
              LogWarn "" "unable to locate /work/demo.cbuild-set.yml file." :: evs /\
    m_processedContexts pm' = Sample.AppContexts /\
    map processed_key (processing evs) = Sample.AppContexts.
Proof.
  assert (Hpop : PopulateContexts Sample.ext Sample.convert_set
                 = (true, Sample.convert_set_populated))
    by (vm_compute; reflexivity).
  repeat (split; [vm_compute; reflexivity|]).
  destruct (context_set_absent_selects_all Sample.ext _ _ Hpop eq_refl eq_refl eq_refl)
    as (pm2 & res & pm' & evs & H1 & H2 & H3 & H4 & H5 & _).
  exists pm2, res, pm', evs.
  exact (conj H1 (conj H2 (conj H3 (conj H4 H5)))).
Defined.

Lemma PopulateContexts_cproject_checks_witness :
  let pm := Sample.convert_samename in
  let cs := Sample.csolution ["app/App.cproject.yml"; "lib/App.cproject.yml"] in
  is_empty (m_csolutionFile (opts pm)) = false /\
  ParseCsolution Sample.ext (m_csolutionFile (opts pm)) (m_checkSchema (opts pm))
                 (m_frozenPacks (opts pm)) = Some cs /\
  ParseCdefaultIfEnabled Sample.ext cs (set_parser (mkParser cs) pm)
    = (true, set_parser (mkParser cs) pm) /\
  (1 < length (cprojects cs))%nat /\
  ~ NoDup (map (filename Sample.ext) (cprojects cs)) /\
  exists pm' evs,
    PopulateContexts Sample.ext pm = (false, pm') /\
    out pm' = out pm ++ evs /\
    last evs = Some (LogError (m_csolutionFile (opts pm))
                              "cproject.yml filenames must be unique") /\
    (forall d f, EvAddContexts d f ∉ evs) /\
    m_worker pm' = m_worker pm.
Proof.
  intros pm cs.
  assert (H1 : is_empty (m_csolutionFile (opts pm)) = false) by reflexivity.
  assert (H2 : ParseCsolution Sample.ext (m_csolutionFile (opts pm))
                 (m_checkSchema (opts pm)) (m_frozenPacks (opts pm)) = Some cs)
    by reflexivity.
  assert (H3 : ParseCdefaultIfEnabled Sample.ext cs (set_parser (mkParser cs) pm)
               = (true, set_parser (mkParser cs) pm)) by reflexivity.
  assert (H4 : (1 < length (cprojects cs))%nat) by (simpl; lia).
  assert (H5 : ~ NoDup (map (filename Sample.ext) (cprojects cs))).
  { vm_compute. intros H. inversion H as [|? ? Hn _]. apply Hn. left. }
  repeat (split; [assumption|]).
  exact (proj1 (PopulateContexts_cproject_checks Sample.ext pm _ cs H1 H2 H3 H4) H5).
Defined.

Lemma RunListLayers_effects_witness :
  (if negb (is_empty (m_csolutionFile (opts Sample.list_layers)))
   then PopulateContexts Sample.ext Sample.list_layers
   else (true, Sample.list_layers)) = (true, Sample.list_layers_populated) /\
  callParseContextSelection Sample.ext (m_context (opts Sample.list_layers)) false
    Sample.list_layers_populated = (true, Sample.list_layers_selected) /\
  ListLayers Sample.ext (m_clayerSearchPath (opts Sample.list_layers_selected))
             (m_worker Sample.list_layers_selected)
    = (true, ["Net.clayer.yml"; "Shield.clayer.yml"], m_worker Sample.list_layers_selected) /\
  exists res pm' evs,
    RunListLayers Sample.ext Sample.list_layers = (res, pm') /\
    out pm' = out Sample.list_layers_selected ++ evs /\
    (m_updateIdx (opts Sample.list_layers_selected) = false ->
       res = true /\ evs = map Cout ["Net.clayer.yml"; "Shield.clayer.yml"]) /\
    (m_updateIdx (opts Sample.list_layers_selected) = true ->
       let all := m_allContexts Sample.list_layers_selected ++
                  GetYmlOrderedContexts (m_worker Sample.list_layers_selected) in
       (all <> [] ->
          m_allContexts pm' = all /\
          evs = [EvGenerateCbuildIndex (map (deref Sample.ext (m_worker pm')) all)
                                       (m_outputDir (opts Sample.list_layers_selected))] /\
          res = GenerateCbuildIndex Sample.ext (m_parser Sample.list_layers_selected)
                  (map (deref Sample.ext (m_worker pm')) all)
                  (m_outputDir (opts Sample.list_layers_selected))) /\
       (all = [] -> evs = [] /\ res = true)).
Proof.
  assert (H1 : (if negb (is_empty (m_csolutionFile (opts Sample.list_layers)))
                then PopulateContexts Sample.ext Sample.list_layers
                else (true, Sample.list_layers)) = (true, Sample.list_layers_populated))
    by (vm_compute; reflexivity).
  assert (H2 : callParseContextSelection Sample.ext (m_context (opts Sample.list_layers))
                 false Sample.list_layers_populated = (true, Sample.list_layers_selected))
    by (vm_compute; reflexivity).
  assert (H3 : ListLayers Sample.ext (m_clayerSearchPath (opts Sample.list_layers_selected))
                 (m_worker Sample.list_layers_selected)
               = (true, ["Net.clayer.yml"; "Shield.clayer.yml"],
                  m_worker Sample.list_layers_selected))
    by reflexivity.
  repeat (split; [assumption|]).
  exact (RunListLayers_effects Sample.ext Sample.list_layers Sample.list_layers_populated
           Sample.list_layers_selected ["Net.clayer.yml"; "Shield.clayer.yml"]
           (m_worker Sample.list_layers_selected) H1 H2 H3).
Defined.

(** C5 as stated fails when no context is known: [csolution list layers
    --update-idx] without a csolution file computes the layers and
    succeeds, the update-index mode being on, but nothing is persisted
    into the build index (and nothing is printed). *)
Lemma RunListLayers_update_index_without_contexts :
  m_updateIdx (opts Sample.list_layers_alone) = true /\
  ListLayers Sample.ext (m_clayerSearchPath (opts Sample.list_layers_alone))
             (m_worker Sample.list_layers_alone)
    = (true, ["Net.clayer.yml"; "Shield.clayer.yml"], m_worker Sample.list_layers_alone) /\
  (RunListLayers Sample.ext Sample.list_layers_alone).1 = true /\
  ~ (exists items dir,
       EvGenerateCbuildIndex items dir
         ∈ out (RunListLayers Sample.ext Sample.list_layers_alone).2).
Proof.
  split; [reflexivity|]. split; [reflexivity|]. split; [vm_compute; reflexivity|].
  intros (items & dir & Hin).
  assert (Hout : out (RunListLayers Sample.ext Sample.list_layers_alone).2 = [])
    by (vm_compute; reflexivity).
  rewrite Hout in Hin. inversion Hin.
Qed.

(* ===================================================================== *)
(** ** Populating the contexts *)
(* ===================================================================== *)

Section Population.

Context {R X : Type} (E : External R X).

Lemma NoDup_short {A : Type} (l : list A) : (length l <= 1)%nat -> NoDup l.
Proof.
  destruct l as [|a [|b l]]; simpl; intros Hlen.
  - constructor.
  - apply NoDup_singleton.
  - lia.
Qed.

Lemma adjacent_find_none (l : list string) :
  is_some (adjacent_find (multiset_of l)) = false <-> NoDup l.
Proof.
  pose proof (adjacent_find_multiset l) as Hiff.
  destruct (is_some (adjacent_find (multiset_of l))).
  - split; [discriminate|]. intros Hnd. exfalso. now apply Hiff.
  - split; [|reflexivity]. intros _.
    destruct (decide (NoDup l)) as [Hnd|Hnd]; [assumption|].
    apply Hiff in Hnd. discriminate.
Qed.

(** X1.  The check of the cproject files of [PopulateContexts], for any
    number of cprojects: it stops the function, with the error "cproject.yml
    filenames must be unique", exactly when two cprojects have the same
    file name; otherwise it goes on, and adds the warning about
    sub-directories exactly when two cprojects have the same folder.
    Nothing but the trace changes. *)
Theorem CheckCprojects_unique_names (cprojects : list string) (pm : ProjMgr R X) :
  CheckCprojects E cprojects pm =
    if bool_decide (NoDup (map (filename E) cprojects)) then
      (true,
       if bool_decide (NoDup (map (parent_path E) cprojects)) then pm
       else set_out (out pm ++
              [LogWarn (m_csolutionFile (opts pm))
                 "cproject.yml files should be placed in separate sub-directories"]) pm)
    else
      (false,
       set_out (out pm ++
         [LogError (m_csolutionFile (opts pm)) "cproject.yml filenames must be unique"]) pm).
Proof.
  unfold CheckCprojects.
  destruct (Nat.ltb_spec 1 (length cprojects)) as [Hlen|Hlen].
  - destruct (is_some (adjacent_find (multiset_of (map (filename E) cprojects))))
      eqn:Hnames.
    + apply adjacent_find_multiset in Hnames.
      rewrite bool_decide_eq_false_2 by assumption. reflexivity.
    + apply adjacent_find_none in Hnames.
      rewrite bool_decide_eq_true_2 by assumption.
      destruct (is_some (adjacent_find (multiset_of (map (parent_path E) cprojects))))
        eqn:Hdirs.
      * apply adjacent_find_multiset in Hdirs.
        rewrite bool_decide_eq_false_2 by assumption. reflexivity.
      * apply adjacent_find_none in Hdirs.
        rewrite bool_decide_eq_true_2 by assumption. reflexivity.
  - rewrite !bool_decide_eq_true_2; [reflexivity| |];
      apply NoDup_short; rewrite length_map; assumption.
Qed.

(** X2.  The loop "Parse cprojects" stops at the first cproject whose file
    is not found or does not parse: it returns true exactly when every
    cproject is found and parses, the error "cproject file was not found"
    is logged for the first offending cproject when its file is missing
    (and nothing is logged when it only fails to parse), and nothing else
    changes. *)
Theorem ParseCprojects_first_failure (cprojects : list string) (pm : ProjMgr R X) :
  ParseCprojects E cprojects pm =
    (forallb (cproject_parsed E (opts pm)) cprojects,
     match List.find (fun c => negb (cproject_parsed E (opts pm) c)) cprojects with
     | Some c =>
         if cproject_found E (opts pm) c then pm
         else set_out (out pm ++ [LogError c "cproject file was not found"]) pm
     | None => pm
     end).
Proof.
  induction cprojects as [|c rest IH]; [reflexivity|].
  cbn [ParseCprojects forallb List.find]. run_pm.
  unfold cproject_parsed, cproject_found, cprojectFileOf in *. cbv beta.
  destruct (is_empty (canonical E (m_rootDir (opts pm) +:+ "/" +:+ c))) eqn:Hfound;
    cbn [negb andb]; [rewrite Hfound; reflexivity|].
  destruct (ParseCproject E _ _) eqn:Hparse; cbn [negb]; [|rewrite Hfound; reflexivity].
  exact IH.
Qed.

(** X3.  The step "Parse cdefault" of [PopulateContexts] stops the function
    only when cdefault is enabled, exactly one cdefault file is found in
    the search paths, and that file does not parse.  A cdefault file that
    is missing or ambiguous leaves [m_cdefaultFile] as it was and lets the
    function go on. *)
Theorem ParseCdefaultIfEnabled_fails_iff (cs : CsolutionItem) (pm : ProjMgr R X) :
  ((ParseCdefaultIfEnabled E cs pm).1 = false <->
   enableCdefault cs = true /\
   exists file,
     FindFileRegEx E (cdefaultSearchPaths E pm) ".*/cdefault\.(yml|yaml)" = (true, file) /\
     ParseCdefault E file (m_checkSchema (opts pm)) = false) /\
  m_cdefaultFile (ParseCdefaultIfEnabled E cs pm).2 =
    (if enableCdefault cs then
       let (found, file) :=
         FindFileRegEx E (cdefaultSearchPaths E pm) ".*/cdefault\.(yml|yaml)" in
       if found then file else m_cdefaultFile pm
     else m_cdefaultFile pm).
Proof.
  unfold ParseCdefaultIfEnabled, GetCdefaultFile, cdefaultSearchPaths. run_pm.
  destruct (enableCdefault cs).
  2:{ split; [|reflexivity]. split; [discriminate|]. intros [? _]. discriminate. }
  destruct (FindFileRegEx E _ _) as [found file] eqn:Hfind.
  destruct found; cbn [negb].
  - cbn [fst snd m_cdefaultFile set_cdefaultFile opts]. split; [|reflexivity]. split.
    + intros Hparse. split; [reflexivity|]. exists file. split; [reflexivity|assumption].
    + intros [_ (file' & Heq & Hparse)]. injection Heq as <-. assumption.
  - destruct (is_empty file); cbn [negb fst snd]; (split; [|reflexivity]);
      (split; [discriminate|]); intros [_ (file' & Heq & _)]; discriminate.
Qed.

End Population.

Section PopulationFrame.

Context {R X : Type} (E : External R X).

Lemma populate_facts_same (pm pm' : ProjMgr R X) :
  opts pm' = opts pm -> m_selectedToolchain pm' = m_selectedToolchain pm ->
  m_allContexts pm' = m_allContexts pm ->
  m_processedContexts pm' = m_processedContexts pm ->
  m_failedContext pm' = m_failedContext pm ->
  out pm' = out pm ->
  populate_facts pm pm' [].
Proof.
  intros Ho Ht Ha Hp Hf Hout. unfold populate_facts, same_results.
  rewrite app_nil_r. auto 10.
Qed.

Lemma populate_facts_refl (pm : ProjMgr R X) : populate_facts pm pm [].
Proof. now apply populate_facts_same. Qed.

Lemma populate_facts_trans (pm1 pm2 pm3 : ProjMgr R X) (evs1 evs2 : list (Event R)) :
  populate_facts pm1 pm2 evs1 -> populate_facts pm2 pm3 evs2 ->
  populate_facts pm1 pm3 (evs1 ++ evs2).
Proof.
  intros (Ho1 & Ht1 & (Ha1 & Hp1 & Hf1) & Hout1 & He1)
         (Ho2 & Ht2 & (Ha2 & Hp2 & Hf2) & Hout2 & He2).
  unfold populate_facts, same_results.
  rewrite Ho2, Ht2, Ha2, Hp2, Hf2, Hout2, Hout1, forallb_app, He1, He2, app_assoc.
  auto 10.
Qed.

Lemma populate_facts_emit (pm : ProjMgr R X) (e : Event R) :
  is_populate_event e = true ->
  populate_facts pm (set_out (out pm ++ [e]) pm) [e].
Proof.
  intros He. unfold populate_facts, same_results. cbn. rewrite He. auto 10.
Qed.

Lemma add_calls_app (evs1 evs2 : list (Event R)) :
  add_calls (evs1 ++ evs2) = add_calls evs1 ++ add_calls evs2.
Proof. apply omap_app. Qed.

Lemma ParseCdefaultIfEnabled_facts (cs : CsolutionItem) (pm : ProjMgr R X) :
  exists evs,
    populate_facts pm (ParseCdefaultIfEnabled E cs pm).2 evs /\
    add_calls evs = [] /\
    m_parser (ParseCdefaultIfEnabled E cs pm).2 = m_parser pm /\
    m_worker (ParseCdefaultIfEnabled E cs pm).2 = m_worker pm.
Proof.
  unfold ParseCdefaultIfEnabled, GetCdefaultFile. run_pm.
  destruct (enableCdefault cs).
  2:{ exists []. split; [apply populate_facts_refl|]. auto. }
  destruct (FindFileRegEx E _ _) as [found file].
  destruct found; cbn [negb].
  - exists []. split; [now apply populate_facts_same|]. auto.
  - destruct (is_empty file); cbn [negb].
    + exists []. split; [apply populate_facts_refl|]. auto.
    + eexists. split; [now apply populate_facts_emit|]. auto.
Qed.

Lemma CheckCprojects_facts (cprojects : list string) (pm : ProjMgr R X) :
  exists evs,
    populate_facts pm (CheckCprojects E cprojects pm).2 evs /\
    add_calls evs = [] /\
    m_parser (CheckCprojects E cprojects pm).2 = m_parser pm /\
    m_worker (CheckCprojects E cprojects pm).2 = m_worker pm /\
    ((CheckCprojects E cprojects pm).1 = true -> NoDup (map (filename E) cprojects)).
Proof.
  unfold CheckCprojects.
  destruct (Nat.ltb_spec 1 (length cprojects)) as [Hlen|Hlen].
  - destruct (is_some (adjacent_find (multiset_of (map (filename E) cprojects))))
      eqn:Hnames.
    + eexists. split; [now apply populate_facts_emit|]. cbn.
      repeat (split; [reflexivity|]). discriminate.
    + apply adjacent_find_none in Hnames.
      destruct (is_some (adjacent_find (multiset_of (map (parent_path E) cprojects)))).
      * eexists. split; [now apply populate_facts_emit|]. cbn. auto.
      * exists []. split; [apply populate_facts_refl|]. cbn. auto.
  - exists []. split; [apply populate_facts_refl|]. cbn.
    repeat (split; [reflexivity|]). intros _.
    apply NoDup_short. now rewrite length_map.
Qed.

Lemma ParseCprojects_facts (cprojects : list string) (pm : ProjMgr R X) :
  exists evs,
    populate_facts pm (ParseCprojects E cprojects pm).2 evs /\
    add_calls evs = [] /\
    m_parser (ParseCprojects E cprojects pm).2 = m_parser pm /\
    m_worker (ParseCprojects E cprojects pm).2 = m_worker pm /\
    ((ParseCprojects E cprojects pm).1 = true ->
     forallb (cproject_parsed E (opts pm)) cprojects = true).
Proof.
  induction cprojects as [|c rest IH].
  - exists []. split; [apply populate_facts_refl|]. cbn. auto.
  - cbn [ParseCprojects forallb]. run_pm.
    unfold cproject_parsed at 1. unfold cproject_found, cprojectFileOf.
    destruct (is_empty (canonical E (m_rootDir (opts pm) +:+ "/" +:+ c))); cbn [negb andb].
    + eexists. split; [now apply populate_facts_emit|]. cbn.
      repeat (split; [reflexivity|]). discriminate.
    + destruct (ParseCproject E _ _); cbn [negb]; [exact IH|].
      exists []. split; [apply populate_facts_refl|]. cbn.
      repeat (split; [reflexivity|]). discriminate.
Qed.

(** The calls of [AddContexts] are made for the descriptors in the order
    of the csolution, up to the first one that fails. *)
Lemma AddAllContexts_facts (descriptors : list ContextDesc) (pm : ProjMgr R X) :
  exists n,
    populate_facts pm (AddAllContexts E descriptors pm).2
      (map (fun d => EvAddContexts d (descriptorFileOf E (opts pm) d)) (take n descriptors)) /\
    m_parser (AddAllContexts E descriptors pm).2 = m_parser pm /\
    ((AddAllContexts E descriptors pm).1 = true -> take n descriptors = descriptors).
Proof.
  revert pm. induction descriptors as [|d rest IH]; intros pm.
  - exists 0%nat. split; [apply populate_facts_refl|]. cbn. auto.
  - cbn [AddAllContexts]. run_pm. fold (descriptorFileOf E (opts pm) d).
    destruct (AddContexts E d (descriptorFileOf E (opts pm) d) (m_worker pm)) as [ok w].
    destruct ok; cbn [negb].
    + match goal with
      | |- context [AddAllContexts E rest ?s] =>
          destruct (IH s) as (n & Hfacts & Hparser & Hall)
      end.
      exists (S n). cbn [take map].
      split; [|split].
      * change (?e :: ?l) with ([e] ++ l).
        eapply populate_facts_trans; [|exact Hfacts].
        unfold populate_facts, same_results. cbn. auto 10.
      * rewrite Hparser. reflexivity.
      * intros Hok. f_equal. now apply Hall.
    + exists 1%nat. cbn [take map]. destruct rest; cbn [take].
      * split; [|split; [reflexivity|discriminate]].
        unfold populate_facts, same_results. cbn. auto 10.
      * split; [|split; [reflexivity|discriminate]].
        unfold populate_facts, same_results. cbn. auto 10.
Qed.

Lemma AddContextsAndTypes_facts (pm : ProjMgr R X) :
  exists n,
    populate_facts pm (AddContextsAndTypes E pm).2
      (map (fun d => EvAddContexts d (descriptorFileOf E (opts pm) d))
           (take n (contexts (GetCsolution (m_parser pm))))) /\
    m_parser (AddContextsAndTypes E pm).2 = m_parser pm /\
    ((AddContextsAndTypes E pm).1 = true ->
     take n (contexts (GetCsolution (m_parser pm))) = contexts (GetCsolution (m_parser pm))).
Proof.
  unfold AddContextsAndTypes. run_pm.
  match goal with
  | |- context [AddAllContexts E ?ds ?s] =>
      destruct (AddAllContexts_facts ds s) as (n & Hfacts & Hparser & Hall);
      destruct (AddAllContexts E ds s) as [added pm1]
  end.
  cbn [fst snd] in *. exists n.
  assert (Hpm : populate_facts pm pm1
            (map (fun d => EvAddContexts d (descriptorFileOf E (opts pm) d))
                 (take n (contexts (GetCsolution (m_parser pm)))))).
  { change (map _ _) with
      ([] ++ map (fun d => EvAddContexts (R:=R) d (descriptorFileOf E (opts pm) d))
                 (take n (contexts (GetCsolution (m_parser pm))))).
    eapply populate_facts_trans; [|exact Hfacts].
    now apply populate_facts_same. }
  destruct added; cbn [negb fst snd].
  - split; [|split; [exact Hparser|exact Hall]].
    rewrite <- (app_nil_r (map _ _)).
    eapply populate_facts_trans; [exact Hpm|]. now apply populate_facts_same.
  - split; [exact Hpm|]. split; [exact Hparser|discriminate].
Qed.

Lemma add_calls_map (f : ContextDesc -> string) (l : list ContextDesc) :
  add_calls (R:=R) (map (fun d => EvAddContexts d (f d)) l) = map (fun d => (d, f d)) l.
Proof. induction l as [|d l IH]; [reflexivity|]. cbn. now rewrite <- IH. Qed.

(** What [PopulateContexts] has done when it returns: the members it
    keeps, and, when it returns true, what it has checked. *)
Lemma PopulateContexts_facts (pm : ProjMgr R X) :
  exists evs,
    populate_facts pm (PopulateContexts E pm).2 evs /\
    ((PopulateContexts E pm).1 = true ->
     exists cs,
       ParseCsolution E (m_csolutionFile (opts pm)) (m_checkSchema (opts pm))
                      (m_frozenPacks (opts pm)) = Some cs /\
       is_empty (m_csolutionFile (opts pm)) = false /\
       m_parser (PopulateContexts E pm).2 = mkParser cs /\
       NoDup (map (filename E) (cprojects cs)) /\
       forallb (cproject_parsed E (opts pm)) (cprojects cs) = true /\
       add_calls evs = map (fun d => (d, descriptorFileOf E (opts pm) d)) (contexts cs)).
Proof.
  unfold PopulateContexts. run_pm.
  destruct (is_empty (m_csolutionFile (opts pm))) eqn:Hfile; cbn [negb].
  { eexists. split; [now apply populate_facts_emit|]. discriminate. }
  destruct (ParseCsolution E _ _ _) as [cs|] eqn:Hcs.
  2:{ exists []. split; [apply populate_facts_refl|]. discriminate. }
  set (pm0 := set_parser (mkParser cs) pm).
  assert (H0 : populate_facts pm pm0 []) by now apply populate_facts_same.
  destruct (ParseCdefaultIfEnabled_facts cs pm0) as (evs1 & Hf1 & Hadd1 & Hp1 & Hw1).
  destruct (ParseCdefaultIfEnabled E cs pm0) as [cdefaultOk pm1]. cbn [fst snd] in *.
  pose proof (populate_facts_trans _ _ _ _ _ H0 Hf1) as H01. cbn [app] in H01.
  destruct cdefaultOk; cbn [negb].
  2:{ exists evs1. split; [exact H01|]. discriminate. }
  destruct (CheckCprojects_facts (cprojects cs) pm1) as (evs2 & Hf2 & Hadd2 & Hp2 & Hw2 & Hnd).
  destruct (CheckCprojects E (cprojects cs) pm1) as [checked pm2]. cbn [fst snd] in *.
  pose proof (populate_facts_trans _ _ _ _ _ H01 Hf2) as H02.
  destruct checked; cbn [negb].
  2:{ exists (evs1 ++ evs2). split; [exact H02|]. discriminate. }
  unfold PopulateAfterCheck. run_pm.
  destruct (ParseCprojects_facts (cprojects cs) pm2) as (evs3 & Hf3 & Hadd3 & Hp3 & Hw3 & Hall).
  destruct (ParseCprojects E (cprojects cs) pm2) as [parsed pm3]. cbn [fst snd] in *.
  pose proof (populate_facts_trans _ _ _ _ _ H02 Hf3) as H03.
  destruct parsed; cbn [negb].
  2:{ exists ((evs1 ++ evs2) ++ evs3). split; [exact H03|]. discriminate. }
  destruct (AddContextsAndTypes_facts pm3) as (n & Hf4 & Hp4 & Htake).
  pose proof (populate_facts_trans _ _ _ _ _ H03 Hf4) as H04.
  assert (Hopts3 : opts pm3 = opts pm) by apply H03.
  assert (Hopts2 : opts pm2 = opts pm) by apply H02.
  assert (Hparser3 : m_parser pm3 = mkParser cs) by (now rewrite Hp3, Hp2, Hp1).
  eexists. split; [exact H04|].
  intros Hok. exists cs. specialize (Htake Hok).
  split; [reflexivity|]. split; [reflexivity|].
  split; [now rewrite Hp4|].
  split; [now apply Hnd|].
  split; [rewrite <- Hopts2; now apply Hall|].
  rewrite !add_calls_app, Hadd1, Hadd2, Hadd3. cbn [app].
  rewrite Htake, Hparser3, Hopts3. cbn [GetCsolution].
  apply add_calls_map.
Qed.

(** X4.  When [PopulateContexts] returns true, a csolution file was given
    and parsed, its cprojects have distinct file names and were all found
    and parsed, and [AddContexts] has been called once for every context
    descriptor of the csolution, in their order, with the cproject file of
    the descriptor. *)
Theorem PopulateContexts_success (pm pm' : ProjMgr R X) :
  PopulateContexts E pm = (true, pm') ->
  exists cs evs,
    ParseCsolution E (m_csolutionFile (opts pm)) (m_checkSchema (opts pm))
                   (m_frozenPacks (opts pm)) = Some cs /\
    m_csolutionFile (opts pm) <> "" /\
    m_parser pm' = mkParser cs /\
    NoDup (map (filename E) (cprojects cs)) /\
    forallb (cproject_parsed E (opts pm)) (cprojects cs) = true /\
    out pm' = out pm ++ evs /\
    add_calls evs = map (fun d => (d, descriptorFileOf E (opts pm) d)) (contexts cs).
Proof.
  intros Hrun.
  destruct (PopulateContexts_facts pm) as (evs & Hfacts & Hok).
  rewrite Hrun in Hfacts, Hok. cbn [fst snd] in *.
  destruct (Hok eq_refl) as (cs & Hcs & Hfile & Hparser & Hnd & Hall & Hadd).
  exists cs, evs. repeat (split; [assumption|]).
  split; [|split; [assumption|]].
  - intros Hempty. rewrite Hempty in Hfile. discriminate.
  - repeat (split; [assumption|]). split; [apply Hfacts|assumption].
Qed.

(** X5.  Whatever its result, [PopulateContexts] leaves the command-line
    members, the selected toolchain and the three members that hold the
    outcome of a configuration as they were; it only appends to the trace,
    and what it appends are messages of the logger and calls of
    [AddContexts]: no context is processed, nothing is written to [cout],
    no file is generated. *)
Theorem PopulateContexts_frame (pm : ProjMgr R X) :
  opts (PopulateContexts E pm).2 = opts pm /\
  m_selectedToolchain (PopulateContexts E pm).2 = m_selectedToolchain pm /\
  m_allContexts (PopulateContexts E pm).2 = m_allContexts pm /\
  m_processedContexts (PopulateContexts E pm).2 = m_processedContexts pm /\
  m_failedContext (PopulateContexts E pm).2 = m_failedContext pm /\
  exists evs,
    out (PopulateContexts E pm).2 = out pm ++ evs /\
    forallb is_populate_event evs = true.
Proof.
  destruct (PopulateContexts_facts pm) as (evs & (Ho & Ht & (Ha & Hp & Hf) & Hout & Hev) & _).
  repeat (split; [assumption|]). exists evs. auto.
Qed.

End PopulationFrame.

(* ===================================================================== *)
(** ** Pointers to the contexts and the update of the RTE files *)
(* ===================================================================== *)

Section Pointers.

Context {R X : Type} (E : External R X).

Lemma contexts_at_keys (k : string) (w : ProjMgrWorker R X) :
  is_Some (w_contexts (contexts_at E k w).2 !! k) /\
  forall k', is_Some (w_contexts w !! k') ->
             is_Some (w_contexts (contexts_at E k w).2 !! k').
Proof.
  unfold contexts_at. destruct (w_contexts w !! k) as [c|] eqn:Hk; cbn.
  - split; [now rewrite Hk|auto].
  - split; [now rewrite lookup_insert_eq|].
    intros k' Hk'. destruct (decide (k = k')) as [<-|Hne].
    + now rewrite lookup_insert_eq.
    + now rewrite lookup_insert_ne.
Qed.

Lemma store_keys (k : string) (c : ContextItem R) (w : ProjMgrWorker R X) (k' : string) :
  is_Some (w_contexts w !! k') -> is_Some (w_contexts (store k c w) !! k').
Proof.
  intros Hk'. unfold store. cbn. destruct (decide (k = k')) as [<-|Hne].
  - now rewrite lookup_insert_eq.
  - now rewrite lookup_insert_ne.
Qed.

Lemma ConfigureStep_keys (k : string) (err : bool) (pm : ProjMgr R X) :
  is_Some (w_contexts (m_worker (ConfigureStep E k err pm).2) !! k) /\
  forall k', is_Some (w_contexts (m_worker pm) !! k') ->
             is_Some (w_contexts (m_worker (ConfigureStep E k err pm).2) !! k').
Proof.
  unfold ConfigureStep. run_pm.
  destruct (contexts_at_keys k (m_worker pm)) as [Hk Hmono].
  destruct (contexts_at E k (m_worker pm)) as [item w]. cbn [fst snd] in *.
  destruct (IsContextSelected w k); cbn [negb]; [|now split].
  destruct (ProcessContext E w item true true false) as [[ok item'] x].
  assert (Hstore : forall k', is_Some (w_contexts w !! k') ->
            is_Some (w_contexts (set_w_internal x (store k item' w)) !! k')).
  { intros k' Hk'. now apply (store_keys k item' w k'). }
  destruct ok; cbn [negb]; cbn; split; auto.
Qed.

Lemma ConfigureLoop_keys (l : list string) (err : bool) (pm : ProjMgr R X) :
  Forall (fun k => is_Some (w_contexts (m_worker (ConfigureLoop E l err pm).2) !! k)) l /\
  forall k', is_Some (w_contexts (m_worker pm) !! k') ->
             is_Some (w_contexts (m_worker (ConfigureLoop E l err pm).2) !! k').
Proof.
  revert err pm. induction l as [|k l IH]; intros err pm.
  - split; [constructor|auto].
  - cbn [ConfigureLoop]. run_pm.
    destruct (ConfigureStep_keys k err pm) as [Hk Hmono].
    destruct (ConfigureStep E k err pm) as [err1 pm1]. cbn [fst snd] in *.
    destruct (IH err1 pm1) as [Hl Hmono1].
    split; [constructor|]; auto.
Qed.

Lemma ProcessSelectedContexts_worker (pm : ProjMgr R X) :
  m_worker (ProcessSelectedContexts E pm).2 =
  m_worker (ConfigureLoop E (GetYmlOrderedContexts (m_worker pm)) false
              (set_failedContext ∅ (set_processedContexts [] (set_allContexts [] pm)))).2.
Proof.
  unfold ProcessSelectedContexts. run_pm.
  destruct (ConfigureLoop E _ _ _) as [err pm1]. cbn [fst snd].
  destruct (m_verbose (opts pm1)); [|reflexivity].
  destruct (is_nil (ListConfigFiles E (m_worker pm1))); reflexivity.
Qed.

(** X6.  After [Configure] has processed the contexts, every pointer of
    [m_allContexts] refers to an entry of the worker's map (subscripting
    the map creates the entries it lacks), the processed contexts are a
    sub-sequence of all the contexts, and no entry of the map has been
    removed. *)
Theorem Configure_pointers_valid (pm pm1 pm2 : ProjMgr R X) :
  reaches_processing E pm pm1 pm2 ->
  Forall (fun k => is_Some (w_contexts (m_worker (Configure E pm).2) !! k))
         (m_allContexts (Configure E pm).2) /\
  m_processedContexts (Configure E pm).2 `sublist_of` m_allContexts (Configure E pm).2 /\
  forall k, is_Some (w_contexts (m_worker pm2) !! k) ->
            is_Some (w_contexts (m_worker (Configure E pm).2) !! k).
Proof.
  intros Hreach. rewrite (Configure_reaches_processing E _ _ _ Hreach).
  destruct (ProcessSelectedContexts E pm2) as [res pm'] eqn:Hrun.
  destruct (ProcessSelectedContexts_facts E _ _ _ Hrun) as [evs Hfacts].
  pose proof (ProcessSelectedContexts_worker pm2) as Hw. rewrite Hrun in Hw.
  cbn [fst snd] in *.
  match type of Hw with
  | _ = m_worker (ConfigureLoop E ?l ?e ?s).2 =>
      destruct (ConfigureLoop_keys l e s) as [Hall Hmono]
  end.
  rewrite <- Hw in Hall, Hmono.
  rewrite (rf_all _ _ _ _ _ Hfacts), (rf_processed _ _ _ _ _ Hfacts).
  split; [exact Hall|]. split; [|exact Hmono].
  apply filter_sublist.
Qed.

End Pointers.

Section RteUpdate.

Context {R X : Type} (E : External R X).

Lemma updateRteLoop_cons (ptr : string) (l : list string) (pm : ProjMgr R X) :
  exists pm1,
    updateRteLoop E (ptr :: l) pm = updateRteLoop E l pm1 /\
    (forall k, deref E (m_worker pm1) k =
               if String.eqb ptr k then updated_item E (deref E (m_worker pm) ptr)
               else deref E (m_worker pm) k) /\
    out pm1 = out pm ++
      (if has_rteActiveProject E pm ptr
       then [EvUpdateRte (name (deref E (m_worker pm) ptr))] else []).
Proof.
  cbn [updateRteLoop]. run_pm. fold (updateRteLoop E l).
  unfold updated_item, has_rteActiveProject.
  destruct (rteActiveProject (deref E (m_worker pm) ptr)) as [project|] eqn:Hrte;
    cbv beta iota.
  - eexists. split; [reflexivity|]. split; [|reflexivity].
    intros k. cbn [m_worker set_out set_worker]. apply deref_store.
  - exists pm. split; [reflexivity|]. split.
    + intros k. destruct (String.eqb_spec ptr k) as [<-|Hne]; reflexivity.
    + cbn. now rewrite app_nil_r.
Qed.

Lemma updateRteLoop_updates (l : list string) (pm : ProjMgr R X) :
  NoDup l ->
  out (updateRteLoop E l pm).2 =
    out pm ++ map (fun k => EvUpdateRte (name (deref E (m_worker pm) k)))
                  (List.filter (has_rteActiveProject E pm) l) /\
  forall k, deref E (m_worker (updateRteLoop E l pm).2) k =
            if bool_decide (k ∈ l) then updated_item E (deref E (m_worker pm) k)
            else deref E (m_worker pm) k.
Proof.
  revert pm. induction l as [|ptr l IH]; intros pm Hnd.
  - cbn. rewrite app_nil_r. split; [reflexivity|]. intros k.
    rewrite bool_decide_eq_false_2; [reflexivity|]. apply not_elem_of_nil.
  - apply NoDup_cons in Hnd as [Hptr Hnd].
    destruct (updateRteLoop_cons ptr l pm) as (pm1 & -> & Hderef1 & Hout1).
    cbn [List.filter].
    destruct (IH pm1 Hnd) as [Hout Hderef].
    assert (Hsame : forall k, k ∈ l -> deref E (m_worker pm1) k = deref E (m_worker pm) k).
    { intros k Hk. rewrite Hderef1.
      destruct (String.eqb_spec ptr k) as [<-|Hne]; [contradiction|reflexivity]. }
    split.
    + rewrite Hout, Hout1, <- app_assoc. f_equal.
      assert (Hrest : map (fun k => EvUpdateRte (R:=R) (name (deref E (m_worker pm1) k)))
                        (List.filter (has_rteActiveProject E pm1) l) =
                      map (fun k => EvUpdateRte (name (deref E (m_worker pm) k)))
                        (List.filter (has_rteActiveProject E pm) l)).
      { transitivity (map (fun k => EvUpdateRte (R:=R) (name (deref E (m_worker pm) k)))
                          (List.filter (has_rteActiveProject E pm1) l)).
        - apply List.map_ext_in. intros k Hk. apply List.filter_In in Hk as [Hk _].
          rewrite Hsame; [reflexivity|]. now apply list_elem_of_In.
        - f_equal. apply List.filter_ext_in. intros k Hk.
          unfold has_rteActiveProject. rewrite Hsame; [reflexivity|].
          now apply list_elem_of_In. }
      rewrite Hrest.
      destruct (has_rteActiveProject E pm ptr); reflexivity.
    + intros k. rewrite Hderef, Hderef1.
      destruct (String.eqb_spec ptr k) as [<-|Hne].
      * rewrite bool_decide_eq_false_2 by assumption.
        rewrite bool_decide_eq_true_2 by apply list_elem_of_here. reflexivity.
      * destruct (decide (k ∈ l)) as [Hin|Hnin].
        -- rewrite !bool_decide_eq_true_2; [reflexivity| |assumption].
           now apply list_elem_of_further.
        -- rewrite !bool_decide_eq_false_2; [reflexivity| |assumption].
           intros Hin. apply elem_of_cons in Hin as [->|Hin]; contradiction.
Qed.

(** X7.  [updateRte], when the RTE files are to be updated and the
    processed contexts are distinct: the item of every processed context
    that has an active RTE project gets the attribute "update-rte-files"
    set to "1" and its project updated, once; the items without an RTE
    project and the contexts that were not processed are left as they
    are; the updates are made in the order of the processed contexts. *)
Theorem updateRte_updates_processed (pm : ProjMgr R X) :
  m_updateRteFiles (opts pm) = true ->
  NoDup (m_processedContexts pm) ->
  out (updateRte E pm).2 =
    out pm ++ map (fun k => EvUpdateRte (name (deref E (m_worker pm) k)))
                  (List.filter (has_rteActiveProject E pm) (m_processedContexts pm)) /\
  forall k, deref E (m_worker (updateRte E pm).2) k =
            if bool_decide (k ∈ m_processedContexts pm)
            then updated_item E (deref E (m_worker pm) k)
            else deref E (m_worker pm) k.
Proof.
  intros Hflag Hnd. unfold updateRte. run_pm. rewrite Hflag.
  now apply updateRteLoop_updates.
Qed.

Lemma callParseContextSelection_opts (pats : list string) (b : bool) (pm : ProjMgr R X) :
  opts (callParseContextSelection E pats b pm).2 = opts pm.
Proof.
  unfold callParseContextSelection. run_pm.
  destruct (ParseContextSelection E (m_parser pm) pats b (m_worker pm)) as [[ok w] evs].
  reflexivity.
Qed.

Lemma Configure_opts (pm : ProjMgr R X) : opts (Configure E pm).2 = opts pm.
Proof.
  unfold Configure. run_pm.
  destruct (PopulateContexts_facts E pm) as (evs & (Hopts & _) & _).
  destruct (PopulateContexts E pm) as [populated pm1]. cbn [fst snd] in *.
  destruct populated; cbn [negb]; [|exact Hopts].
  pose proof (callParseContextSelection_opts (m_context (opts pm1))
                (checkCbuildSet (opts pm1)) pm1) as Hsel.
  destruct (callParseContextSelection E _ _ pm1) as [selected pm2]. cbn [fst snd] in *.
  destruct selected; cbn [negb]; [|cbn [snd]; congruence].
  destruct (ProcessSelectedContexts E pm2) as [res pm'] eqn:Hrun.
  destruct (ProcessSelectedContexts_facts E _ _ _ Hrun) as [evs' Hfacts].
  cbn [snd]. rewrite (rf_opts _ _ _ _ _ Hfacts). congruence.
Qed.

(** X8.  With the option no-update-rte ([m_updateRteFiles] false),
    [RunConfigure] is [Configure] and nothing more: the same result and
    the same final state, no RTE project being touched, whatever
    [Configure] does. *)
Theorem RunConfigure_no_update_rte (pm : ProjMgr R X) :
  m_updateRteFiles (opts pm) = false ->
  RunConfigure E pm = Configure E pm.
Proof.
  intros Hflag. unfold RunConfigure. run_pm.
  pose proof (Configure_opts pm) as Hopts.
  destruct (Configure E pm) as [success pm']. cbn [snd] in Hopts.
  unfold updateRte. run_pm. now rewrite Hopts, Hflag.
Qed.

End RteUpdate.

(* ===================================================================== *)
(** ** Generation stops at the first failure *)
(* ===================================================================== *)

Section Generation.

Context {R X : Type} (E : External R X).

(** X9.  The update of the RTE files made by [RunConfigure] does not
    touch the outcome of the configuration: [RunConfigure] returns what
    [Configure] returns, the context sequences, the set of failed contexts
    and the name of every item are as [Configure] left them, and what it
    adds to the trace is no call of [ProcessContext], [GenerateCbuild] or
    [GenerateCprj]. *)
Theorem RunConfigure_keeps_outcome (pm : ProjMgr R X) :
  (RunConfigure E pm).1 = (Configure E pm).1 /\
  same_results (Configure E pm).2 (RunConfigure E pm).2 /\
  (forall k, name (deref E (m_worker (RunConfigure E pm).2) k) =
             name (deref E (m_worker (Configure E pm).2) k)) /\
  exists evs, out (RunConfigure E pm).2 = out (Configure E pm).2 ++ evs /\
              no_calls evs.
Proof.
  unfold RunConfigure. run_pm.
  destruct (Configure E pm) as [success pm1]. cbn [fst snd].
  destruct (updateRte_facts E pm1) as [evs Hfacts].
  destruct (updateRte E pm1) as [[] pm2]. cbn [fst snd] in *.
  destruct Hfacts.
  split; [reflexivity|]. split; [now split|]. split; [assumption|].
  exists evs. now split.
Qed.

Lemma GenerateCbuildLoop_calls (l : list string) (pm : ProjMgr R X) :
  exists calls,
    GenerateCbuildLoop E l pm =
      (forallb (cbuild_ok E) calls,
       set_out (out pm ++ map (fun c => EvGenerateCbuild c.1 c.2) calls) pm) /\
    calls `prefix_of` map (cbuild_call E pm) l /\
    forallb (cbuild_ok E) (removelast calls) = true /\
    (forallb (cbuild_ok E) calls = true -> calls = map (cbuild_call E pm) l).
Proof.
  revert pm. induction l as [|k l IH]; intros pm.
  - exists []. cbn. rewrite app_nil_r, set_out_same.
    split; [reflexivity|]. split; [apply prefix_nil|]. auto.
  - cbn [GenerateCbuildLoop]. run_pm. fold (GenerateCbuildLoop E l).
    assert (Hcall : GenerateCbuild E (deref E (m_worker pm) k)
              (bool_decide (name (deref E (m_worker pm) k) ∈ m_failedContext pm)) =
            cbuild_ok E (cbuild_call E pm k)) by reflexivity.
    rewrite Hcall. clear Hcall.
    destruct (cbuild_ok E (cbuild_call E pm k)) eqn:Hok; cbn [negb].
    + match goal with
      | |- context [GenerateCbuildLoop E l ?s] =>
          destruct (IH s) as (calls & Hrun & Hpre & Hinit & Hall); rewrite Hrun
      end.
      exists (cbuild_call E pm k :: calls).
      split; [|split; [|split]].
      * cbn [forallb map]. rewrite Hok. cbn [andb]. f_equal.
        unfold set_out. cbn. now rewrite <- app_assoc.
      * cbn [map]. now apply prefix_cons.
      * destruct calls as [|c calls]; [reflexivity|].
        change (removelast (cbuild_call E pm k :: c :: calls))
          with (cbuild_call E pm k :: removelast (c :: calls)).
        cbn [forallb]. now rewrite Hok, Hinit.
      * cbn [forallb map]. rewrite Hok. cbn [andb]. intros Hcalls.
        f_equal. now apply Hall.
    + exists [cbuild_call E pm k].
      split; [|split; [|split]].
      * cbn [forallb map]. now rewrite Hok.
      * cbn [map]. apply prefix_cons, prefix_nil.
      * reflexivity.
      * cbn [forallb]. rewrite Hok. discriminate.
Qed.

Ltac same_state :=
  cbn [negb app]; rewrite ?app_nil_r, ?set_out_same;
  unfold set_out; simpl; rewrite ?app_nil_r, <- ?app_assoc; reflexivity.

Lemma GenerateYML_cases (pm : ProjMgr R X) :
  GenerateYMLConfigurationFiles E pm =
    if negb (cbuild_pack_succeeds E pm) then
      (false,
       set_out (out pm ++
         [EvGenerateCbuildPack (map (deref E (m_worker pm)) (m_processedContexts pm))
            (m_contextSet (opts pm) || negb (Nat.eqb (length (m_context (opts pm))) 0))
            (m_frozenPacks (opts pm))]) pm)
    else if negb (index_succeeds E (after_updateRte E pm)) then
      (false,
       set_out (out (after_updateRte E pm) ++ index_events E (after_updateRte E pm))
               (after_updateRte E pm))
    else if negb (cbuild_set_succeeds E (after_updateRte E pm)) then
      (false,
       set_out (out (after_updateRte E pm) ++ index_events E (after_updateRte E pm)
                ++ cbuild_set_events E (after_updateRte E pm))
               (after_updateRte E pm))
    else
      GenerateCbuildLoop E (m_processedContexts (after_updateRte E pm))
        (set_out (out (after_updateRte E pm) ++ index_events E (after_updateRte E pm)
                  ++ cbuild_set_events E (after_updateRte E pm))
                 (after_updateRte E pm)).
Proof.
  destruct (cbuild_pack_succeeds E pm) eqn:Hpack; cbn [negb].
  2:{ unfold GenerateYMLConfigurationFiles. run_pm.
      unfold cbuild_pack_succeeds in Hpack. rewrite Hpack. reflexivity. }
  destruct (index_succeeds E (after_updateRte E pm)) eqn:Hidx; cbn [negb].
  1: destruct (cbuild_set_succeeds E (after_updateRte E pm)) eqn:Hset; cbn [negb].
  1: now apply GenerateYML_reaches_cbuild.
  all: unfold GenerateYMLConfigurationFiles; run_pm;
    unfold cbuild_pack_succeeds in Hpack; rewrite Hpack; cbn [negb];
    fold (after_updateRte E pm);
    match goal with
    | |- (let (_, pm') := updateRte E ?st in _) = _ =>
        change st with (set_out (out pm ++
          [EvGenerateCbuildPack (map (deref E (m_worker pm)) (m_processedContexts pm))
             (m_contextSet (opts pm) || negb (Nat.eqb (length (m_context (opts pm))) 0))
             (m_frozenPacks (opts pm))]) pm);
        pose proof (eq_refl : (updateRte E st).2 = after_updateRte E pm) as HU;
        destruct (updateRte E st) as [[] pmU]
    end;
    simpl in HU; subst pmU;
    set (pmU := after_updateRte E pm) in *;
    unfold index_succeeds, index_events, cbuild_set_succeeds, cbuild_set_events in *.
  - destruct (negb (is_nil (m_allContexts pmU))); cbv beta iota zeta.
    + rewrite Hidx. cbn [negb].
      destruct (m_contextSet (opts pmU)); cbv beta iota zeta; [|discriminate].
      destruct (Nat.eqb (length (m_context (opts pmU))) 0
                && negb (Exists E (cbuildSetFileOf (m_parser pmU))));
        cbv beta iota zeta; [discriminate|].
      destruct (negb (is_nil (m_processedContexts pmU))); cbv beta iota zeta;
        [|discriminate].
      rewrite Hset. same_state.
    + cbn [negb].
      destruct (m_contextSet (opts pmU)); cbv beta iota zeta; [|discriminate].
      destruct (Nat.eqb (length (m_context (opts pmU))) 0
                && negb (Exists E (cbuildSetFileOf (m_parser pmU))));
        cbv beta iota zeta; [discriminate|].
      destruct (negb (is_nil (m_processedContexts pmU))); cbv beta iota zeta;
        [|discriminate].
      rewrite Hset. same_state.
  - destruct (negb (is_nil (m_allContexts pmU))); cbv beta iota zeta; [|discriminate].
    rewrite Hidx. same_state.
Qed.

Lemma cbuild_calls_of_calls (calls : list (ContextItem R * bool)) :
  cbuild_calls (map (fun c => EvGenerateCbuild c.1 c.2) calls) = calls.
Proof.
  induction calls as [|[it b] calls IH]; [reflexivity|]. simpl. f_equal. exact IH.
Qed.

(** X10.  [GenerateYMLConfigurationFiles] generates the cbuild files last
    and stops at the first failure.  The calls of [GenerateCbuild] are
    made for the processed contexts in their order, each with the flag
    telling whether the context failed, and form a prefix of that
    sequence; every call but the last one succeeded; none is made when the
    cbuild-pack, cbuild-idx or cbuild-set file could not be generated; the
    function returns true exactly when those three steps and every call
    succeeded, and then every processed context got its cbuild file. *)
Theorem GenerateYML_stops_at_first_failure (pm : ProjMgr R X) :
  exists evs,
    out (GenerateYMLConfigurationFiles E pm).2 = out pm ++ evs /\
    cbuild_calls evs `prefix_of`
      map (cbuild_call E (after_updateRte E pm)) (m_processedContexts pm) /\
    forallb (cbuild_ok E) (removelast (cbuild_calls evs)) = true /\
    (GenerateYMLConfigurationFiles E pm).1 =
      cbuild_pack_succeeds E pm && index_succeeds E (after_updateRte E pm)
      && cbuild_set_succeeds E (after_updateRte E pm)
      && forallb (cbuild_ok E) (cbuild_calls evs) /\
    (cbuild_pack_succeeds E pm && index_succeeds E (after_updateRte E pm)
     && cbuild_set_succeeds E (after_updateRte E pm) = false ->
     cbuild_calls evs = []) /\
    ((GenerateYMLConfigurationFiles E pm).1 = true ->
     cbuild_calls evs =
     map (cbuild_call E (after_updateRte E pm)) (m_processedContexts pm)).
Proof.
  rewrite GenerateYML_cases.
  destruct (after_updateRte_facts E pm) as [evsU HU].
  pose proof (index_events_quiet E (after_updateRte E pm)) as (_ & Hidx & _).
  pose proof (cbuild_set_events_quiet E (after_updateRte E pm)) as (_ & Hset & _).
  destruct (uf_quiet _ _ _ _ HU) as (_ & HqU & _).
  destruct (cbuild_pack_succeeds E pm); cbn [negb andb].
  2:{ eexists. split; [reflexivity|]. cbn.
      split; [apply prefix_nil|]. split; [reflexivity|]. split; [reflexivity|].
      split; [reflexivity|discriminate]. }
  destruct (index_succeeds E (after_updateRte E pm)); cbn [negb andb].
  2:{ exists (evsU ++ index_events E (after_updateRte E pm)).
      cbn [fst snd out set_out]. rewrite (uf_out _ _ _ _ HU), <- app_assoc.
      rewrite cbuild_calls_app, HqU, Hidx. cbn.
      split; [reflexivity|]. split; [apply prefix_nil|]. split; [reflexivity|].
      split; [reflexivity|]. split; [reflexivity|discriminate]. }
  destruct (cbuild_set_succeeds E (after_updateRte E pm)); cbn [negb andb].
  2:{ exists (evsU ++ index_events E (after_updateRte E pm)
              ++ cbuild_set_events E (after_updateRte E pm)).
      cbn [fst snd out set_out]. rewrite (uf_out _ _ _ _ HU), <- app_assoc.
      rewrite !cbuild_calls_app, HqU, Hidx, Hset. cbn.
      split; [reflexivity|]. split; [apply prefix_nil|]. split; [reflexivity|].
      split; [reflexivity|]. split; [reflexivity|discriminate]. }
  match goal with
  | |- context [GenerateCbuildLoop E ?l ?s] =>
      destruct (GenerateCbuildLoop_calls l s) as (calls & Hrun & Hpre & Hinit & Hall);
      rewrite Hrun
  end.
  change (cbuild_call E (set_out ?o ?s)) with (cbuild_call E s) in Hpre, Hall.
  rewrite (uf_processed _ _ _ _ HU) in Hpre, Hall.
  exists (evsU ++ (index_events E (after_updateRte E pm)
                   ++ cbuild_set_events E (after_updateRte E pm))
          ++ map (fun c => EvGenerateCbuild c.1 c.2) calls).
  cbn [fst snd out set_out]. rewrite (uf_out _ _ _ _ HU), <- !app_assoc.
  rewrite !cbuild_calls_app, HqU, Hidx, Hset, cbuild_calls_of_calls. cbn [app].
  split; [reflexivity|]. split; [exact Hpre|]. split; [exact Hinit|].
  split; [reflexivity|]. split; [discriminate|exact Hall].
Qed.





End Generation.

(* ===================================================================== *)
(** ** Commands and exit codes *)
(* ===================================================================== *)

Section ExitCodes.

Context {R X : Type} (E : External R X).






(** X13.  A command that [ProcessCommands] does not know is refused with
    an error and nothing else happens: for a command other than list,
    update-rte, convert and run the error is "<command> was not found";
    for list without an argument it is "list <args> was not specified",
    and with an argument that is none of the eleven known ones it is
    "list <args> was not found".  The exit code is 1 and the driver is
    unchanged but for the message. *)
Theorem ProcessCommands_rejects_unknown (pm : ProjMgr R X) :
  ~ (m_command (opts pm) = "list" /\
     m_args (opts pm) ∈
       ["packs"; "boards"; "devices"; "components"; "configs"; "dependencies";
        "contexts"; "generators"; "layers"; "toolchains"; "environment"] \/
     m_command (opts pm) ∈ ["update-rte"; "convert"; "run"]) ->
  ProcessCommands E pm =
    (ERROR,
     set_out (out pm ++
       [LogError ""
          (if String.eqb (m_command (opts pm)) "list" then
             if String.eqb (m_args (opts pm)) "" then "list <args> was not specified"
             else "list <args> was not found"
           else "<command> was not found")]) pm).
Proof.
  intros Hunknown.
  destruct (String.eqb_spec (m_command (opts pm)) "list") as [Hlist|Hlist].
  - assert (Hin : ~ m_args (opts pm) ∈
       ["packs"; "boards"; "devices"; "components"; "configs"; "dependencies";
        "contexts"; "generators"; "layers"; "toolchains"; "environment"])
      by (intros Hin; apply Hunknown; left; now split).
    unfold ProcessCommands. run_pm. rewrite Hlist. cbn [String.eqb Ascii.eqb Bool.eqb].
    destruct (String.eqb_spec (m_args (opts pm)) "") as [Hargs|Hargs].
    { rewrite Hargs. reflexivity. }
    assert (Hempty : is_empty (m_args (opts pm)) = false)
      by (destruct (m_args (opts pm)); [contradiction|reflexivity]).
    rewrite Hempty.
    repeat match goal with
    | |- context [String.eqb (m_args (opts pm)) ?s] =>
        destruct (String.eqb_spec (m_args (opts pm)) s) as [Heq|_];
        [exfalso; apply Hin; rewrite Heq; apply (bool_decide_unpack _);
         vm_compute; exact I|]
    end.
    rewrite bool_decide_eq_false_2; [reflexivity|].
    intros Hin'. apply Hin. revert Hin'. rewrite !elem_of_cons, !elem_of_nil. tauto.
  - assert (Hin : ~ m_command (opts pm) ∈ ["update-rte"; "convert"; "run"])
      by (intros Hin; apply Hunknown; now right).
    unfold ProcessCommands. run_pm.
    destruct (String.eqb_spec (m_command (opts pm)) "list") as [|_]; [contradiction|].
    repeat match goal with
    | |- context [String.eqb (m_command (opts pm)) ?s] =>
        destruct (String.eqb_spec (m_command (opts pm)) s) as [Heq|_];
        [exfalso; apply Hin; rewrite Heq; apply (bool_decide_unpack _);
         vm_compute; exact I|]
    end.
    reflexivity.
Qed.

End ExitCodes.

(* ===================================================================== *)
(** ** The listing commands *)
(* ===================================================================== *)

Section ListingCommands.

Context {R X : Type} (E : External R X) (L : Listing R X).

Lemma cout_lines_app (evs1 evs2 : list (Event R)) :
  cout_lines (evs1 ++ evs2) = cout_lines evs1 ++ cout_lines evs2.
Proof. apply omap_app. Qed.

Lemma cout_lines_map (lines : list string) :
  cout_lines (R:=R) (map Cout lines) = lines.
Proof. induction lines as [|a l IH]; [reflexivity|]. simpl. f_equal. exact IH. Qed.

Lemma populate_events_silent (evs : list (Event R)) :
  forallb is_populate_event evs = true -> cout_lines evs = [].
Proof.
  induction evs as [|e evs IH]; [reflexivity|]. cbn [forallb].
  intros [He Hevs]%andb_true_iff. destruct e; try discriminate; simpl; auto.
Qed.

Lemma callParseContextSelection_silent (pats : list string) (b : bool) (pm : ProjMgr R X) :
  exists evs,
    out (callParseContextSelection E pats b pm).2 = out pm ++ evs /\
    cout_lines evs = [].
Proof.
  unfold callParseContextSelection, ParseContextSelection. run_pm.
  destruct pats as [|p pats].
  - destruct b.
    + destruct (Exists E _); eexists; split; reflexivity.
    + eexists; split; reflexivity.
  - destruct (selection_aborts _ _); eexists; split; reflexivity.
Qed.

(** What the opening of a command leaves: the command-line members, and
    nothing written to [cout]. *)
Lemma PopulateAndSelect_facts (optionalSolution : bool) (pm : ProjMgr R X) :
  opts (PopulateAndSelect E optionalSolution pm).2 = opts pm /\
  exists evs,
    out (PopulateAndSelect E optionalSolution pm).2 = out pm ++ evs /\
    cout_lines evs = [].
Proof.
  assert (Hsel : forall pm1 evs1,
    opts pm1 = opts pm -> out pm1 = out pm ++ evs1 -> cout_lines evs1 = [] ->
    opts (callParseContextSelection E (m_context (opts pm1)) false pm1).2 = opts pm /\
    exists evs,
      out (callParseContextSelection E (m_context (opts pm1)) false pm1).2 = out pm ++ evs /\
      cout_lines evs = []).
  { intros pm1 evs1 Ho Hout Hsilent.
    rewrite callParseContextSelection_opts, Ho. split; [reflexivity|].
    destruct (callParseContextSelection_silent (m_context (opts pm)) false pm1)
      as (evs2 & Hout2 & Hsilent2).
    exists (evs1 ++ evs2). rewrite Hout2, Hout, <- app_assoc, cout_lines_app.
    now rewrite Hsilent, Hsilent2. }
  unfold PopulateAndSelect. run_pm.
  destruct (optionalSolution && is_empty (m_csolutionFile (opts pm))); cbv beta iota.
  - cbn [negb]. apply (Hsel pm []); [reflexivity| |reflexivity]. now rewrite app_nil_r.
  - destruct (PopulateContexts_facts E pm) as (evs & (Ho & _ & _ & Hout & Hev) & _).
    destruct (PopulateContexts E pm) as [populated pm1]. cbn [snd] in *.
    apply populate_events_silent in Hev.
    destruct populated; cbn [negb].
    + now apply (Hsel pm1 evs).
    + cbn [snd]. split; [exact Ho|]. exists evs. auto.
Qed.

Lemma last_snoc_event (evs : list (Event R)) (e : Event R) : last (evs ++ [e]) = Some e.
Proof. apply last_snoc. Qed.

(** X14.  [RunListBoards], [RunListDevices], [RunListComponents],
    [RunListConfigs] and [RunListDependencies] (the instances of
    [RunListItems]), and [RunListGenerators]: a command that fails writes
    nothing to [cout], and one that succeeds writes exactly the items the
    worker listed, one per line, in the worker's order.  When it is the
    listing that fails, the first five end with the error "processing
    <what> list failed". *)
Theorem list_commands_print_on_success (optionalSolution : bool)
    (listing : string -> ProjMgrWorker R X -> bool * list string * ProjMgrWorker R X)
    (what : string) (pm : ProjMgr R X) :
  let opened := PopulateAndSelect E optionalSolution pm in
  let listed := listing (m_filter (opts pm)) (m_worker opened.2) in
  let generators := ListGenerators L (m_worker (PopulateAndSelect E false pm).2) in
  ((RunListItems E optionalSolution listing what pm).1 = opened.1 && listed.1.1 /\
   exists evs,
     out (RunListItems E optionalSolution listing what pm).2 = out pm ++ evs /\
     cout_lines evs = (if opened.1 && listed.1.1 then listed.1.2 else []) /\
     (if opened.1 && negb listed.1.1
      then last evs = Some (LogError "" ("processing " +:+ what +:+ " list failed"))
      else True)) /\
  ((RunListGenerators E L pm).1 = (PopulateAndSelect E false pm).1 && generators.1.1 /\
   exists evs,
     out (RunListGenerators E L pm).2 = out pm ++ evs /\
     cout_lines evs =
       (if (PopulateAndSelect E false pm).1 && generators.1.1 then generators.1.2 else [])).
Proof.
  cbv zeta. split.
  - unfold RunListItems. run_pm.
    destruct (PopulateAndSelect_facts optionalSolution pm) as (Ho & evs & Hout & Hsilent).
    destruct (PopulateAndSelect E optionalSolution pm) as [selected pm1].
    cbn [fst snd] in *.
    destruct selected; cbn [negb andb fst snd].
    2:{ split; [reflexivity|]. exists evs. auto. }
    rewrite Ho.
    destruct (listing (m_filter (opts pm)) (m_worker pm1)) as [[ok items] w].
    destruct ok; cbn [negb fst snd].
    + split; [reflexivity|]. exists (evs ++ map Cout items).
      cbn [out set_out set_worker]. rewrite Hout, <- app_assoc, cout_lines_app.
      rewrite Hsilent, cout_lines_map. auto.
    + split; [reflexivity|].
      exists (evs ++ [LogError "" ("processing " +:+ what +:+ " list failed")]).
      cbn [out set_out set_worker]. rewrite Hout, <- app_assoc, cout_lines_app.
      rewrite Hsilent, last_snoc_event. auto.
  - unfold RunListGenerators. run_pm.
    destruct (PopulateAndSelect_facts false pm) as (Ho & evs & Hout & Hsilent).
    destruct (PopulateAndSelect E false pm) as [selected pm1].
    cbn [fst snd] in *.
    destruct selected; cbn [negb andb fst snd].
    2:{ split; [reflexivity|]. exists evs. auto. }
    destruct (ListGenerators L (m_worker pm1)) as [[ok generators] w].
    destruct ok; cbn [negb fst snd].
    + split; [reflexivity|]. exists (evs ++ map Cout generators).
      cbn [out set_out set_worker]. rewrite Hout, <- app_assoc, cout_lines_app.
      rewrite Hsilent, cout_lines_map. auto.
    + split; [reflexivity|]. exists evs. cbn [out set_worker]. auto.
Qed.

(** X15.  [RunListPacks] and [RunListToolchains] write what the worker put
    in the vector whatever the worker returned, and return the worker's
    result: once the inputs are populated and the selection is parsed, the
    packs, and the entries of the toolchains, are written even when the
    listing reports a failure. *)
Theorem packs_and_toolchains_print_anyway (pm : ProjMgr R X) :
  let opened := PopulateAndSelect E true pm in
  let packs :=
    ListPacks L (m_missingPacks (opts pm)) (m_filter (opts pm)) (m_worker opened.2) in
  let toolchains := ListToolchains L (m_worker opened.2) in
  ((RunListPacks E L pm).1 = opened.1 && packs.1.1 /\
   exists evs,
     out (RunListPacks E L pm).2 = out pm ++ evs /\
     cout_lines evs = (if opened.1 then packs.1.2 else [])) /\
  ((RunListToolchains E L pm).1 = opened.1 && toolchains.1.1 /\
   exists evs,
     out (RunListToolchains E L pm).2 = out pm ++ evs /\
     cout_lines evs =
       (if opened.1
        then map without_last (toolchainsSet (m_verbose (opts pm)) toolchains.1.2)
        else [])).
Proof.
  cbv zeta.
  destruct (PopulateAndSelect_facts true pm) as (Ho & evs & Hout & Hsilent).
  split.
  - unfold RunListPacks. run_pm.
    destruct (PopulateAndSelect E true pm) as [selected pm1].
    cbn [fst snd] in *.
    destruct selected; cbn [negb andb fst snd].
    2:{ split; [reflexivity|]. exists evs. auto. }
    rewrite Ho.
    destruct (ListPacks L _ _ (m_worker pm1)) as [[ok packs] w]. cbn [fst snd].
    split; [reflexivity|]. exists (evs ++ map Cout packs).
    cbn [out set_out set_worker]. rewrite Hout, <- app_assoc, cout_lines_app.
    rewrite Hsilent, cout_lines_map. auto.
  - unfold RunListToolchains. run_pm.
    destruct (PopulateAndSelect E true pm) as [selected pm1].
    cbn [fst snd] in *.
    destruct selected; cbn [negb andb fst snd].
    2:{ split; [reflexivity|]. exists evs. auto. }
    rewrite Ho.
    destruct (ListToolchains L (m_worker pm1)) as [[ok toolchains] w]. cbn [fst snd].
    split; [reflexivity|]. eexists.
    cbn [out set_out set_worker]. rewrite Hout, <- app_assoc.
    split; [reflexivity|]. rewrite cout_lines_app, Hsilent. cbn [app].
    rewrite <- (cout_lines_map (map without_last _)), map_map. reflexivity.
Qed.

End ListingCommands.

(* ===================================================================== *)
(** ** The set of toolchain entries *)
(* ===================================================================== *)

Lemma ltb_irrefl (x : string) : String.ltb x x = false.
Proof.
  unfold String.ltb. pose proof (String.compare_antisym x x) as Hc.
  destruct (String.compare x x); simpl in *; try reflexivity; discriminate.
Qed.

Lemma ltb_trans (x y z : string) :
  String.ltb x y = true -> String.ltb y z = true -> String.ltb x z = true.
Proof.
  intros Hxy Hyz.
  assert (Hle : String.le x z)
    by (transitivity y; now apply ltb_le).
  destruct (String.ltb x z) eqn:Hxz; [reflexivity|].
  apply not_ltb_le in Hxz.
  assert (Heq : x = z) by (apply (anti_symm String.le); assumption).
  subst z. apply ltb_le in Hxy. apply ltb_le in Hyz as Hyx.
  assert (Heq : x = y) by (apply (anti_symm String.le); assumption).
  subst y. rewrite ltb_irrefl in Hyz. discriminate.
Qed.

Lemma ltb_trichotomy (x y : string) :
  String.ltb x y = false -> String.eqb x y = false -> String.ltb y x = true.
Proof.
  unfold String.ltb. intros Hlt Hne.
  rewrite String.compare_antisym.
  destruct (String.compare x y) eqn:Hc; try discriminate; [|reflexivity].
  apply String.compare_eq_iff in Hc. subst y. now rewrite String.eqb_refl in Hne.
Qed.

Lemma set_insert_elem_of (x e : string) (s : list string) :
  e ∈ set_insert x s <-> e = x \/ e ∈ s.
Proof.
  induction s as [|y s IH]; cbn [set_insert].
  - rewrite list_elem_of_singleton, elem_of_nil. tauto.
  - destruct (String.ltb x y); [apply elem_of_cons|].
    destruct (String.eqb_spec x y) as [->|Hne].
    + rewrite elem_of_cons. tauto.
    + rewrite !elem_of_cons, IH. tauto.
Qed.

Lemma set_insert_sorted (x : string) (s : list string) :
  StronglySorted (fun a b => String.ltb a b = true) s ->
  StronglySorted (fun a b => String.ltb a b = true) (set_insert x s).
Proof.
  induction 1 as [|y s Hs IH Hy]; cbn [set_insert].
  - repeat constructor.
  - destruct (String.ltb x y) eqn:Hxy.
    + constructor; [now constructor|]. constructor; [exact Hxy|].
      rewrite Forall_forall in Hy |- *. intros z Hz.
      apply (ltb_trans x y z); [exact Hxy|now apply Hy].
    + destruct (String.eqb x y) eqn:Heq; [now constructor|].
      constructor; [exact IH|].
      rewrite Forall_forall in Hy |- *. intros z Hz.
      apply set_insert_elem_of in Hz as [->|Hz]; [|now apply Hy].
      now apply ltb_trichotomy.
Qed.

Lemma without_last_cons (a b : ascii) (s : string) :
  without_last (String a (String b s)) = String a (without_last (String b s)).
Proof. reflexivity. Qed.

Lemma without_last_snoc (s : string) (c : ascii) :
  without_last (s +:+ String c "") = s.
Proof.
  induction s as [|a s IH]; [reflexivity|].
  rewrite app_cons.
  assert (Hs : exists b s', s +:+ String c "" = String b s')
    by (destruct s; [now exists c, ""|rewrite app_cons; eauto]).
  destruct Hs as (b & s' & Hs).
  rewrite Hs, without_last_cons, <- Hs, IH. reflexivity.
Qed.

Lemma append_assoc (a b c : string) : (a +:+ b) +:+ c = a +:+ (b +:+ c).
Proof.
  induction a as [|x a IH]; [reflexivity|]. rewrite !app_cons. now rewrite IH.
Qed.

(** Every entry ends with a newline. *)
Lemma toolchainEntry_newline (verbose : bool) (toolchain : ToolchainItem) :
  without_last (toolchainEntry verbose toolchain) +:+ newline =
  toolchainEntry verbose toolchain.
Proof.
  assert (Hsnoc : forall s, without_last (s +:+ newline) +:+ newline = s +:+ newline)
    by (intros s; unfold newline; now rewrite without_last_snoc).
  unfold toolchainEntry.
  destruct verbose.
  - destruct (negb (is_empty (tc_config toolchain)));
      destruct (negb (is_empty (tc_root toolchain)));
      rewrite <- ?append_assoc; apply Hsnoc.
  - rewrite <- ?append_assoc. apply Hsnoc.
Qed.

(** X16.  The entries [RunListToolchains] writes come out of a set: they
    are in strictly ascending order, so none is written twice however
    often the worker lists a toolchain; an entry is written exactly when
    it is the entry of one of the listed toolchains; and every entry ends
    with a newline. *)
Theorem toolchainsSet_sorted_unique (verbose : bool) (toolchains : list ToolchainItem) :
  StronglySorted (fun a b => String.ltb a b = true) (toolchainsSet verbose toolchains) /\
  NoDup (toolchainsSet verbose toolchains) /\
  (forall entry,
     entry ∈ toolchainsSet verbose toolchains <->
     exists toolchain, toolchain ∈ toolchains /\ entry = toolchainEntry verbose toolchain) /\
  Forall (fun entry => without_last entry +:+ newline = entry)
         (toolchainsSet verbose toolchains).
Proof.
  unfold toolchainsSet.
  assert (Hgen : forall s,
    StronglySorted (fun a b => String.ltb a b = true) s ->
    StronglySorted (fun a b => String.ltb a b = true)
      (fold_left (fun s t => set_insert (toolchainEntry verbose t) s) toolchains s) /\
    forall entry,
      entry ∈ fold_left (fun s t => set_insert (toolchainEntry verbose t) s) toolchains s <->
      entry ∈ s \/
      exists toolchain, toolchain ∈ toolchains /\ entry = toolchainEntry verbose toolchain).
  { induction toolchains as [|t ts IH]; intros s Hs; cbn [fold_left].
    - split; [exact Hs|]. intros entry. split; [auto|].
      intros [Hin|(t & Hin & _)]; [exact Hin|]. now apply elem_of_nil in Hin.
    - destruct (IH (set_insert (toolchainEntry verbose t) s)) as [Hsorted Hmem];
        [now apply set_insert_sorted|].
      split; [exact Hsorted|]. intros entry. rewrite Hmem, set_insert_elem_of.
      split.
      + intros [[->|Hin]|(t' & Hin & ->)].
        * right. exists t. split; [apply list_elem_of_here|reflexivity].
        * now left.
        * right. exists t'. split; [now apply list_elem_of_further|reflexivity].
      + intros [Hin|(t' & Hin & ->)]; [left; now right|].
        apply elem_of_cons in Hin as [->|Hin]; [left; now left|].
        right. now exists t'. }
  destruct (Hgen [] (SSorted_nil _)) as [Hsorted Hmem].
  split; [exact Hsorted|]. split; [|split].
  - clear Hmem. induction Hsorted as [|a l Hl IH Ha]; constructor; [|exact IH].
    intros Hin. rewrite Forall_forall in Ha. specialize (Ha a Hin).
    now rewrite ltb_irrefl in Ha.
  - intros entry. rewrite Hmem. split.
    + intros [Hin|H]; [now apply elem_of_nil in Hin|exact H].
    + auto.
  - rewrite Forall_forall. intros entry Hin. apply Hmem in Hin as [Hin|(t & _ & ->)].
    + now apply elem_of_nil in Hin.
    + apply toolchainEntry_newline.
Qed.

(* ===================================================================== *)
(** ** Inputs of the commands *)
(* ===================================================================== *)

Section CommandInputs.

Context {R X : Type} (E : External R X) (L : Listing R X).

Lemma PopulateContexts_without_csolution (pm : ProjMgr R X) :
  m_csolutionFile (opts pm) = "" ->
  PopulateContexts E pm =
    (false, set_out (out pm ++ [LogError "" "input yml files were not specified"]) pm).
Proof. intros Hfile. unfold PopulateContexts. run_pm. now rewrite Hfile. Qed.

(** X17.  Without a csolution file, the commands for which it is
    mandatory stop at once with the one error "input yml files were not
    specified" and change nothing else: [Configure] (update-rte,
    convert), [RunListContexts], [RunListDependencies],
    [RunListGenerators] and [RunCodeGenerator]; the last one checks the
    generator identifier first and reports that error alone when it is
    missing.  The commands for which the csolution file is optional go
    straight to the context selection. *)
Theorem commands_without_csolution (pm : ProjMgr R X) :
  m_csolutionFile (opts pm) = "" ->
  let refused : bool * ProjMgr R X :=
    (false, set_out (out pm ++ [LogError "" "input yml files were not specified"]) pm) in
  Configure E pm = refused /\
  RunListContexts E pm = refused /\
  RunListDependencies E L pm = refused /\
  RunListGenerators E L pm = refused /\
  RunCodeGenerator E L pm =
    (if is_empty (m_codeGenerator (opts pm)) then
       (false,
        set_out (out pm ++ [LogError "" "generator identifier was not specified"]) pm)
     else refused) /\
  PopulateAndSelect E true pm = callParseContextSelection E (m_context (opts pm)) false pm.
Proof.
  intros Hfile refused. subst refused.
  pose proof (PopulateContexts_without_csolution pm Hfile) as Hpop.
  assert (Hopen : PopulateAndSelect E false pm =
            (false, set_out (out pm ++ [LogError "" "input yml files were not specified"]) pm)).
  { unfold PopulateAndSelect. run_pm. cbn [andb]. now rewrite Hpop. }
  split; [|split; [|split; [|split; [|split]]]].
  - unfold Configure. run_pm. now rewrite Hpop.
  - unfold RunListContexts. run_pm. now rewrite Hpop.
  - unfold RunListDependencies, RunListItems. run_pm. now rewrite Hopen.
  - unfold RunListGenerators. run_pm. now rewrite Hopen.
  - unfold RunCodeGenerator. run_pm.
    destruct (is_empty (m_codeGenerator (opts pm))); [reflexivity|].
    now rewrite Hopen.
  - unfold PopulateAndSelect. run_pm. rewrite Hfile. reflexivity.
Qed.

(** X18.  [RunListEnvironment] always returns true and changes nothing
    but the trace, to which it adds exactly these lines: the pack root
    and the compiler root, in this order, each root being written as it
    is when it is set and as "<Not Found>" when it is empty, so that no
    line has an empty value; and a third line about long path names,
    "enabled" or "disabled", exactly when the platform supports the
    query. *)
Theorem RunListEnvironment_lines (pm : ProjMgr R X) :
  let env := ListEnvironment L (m_worker pm) in
  let written (root : string) := if is_empty root then "<Not Found>" else root in
  RunListEnvironment L pm =
    (true,
     set_out (out pm ++
              map Cout
                (["CMSIS_PACK_ROOT=" +:+ written (cmsis_pack_root env);
                  "CMSIS_COMPILER_ROOT=" +:+ written (cmsis_compiler_root env)] ++
                 match GetLongPathRegStatus L with
                 | ENABLED => ["Long pathname support=enabled"]
                 | DISABLED => ["Long pathname support=disabled"]
                 | NOT_SUPPORTED => []
                 end)) pm) /\
  written (cmsis_pack_root env) <> "" /\
  written (cmsis_compiler_root env) <> "" /\
  (cmsis_pack_root env <> "" -> written (cmsis_pack_root env) = cmsis_pack_root env) /\
  (cmsis_compiler_root env <> "" ->
   written (cmsis_compiler_root env) = cmsis_compiler_root env).
Proof.
  cbv zeta.
  assert (Hroot : forall v, (if is_empty v then "<Not Found>" else v) <> "")
    by (intros [|c v]; cbn; discriminate).
  assert (Hset : forall v, v <> "" -> (if is_empty v then "<Not Found>" else v) = v)
    by (intros [|c v]; [contradiction|reflexivity]).
  split; [|auto].
  unfold RunListEnvironment. run_pm.
  destruct (GetLongPathRegStatus L);
    unfold set_out; cbn; rewrite <- !app_assoc; reflexivity.
Qed.

End CommandInputs.

(* ===================================================================== *)
(** ** The positional arguments *)
(* ===================================================================== *)

Lemma set_positional_same (o : Options) :
  set_positional (m_csolutionFile o) (m_command o) (m_args o) o = o.
Proof. now destruct o. Qed.

Lemma filter_last_cons (f : string -> bool) (it : string) (l : list string) (d : string) :
  default d (last (List.filter f (it :: l))) =
  default (if f it then it else d) (last (List.filter f l)).
Proof.
  cbn [List.filter]. destruct (f it); [|reflexivity].
  destruct (List.filter f l) as [|a l'] eqn:Hl; [reflexivity|].
  rewrite last_cons. destruct (last (a :: l')) eqn:Hlast; [reflexivity|].
  apply last_None in Hlast. discriminate.
Qed.

(** Once the command and its argument are assigned, only csolution files
    are taken. *)
Lemma AssignPositionalArguments_full (is_csolution : string -> bool)
    (positionalArguments : list string) (o : Options) :
  is_empty (m_command o) = false -> is_empty (m_args o) = false ->
  AssignPositionalArguments is_csolution positionalArguments o =
    set_positional
      (default (m_csolutionFile o) (last (List.filter is_csolution positionalArguments)))
      (m_command o) (m_args o) o.
Proof.
  revert o. induction positionalArguments as [|it rest IH]; intros o Hc Ha.
  - cbn. now rewrite set_positional_same.
  - cbn [AssignPositionalArguments]. rewrite filter_last_cons, Hc, Ha.
    destruct (is_csolution it).
    + rewrite IH by assumption. reflexivity.
    + now apply IH.
Qed.

Lemma AssignPositionalArguments_args (is_csolution : string -> bool)
    (positionalArguments : list string) (o : Options) :
  is_empty (m_command o) = false -> is_empty (m_args o) = true ->
  AssignPositionalArguments is_csolution positionalArguments o =
    set_positional
      (default (m_csolutionFile o) (last (List.filter is_csolution positionalArguments)))
      (m_command o)
      (nth 0 (command_words is_csolution positionalArguments) "") o.
Proof.
  revert o. induction positionalArguments as [|it rest IH]; intros o Hc Ha.
  - cbn. destruct o as [f c a]. cbn in *. destruct a; [reflexivity|discriminate].
  - cbn [AssignPositionalArguments]. rewrite filter_last_cons, Hc, Ha.
    unfold command_words. cbn [List.filter].
    destruct (is_csolution it); cbn [negb andb].
    + rewrite IH by assumption. reflexivity.
    + destruct (is_empty it) eqn:Hit; cbn [negb nth].
      * destruct it; [|discriminate].
        assert (Ho : set_positional (m_csolutionFile o) (m_command o) "" o = o).
        { destruct o as [f c a]. cbn in *. destruct a; [reflexivity|discriminate]. }
        rewrite Ho. now apply IH.
      * rewrite AssignPositionalArguments_full by assumption. reflexivity.
Qed.

(** X19.  The loop of [ParseCommandLine] over the positional arguments,
    started on a new [ProjMgr]: the csolution file is the last argument
    that matches the pattern of csolution files, wherever it stands; the
    command and its argument are the first and the second of the other
    non-empty arguments; further arguments are dropped without a message;
    no other member changes. *)
Theorem positional_arguments_assignment (is_csolution : string -> bool)
    (positionalArguments : list string) :
  AssignPositionalArguments is_csolution positionalArguments Options_init =
    set_positional
      (default "" (last (List.filter is_csolution positionalArguments)))
      (nth 0 (command_words is_csolution positionalArguments) "")
      (nth 1 (command_words is_csolution positionalArguments) "")
      Options_init.
Proof.
  assert (Hgen : forall o, is_empty (m_command o) = true -> is_empty (m_args o) = true ->
    AssignPositionalArguments is_csolution positionalArguments o =
      set_positional
        (default (m_csolutionFile o) (last (List.filter is_csolution positionalArguments)))
        (nth 0 (command_words is_csolution positionalArguments) "")
        (nth 1 (command_words is_csolution positionalArguments) "") o).
  { induction positionalArguments as [|it rest IH]; intros o Hc Ha.
    - cbn. destruct o as [f c a]. cbn in *.
      destruct c; [|discriminate]. destruct a; [reflexivity|discriminate].
    - cbn [AssignPositionalArguments]. rewrite filter_last_cons, Hc.
      unfold command_words. cbn [List.filter].
      destruct (is_csolution it); cbn [negb andb].
      + rewrite IH by assumption. reflexivity.
      + destruct (is_empty it) eqn:Hit; cbn [negb nth].
        * destruct it; [|discriminate].
          assert (Ho : set_positional (m_csolutionFile o) "" (m_args o) o = o).
          { destruct o as [f c a]. cbn in *. destruct c; [reflexivity|discriminate]. }
          rewrite Ho. now apply IH.
        * rewrite AssignPositionalArguments_args by assumption. reflexivity. }
  now apply Hgen.
Qed.

(* ===================================================================== *)
(** ** What the commands write *)
(* ===================================================================== *)

Section CommandOutput.

Context {R X : Type} (E : External R X).

(** X20.  [RunListContexts] writes nothing to [cout] when it fails, and
    when it succeeds it writes exactly the contexts the worker listed, one
    per line, in the worker's order; when it is the listing that fails
    the last event is the error "processing contexts list failed". *)
Theorem RunListContexts_prints_on_success (pm : ProjMgr R X) :
  let populated := PopulateContexts E pm in
  let listed :=
    ListContexts E (m_worker populated.2) (m_filter (opts pm)) (m_ymlOrder (opts pm)) in
  (RunListContexts E pm).1 = populated.1 && listed.1 /\
  exists evs,
    out (RunListContexts E pm).2 = out pm ++ evs /\
    cout_lines evs = (if populated.1 && listed.1 then listed.2 else []) /\
    (if populated.1 && negb listed.1
     then last evs = Some (LogError "" "processing contexts list failed")
     else True).
Proof.
  cbv zeta. unfold RunListContexts. run_pm.
  destruct (PopulateContexts_facts E pm) as (evs & (Ho & _ & _ & Hout & Hev) & _).
  apply populate_events_silent in Hev.
  destruct (PopulateContexts E pm) as [populated pm1]. cbn [fst snd] in *.
  destruct populated; cbn [negb andb].
  2:{ split; [reflexivity|]. exists evs. auto. }
  rewrite Ho.
  destruct (ListContexts E (m_worker pm1) (m_filter (opts pm)) (m_ymlOrder (opts pm)))
    as [ok contexts].
  destruct ok; cbn [negb fst snd].
  - split; [reflexivity|]. exists (evs ++ map Cout contexts).
    cbn [out set_out]. rewrite Hout, <- app_assoc, cout_lines_app.
    rewrite Hev, cout_lines_map. auto.
  - split; [reflexivity|].
    exists (evs ++ [LogError "" "processing contexts list failed"]).
    cbn [out set_out]. rewrite Hout, <- app_assoc, cout_lines_app.
    rewrite Hev, last_snoc_event. auto.
Qed.

Lemma index_calls_app (evs1 evs2 : list (Event R)) :
  index_calls (evs1 ++ evs2) = index_calls evs1 ++ index_calls evs2.
Proof. apply omap_app. Qed.

Lemma index_calls_lines (lines : list string) :
  index_calls (R:=R) (map Cout lines) = [].
Proof. induction lines as [|a l IH]; [reflexivity|]. exact IH. Qed.

Lemma populate_events_no_index (evs : list (Event R)) :
  forallb is_populate_event evs = true -> index_calls evs = [].
Proof.
  induction evs as [|e evs IH]; [reflexivity|]. cbn [forallb].
  intros [He Hevs]%andb_true_iff. destruct e; try discriminate; simpl; auto.
Qed.

Lemma callParseContextSelection_no_index (pats : list string) (b : bool)
    (pm : ProjMgr R X) :
  exists evs,
    out (callParseContextSelection E pats b pm).2 = out pm ++ evs /\
    cout_lines evs = [] /\ index_calls evs = [].
Proof.
  unfold callParseContextSelection, ParseContextSelection. run_pm.
  destruct pats as [|p pats].
  - destruct b.
    + destruct (Exists E _); eexists; split; try reflexivity; split; reflexivity.
    + eexists; split; try reflexivity; split; reflexivity.
  - destruct (selection_aborts _ _); eexists; split; try reflexivity; split; reflexivity.
Qed.

(** X21.  [RunListLayers], whatever happens: it writes layers to [cout]
    only when it returns true and the update-index mode is off; it calls
    [GenerateCbuildIndex] at most once, and never when the mode is off. *)
Theorem RunListLayers_output (pm : ProjMgr R X) :
  exists evs,
    out (RunListLayers E pm).2 = out pm ++ evs /\
    (if (RunListLayers E pm).1 && negb (m_updateIdx (opts pm)) then True
     else cout_lines evs = []) /\
    (length (index_calls evs) <= 1)%nat /\
    (if m_updateIdx (opts pm) then True else index_calls evs = []).
Proof.
  unfold RunListLayers. run_pm.
  assert (Hpop : exists populated pm1 evs1,
    (if negb (is_empty (m_csolutionFile (opts pm)))
     then PopulateContexts E else fun pm0 : ProjMgr R X => (true, pm0)) pm
    = (populated, pm1) /\
    opts pm1 = opts pm /\ out pm1 = out pm ++ evs1 /\
    cout_lines evs1 = [] /\ index_calls evs1 = []).
  { destruct (negb (is_empty (m_csolutionFile (opts pm)))).
    - destruct (PopulateContexts_facts E pm) as (evs & (Ho & _ & _ & Hout & Hev) & _).
      destruct (PopulateContexts E pm) as [populated pm1]. cbn [snd] in *.
      exists populated, pm1, evs. split; [reflexivity|].
      split; [exact Ho|]. split; [exact Hout|].
      split; [now apply populate_events_silent|now apply populate_events_no_index].
    - exists true, pm, []. rewrite app_nil_r. auto 6. }
  destruct Hpop as (populated & pm1 & evs1 & -> & Ho1 & Hout1 & Hc1 & Hi1).
  destruct populated; cbn [negb].
  2:{ exists evs1. cbn [fst snd andb]. rewrite Hi1. cbn.
      split; [exact Hout1|]. split; [exact Hc1|]. split; [lia|].
      now destruct (m_updateIdx (opts pm)). }
  destruct (callParseContextSelection_no_index (m_context (opts pm)) false pm1)
    as (evs2 & Hout2 & Hc2 & Hi2).
  pose proof (callParseContextSelection_opts E (m_context (opts pm)) false pm1) as Ho2.
  destruct (callParseContextSelection E (m_context (opts pm)) false pm1) as [selected pm2].
  cbn [fst snd] in *.
  assert (Hout12 : out pm2 = out pm ++ (evs1 ++ evs2))
    by (now rewrite Hout2, Hout1, <- app_assoc).
  assert (Hc12 : cout_lines (evs1 ++ evs2) = [])
    by (now rewrite cout_lines_app, Hc1, Hc2).
  assert (Hi12 : index_calls (evs1 ++ evs2) = [])
    by (now rewrite index_calls_app, Hi1, Hi2).
  assert (Hopts : opts pm2 = opts pm) by congruence.
  destruct selected; cbn [negb].
  2:{ exists (evs1 ++ evs2). cbn [fst snd andb]. rewrite Hi12. cbn.
      split; [exact Hout12|]. split; [exact Hc12|]. split; [lia|].
      now destruct (m_updateIdx (opts pm)). }
  destruct (ListLayers E (m_clayerSearchPath (opts pm2)) (m_worker pm2)) as [[ok layers] w].
  destruct ok; cbn [negb].
  2:{ exists (evs1 ++ evs2). cbn [fst snd andb out set_worker]. rewrite Hi12. cbn.
      split; [exact Hout12|]. split; [exact Hc12|]. split; [lia|].
      now destruct (m_updateIdx (opts pm)). }
  rewrite Hopts.
  destruct (m_updateIdx (opts pm)) eqn:Hidx; cbn [negb].
  - destruct (CollectAllContexts_facts E
                (GetYmlOrderedContexts (m_worker (set_worker w pm2))) (set_worker w pm2))
      as (w' & Hcollect & _).
    rewrite Hcollect. cbv beta iota.
    match goal with
    | |- context [is_nil ?l] => destruct (is_nil l)
    end; cbn [negb].
    + exists (evs1 ++ evs2). cbn [fst snd andb out set_worker set_allContexts].
      rewrite Hi12. cbn. auto.
    + match goal with
      | |- context [GenerateCbuildIndex E ?p ?a ?d] =>
          destruct (GenerateCbuildIndex E p a d)
      end; cbn [negb];
        eexists; cbn [fst snd andb out set_out set_worker set_allContexts];
        rewrite Hout12, <- app_assoc;
        (split; [reflexivity|]);
        rewrite cout_lines_app, index_calls_app, Hc12, Hi12; cbn; auto.
  - exists ((evs1 ++ evs2) ++ map Cout layers).
    cbn [fst snd andb out set_out set_worker].
    rewrite Hout12, <- app_assoc, index_calls_app, Hi12, index_calls_lines. cbn.
    split; [now rewrite <- app_assoc|]. auto.
Qed.

Lemma concat_cons (x : string) (xs : list string) :
  String.concat "" (x :: xs) = x +:+ String.concat "" xs.
Proof. destruct xs; [symmetry; apply append_empty_r|reflexivity]. Qed.

(** The message about the config files: the header, then every file in
    order, each on a line of its own after two spaces. *)
Lemma configFilesInfo_lines (configFiles : list string) :
  configFilesInfo configFiles =
  "config files for each component:" +:+
  String.concat "" (map (fun configFile => newline +:+ "  " +:+ configFile) configFiles).
Proof.
  unfold configFilesInfo.
  generalize "config files for each component:" as infoMsg.
  induction configFiles as [|f files IH]; intros infoMsg.
  - cbn. symmetry. apply append_empty_r.
  - cbn [fold_left map]. rewrite IH, concat_cons, append_assoc. reflexivity.
Qed.

Lemma infos_app (evs1 evs2 : list (Event R)) :
  infos (evs1 ++ evs2) = infos evs1 ++ infos evs2.
Proof. apply omap_app. Qed.

Lemma processing_events_no_info (evs : list (Event R)) :
  forallb is_processing_event evs = true -> infos evs = [].
Proof.
  induction evs as [|e evs IH]; [reflexivity|]. cbn [forallb].
  intros [He Hevs]%andb_true_iff. destruct e; try discriminate; simpl; auto.
Qed.

Lemma infos_diagnostics (l : list string) :
  infos (R:=R) (map DiagMissingFilter l) = [].
Proof. induction l as [|a l IH]; [reflexivity|]. exact IH. Qed.

(** X22.  Once [Configure] has processed the contexts it passes one
    message to [ProjMgrLogger::Info], in verbose mode and when the worker
    lists at least one config file, and none otherwise, failed contexts or
    not.  The message is the header "config files for each component:"
    followed by every config file in the worker's order, each on a line of
    its own after two spaces. *)
Theorem Configure_verbose_info (pm pm1 pm2 : ProjMgr R X) :
  reaches_processing E pm pm1 pm2 ->
  let configFiles := ListConfigFiles E (m_worker (Configure E pm).2) in
  exists evs,
    out (Configure E pm).2 = out pm2 ++ evs /\
    infos evs =
      (if m_verbose (opts pm) && negb (is_nil configFiles) then
         [("", "config files for each component:" +:+
               String.concat ""
                 (map (fun configFile => newline +:+ "  " +:+ configFile) configFiles))]
       else []).
Proof.
  intros Hreach. cbv zeta.
  rewrite (Configure_reaches_processing E _ _ _ Hreach).
  destruct Hreach as [Hpop Hsel].
  assert (Hopts : opts pm2 = opts pm).
  { pose proof (callParseContextSelection_opts E (m_context (opts pm1))
                  (checkCbuildSet (opts pm1)) pm1) as Ho2.
    rewrite Hsel in Ho2. cbn [snd] in Ho2. rewrite Ho2.
    destruct (PopulateContexts_facts E pm) as (evs & (Ho & _) & _).
    now rewrite Hpop in Ho. }
  rewrite <- Hopts. clear Hpop Hsel Hopts.
  unfold ProcessSelectedContexts. run_pm.
  destruct (ConfigureLoop E _ _ _) as [err pm'] eqn:Hloop.
  destruct (ConfigureLoop_facts E _ _ _ _ _ Hloop) as [evs Hfacts].
  pose proof (lf_out _ _ _ _ _ _ _ Hfacts) as lf_out0.
  pose proof (lf_events _ _ _ _ _ _ _ Hfacts) as lf_events0.
  destruct (lf_frame _ _ _ _ _ _ _ Hfacts) as (Ho & _).
  cbn [out opts set_failedContext set_processedContexts set_allContexts] in Ho, lf_out0.
  apply processing_events_no_info in lf_events0.
  rewrite <- Ho.
  destruct (m_verbose (opts pm')); cbn [andb].
  - destruct (is_nil (ListConfigFiles E (m_worker pm'))) eqn:Hnil; cbn [negb snd].
    + eexists. cbn [out set_out set_selectedToolchain m_worker].
      rewrite lf_out0, <- app_assoc. split; [reflexivity|].
      rewrite Hnil. cbn [negb].
      unfold PrintMissingFilters. now rewrite infos_app, lf_events0, infos_diagnostics.
    + eexists. cbn [out set_out set_selectedToolchain m_worker].
      rewrite lf_out0, <- !app_assoc. split; [reflexivity|].
      rewrite Hnil. cbn [negb].
      unfold PrintMissingFilters.
      rewrite !infos_app, lf_events0, infos_diagnostics, configFilesInfo_lines.
      reflexivity.
  - eexists. cbn [snd out set_out set_selectedToolchain m_worker].
    rewrite lf_out0, <- app_assoc. split; [reflexivity|].
    unfold PrintMissingFilters. now rewrite infos_app, lf_events0, infos_diagnostics.
Qed.

End CommandOutput.

(* ===================================================================== *)
(** ** Help on the commands *)
(* ===================================================================== *)

Lemma dict_find_keys {A : Type} (dict : list (string * A)) (key : string) :
  is_some (dict_find dict key) = bool_decide (key ∈ map fst dict).
Proof.
  induction dict as [|[k a] dict IH]; cbn [dict_find map fst].
  - symmetry. apply bool_decide_eq_false_2, not_elem_of_nil.
  - destruct (String.eqb_spec k key) as [->|Hne].
    + symmetry. apply bool_decide_eq_true_2, list_elem_of_here.
    + rewrite IH. apply bool_decide_ext. rewrite elem_of_cons.
      split; [auto|]. intros [Heq|Hin]; [congruence|exact Hin].
Qed.

(** A text with a space in it is no text without a space. *)
Lemma no_space_app (s t : string) : no_space (s +:+ String " " t) = false.
Proof.
  induction s as [|c s IH]; [reflexivity|].
  rewrite app_cons. cbn [no_space]. rewrite IH. apply andb_false_r.
Qed.

(** A text is cut at its first space in one way only. *)
Lemma first_space_unique (s1 t1 s2 t2 : string) :
  no_space s1 = true -> no_space s2 = true ->
  s1 +:+ String " " t1 = s2 +:+ String " " t2 -> s1 = s2 /\ t1 = t2.
Proof.
  revert s2. induction s1 as [|c s1 IH]; intros [|d s2] H1 H2 Heq.
  - rewrite !app_nil_l in Heq. injection Heq as ->. auto.
  - rewrite app_nil_l, app_cons in Heq. injection Heq as <- _.
    cbn in H2. discriminate.
  - rewrite app_nil_l, app_cons in Heq. injection Heq as -> _.
    cbn in H1. discriminate.
  - rewrite !app_cons in Heq. injection Heq as -> Heq.
    cbn [no_space] in H1, H2.
    apply andb_true_iff in H1 as [_ H1]. apply andb_true_iff in H2 as [_ H2].
    destruct (IH s2 H1 H2 Heq) as [-> ->]. auto.
Qed.

Section Help.

Context {R X : Type} (C : Console).

(** X23.  [PrintUsage] on the dictionary of [ParseCommandLine], for a
    command without a space in it: the help is shown, the function
    returning true, exactly when no command is given, or the command is
    list with one of its eleven arguments, or it is update-rte, convert or
    run without an argument.  In every other case the function returns
    false, writes nothing to [cout], and the error names what was asked
    for; when it returns true it has written two texts, the signature
    first. *)
Theorem PrintUsage_known_commands (cmd subCmd : string) (pm : ProjMgr R X) :
  no_space cmd = true ->
  let shown := PrintUsage C CommandLine.optionsDict cmd subCmd pm in
  (shown.1 = true <->
   (cmd = "" /\ subCmd = "") \/
   (cmd = "list" /\
    subCmd ∈ ["packs"; "boards"; "devices"; "components"; "configs"; "dependencies";
              "contexts"; "generators"; "layers"; "toolchains"; "environment"]) \/
   (cmd ∈ ["update-rte"; "convert"; "run"] /\ subCmd = "")) /\
  exists evs,
    shown.2 = set_out (out pm ++ evs) pm /\
    (if shown.1 then
       exists text,
         cout_lines evs =
           ["csolution: Project Manager " +:+ VERSION_STRING C +:+ " " +:+
            COPYRIGHT_NOTICE C; text]
     else
       evs = [LogError ""
                ("'" +:+ (cmd +:+ (if is_empty subCmd then "" else " " +:+ subCmd)) +:+
                 "' is not a valid command. See 'csolution --help'.")]).
Proof.
  intros Hcmd. cbv zeta. unfold PrintUsage. run_pm.
  destruct (is_empty cmd && is_empty subCmd) eqn:Hboth.
  { apply andb_true_iff in Hboth as [Hc Hs].
    destruct cmd; [|discriminate]. destruct subCmd; [|discriminate].
    cbn [fst snd]. split; [split; auto|].
    eexists. split; [unfold set_out; cbn; rewrite <- app_assoc; reflexivity|].
    eexists. reflexivity. }
  set (filter := cmd +:+ (if is_empty subCmd then "" else " " +:+ subCmd)).
  assert (Hkeys : is_some (dict_find CommandLine.optionsDict filter) = true <->
                  (cmd = "list" /\
                   subCmd ∈ ["packs"; "boards"; "devices"; "components"; "configs";
                             "dependencies"; "contexts"; "generators"; "layers";
                             "toolchains"; "environment"]) \/
                  (cmd ∈ ["update-rte"; "convert"; "run"] /\ subCmd = "")).
  { rewrite dict_find_keys, bool_decide_eq_true.
    change (map fst CommandLine.optionsDict)
      with ["update-rte"; "convert"; "run"; "list packs"; "list boards"; "list devices";
            "list configs"; "list components"; "list dependencies"; "list contexts";
            "list generators"; "list layers"; "list toolchains"; "list environment"].
    subst filter. destruct subCmd as [|c subCmd]; cbn [is_empty].
    - rewrite append_empty_r. split.
      + intros Hin. right. split; [|reflexivity].
        rewrite !elem_of_cons, elem_of_nil in Hin. rewrite !elem_of_cons.
        destruct Hin as [H|[H|[H|H]]]; auto.
        exfalso.
        repeat (destruct H as [H|H]; [rewrite H in Hcmd; discriminate|]).
        exact H.
      + intros [[_ Hin]|[Hin _]].
        * rewrite !elem_of_cons, elem_of_nil in Hin.
          repeat (destruct Hin as [Hin|Hin]; [discriminate|]). contradiction.
        * rewrite !elem_of_cons, elem_of_nil in Hin. rewrite !elem_of_cons. tauto.
    - split.
      + intros Hin. left.
        rewrite !elem_of_cons, elem_of_nil in Hin.
        destruct Hin as [H|[H|[H|Hin]]];
          try (apply (f_equal no_space) in H;
               change (cmd +:+ " " +:+ String c subCmd)
                 with (cmd +:+ String " " (String c subCmd)) in H;
               rewrite no_space_app in H; discriminate).
        assert (Hsplit : forall arg, cmd +:+ " " +:+ String c subCmd = "list" +:+ " " +:+ arg ->
                  cmd = "list" /\ String c subCmd = arg)
          by (intros arg Heq;
              change (cmd +:+ String " " (String c subCmd) = "list" +:+ String " " arg) in Heq;
              now apply first_space_unique in Heq).
        rewrite !elem_of_cons.
        repeat (destruct Hin as [Hin|Hin];
                [apply Hsplit in Hin as [-> ->]; tauto|]).
        contradiction.
      + intros [[-> Hin]|[_ Hs]]; [|discriminate].
        rewrite !elem_of_cons, elem_of_nil in Hin. rewrite !elem_of_cons.
        repeat (destruct Hin as [Hin|Hin]; [rewrite Hin; tauto|]). contradiction. }
  assert (Hnot : ~ (cmd = "" /\ subCmd = "")).
  { intros [-> ->]. discriminate. }
  destruct (dict_find CommandLine.optionsDict filter) as [[optionalArg cmdOptions]|].
  - cbn [fst snd]. split.
    + split; [intros _; right; now apply Hkeys|reflexivity].
    + eexists. split; [unfold set_out; cbn; rewrite <- app_assoc; reflexivity|].
      eexists. reflexivity.
  - cbn [fst snd]. split.
    + split; [discriminate|]. intros [H|H]; [contradiction|].
      apply Hkeys in H. discriminate.
    + eexists. split; reflexivity.
Qed.

End Help.

(* ===================================================================== *)
(** ** The resolution run against the context builder *)
(* ===================================================================== *)

Section ResolutionResults.

Context {R X : Type} (E : External R X).

(** The loop "Process contexts" hands the selected contexts to
    [ProcessContext] as the resolution run of the specification does:
    the calls it makes and their answers are those of
    [resolution_results], and so is the worker it leaves. *)
Lemma ConfigureLoop_results (l : list string) (err : bool) (pm : ProjMgr R X) :
  exists evs,
    out (ConfigureLoop E l err pm).2 = out pm ++ evs /\
    processing evs = (resolution_results E l (m_worker pm)).1 /\
    m_worker (ConfigureLoop E l err pm).2 = (resolution_results E l (m_worker pm)).2.
Proof.
  revert err pm. induction l as [|k l IH]; intros err pm.
  - exists []. cbn. rewrite app_nil_r. auto.
  - cbn [ConfigureLoop resolution_results]. unfold bind at 1.
    unfold ConfigureStep. run_pm.
    destruct (contexts_at E k (m_worker pm)) as [item w1].
    destruct (IsContextSelected w1 k); cbn [negb]; cbv beta iota.
    + destruct (ProcessContext E w1 item true true false) as [[ok item'] x].
      destruct ok; cbn [negb]; cbv beta iota;
        match goal with
        | |- context [ConfigureLoop E l ?e ?s] =>
            set (st := s);
            assert (Hst : m_worker st = set_w_internal x (store k item' w1))
              by reflexivity;
            destruct (IH e st) as (evs & Hout & Hproc & Hw)
        end;
        rewrite Hst in Hproc, Hw; rewrite Hout, Hw; subst st;
        destruct (resolution_results E l _) as [results w'];
        cbn [fst snd] in *.
      * exists (EvProcessContext k item' true :: evs).
        cbn [out set_out set_processedContexts].
        rewrite <- app_assoc. split; [reflexivity|]. split; [|reflexivity].
        change (processing (EvProcessContext k item' true :: evs))
          with ((k, item', true) :: processing evs).
        now rewrite Hproc.
      * exists (EvProcessContext k item' false ::
                LogError "" ("processing context '" +:+ k +:+ "' failed") :: evs).
        cbn [out set_out set_processedContexts set_failedContext].
        rewrite <- !app_assoc. split; [reflexivity|]. split; [|reflexivity].
        change (processing (EvProcessContext k item' false :: LogError "" _ :: evs))
          with ((k, item', false) :: processing evs).
        now rewrite Hproc.
    + match goal with
      | |- context [ConfigureLoop E l ?e ?s] =>
          set (st := s);
          assert (Hst : m_worker st = w1) by reflexivity;
          destruct (IH e st) as (evs & Hout & Hproc & Hw)
      end.
      rewrite Hst in Hproc, Hw. rewrite Hout, Hw. subst st.
      exists evs. auto.
Qed.

Lemma ProcessSelectedContexts_results (pm : ProjMgr R X) :
  exists evs,
    out (ProcessSelectedContexts E pm).2 = out pm ++ evs /\
    processing evs =
      (resolution_results E (GetYmlOrderedContexts (m_worker pm)) (m_worker pm)).1 /\
    m_worker (ProcessSelectedContexts E pm).2 =
      (resolution_results E (GetYmlOrderedContexts (m_worker pm)) (m_worker pm)).2.
Proof.
  unfold ProcessSelectedContexts. run_pm.
  match goal with
  | |- context [ConfigureLoop E ?l false ?s] =>
      destruct (ConfigureLoop_results l false s) as (evs & Hout & Hproc & Hw);
      destruct (ConfigureLoop E l false s) as [err pm1]
  end.
  cbn [fst snd out m_worker set_allContexts set_processedContexts set_failedContext] in *.
  set (info := if m_verbose (opts pm1) then
                 if negb (is_nil (ListConfigFiles E (m_worker pm1)))
                 then [LogInfo "" (configFilesInfo (ListConfigFiles E (m_worker pm1)))]
                 else []
               else [] : list (Event R)).
  assert (Hinfo : forallb is_info info = true).
  { subst info. destruct (m_verbose _); [|reflexivity].
    destruct (is_nil (ListConfigFiles E (m_worker pm1))); reflexivity. }
  pose proof (diagnostics_quiet (w_missingFilters (m_worker pm1)) info Hinfo) as Hq.
  apply processing_quiet in Hq as [Hq _].
  fold (PrintMissingFilters (m_worker pm1)) in Hq.
  exists (evs ++ PrintMissingFilters (m_worker pm1) ++ info).
  rewrite processing_app, Hq, app_nil_r.
  subst info.
  destruct (m_verbose (opts pm1));
    [destruct (negb (is_nil (ListConfigFiles E (m_worker pm1))))|];
    cbn; rewrite Hout, <- ?app_assoc, ?app_nil_r; auto.
Qed.

(** The events of a run that processes the contexts are those whose
    calls of [ProcessContext] the resolution run of the specification
    makes. *)
Lemma run_facts_results (pm pm' : ProjMgr R X) (res : bool) (evs : list (Event R)) :
  ProcessSelectedContexts E pm = (res, pm') ->
  out pm' = out pm ++ evs ->
  processing evs =
    (resolution_results E (GetYmlOrderedContexts (m_worker pm)) (m_worker pm)).1 /\
  m_worker pm' =
    (resolution_results E (GetYmlOrderedContexts (m_worker pm)) (m_worker pm)).2.
Proof.
  intros Hrun Hout.
  destruct (ProcessSelectedContexts_results pm) as (evs' & Hout' & Hproc & Hw).
  rewrite Hrun in Hout', Hw. cbn [snd] in Hout', Hw.
  rewrite Hout in Hout'. apply app_inv_head in Hout'. subst evs'. auto.
Qed.

Lemma populate_events_no_processing (evs : list (Event R)) :
  forallb is_populate_event evs = true -> processing evs = [].
Proof.
  induction evs as [|e evs IH]; [reflexivity|]. cbn [forallb].
  intros [He Hevs]%andb_true_iff. destruct e; try discriminate; simpl; auto.
Qed.

Lemma callParseContextSelection_no_processing (pats : list string) (b : bool)
    (pm : ProjMgr R X) :
  m_failedContext (callParseContextSelection E pats b pm).2 = m_failedContext pm /\
  exists evs,
    out (callParseContextSelection E pats b pm).2 = out pm ++ evs /\
    processing evs = [].
Proof.
  unfold callParseContextSelection, ParseContextSelection. run_pm.
  destruct pats as [|p pats].
  - destruct b.
    + destruct (Exists E _); (split; [reflexivity|]); eexists; split; reflexivity.
    + split; [reflexivity|]. eexists; split; reflexivity.
  - destruct (selection_aborts _ _); (split; [reflexivity|]); eexists; split; reflexivity.
Qed.

Lemma processing_state_reaches (pm pm2 : ProjMgr R X) :
  processing_state E pm = Some pm2 ->
  reaches_processing E pm (PopulateContexts E pm).2 pm2.
Proof.
  unfold processing_state, reaches_processing.
  destruct (PopulateContexts E pm) as [populated pm1]. cbn [snd].
  destruct populated; [|discriminate].
  destruct (callParseContextSelection E _ _ pm1) as [selected pm2'].
  destruct selected; [|discriminate]. intros Heq. injection Heq as ->. auto.
Qed.

(** C1.  For every run of [Configure].  When the inputs are populated and
    the context selection is parsed, every selected context of the
    ordered list is handed to [ProcessContext], the result is success if
    and only if [ProcessContext] succeeded on every one of them, and the
    failure set holds exactly the names of the contexts on which it
    failed.  When the run does not get that far, the result is failure
    although no context was processed, and nothing is recorded in the
    failure set. *)
Theorem Configure_success_iff (pm : ProjMgr R X) :
  let run := Configure E pm in
  match processing_state E pm with
  | Some pm2 =>
      let ordered := GetYmlOrderedContexts (m_worker pm2) in
      let results := (resolution_results E ordered (m_worker pm2)).1 in
      (exists evs, out run.2 = out pm2 ++ evs /\ processing evs = results) /\
      map processed_key results = List.filter (IsContextSelected (m_worker pm2)) ordered /\
      (run.1 = true <-> forall r, r ∈ results -> processed_ok r = true) /\
      ((exists r, r ∈ results /\ processed_ok r = false) -> run.1 = false) /\
      (forall n, n ∈ m_failedContext run.2 <->
         exists r, r ∈ results /\ processed_ok r = false /\ name (processed_item r) = n)
  | None =>
      run.1 = false /\
      m_failedContext run.2 = m_failedContext pm /\
      exists evs, out run.2 = out pm ++ evs /\ processing evs = []
  end.
Proof.
  cbv zeta.
  destruct (processing_state E pm) as [pm2|] eqn:Hstate.
  - pose proof (processing_state_reaches _ _ Hstate) as Hreach.
    destruct (Configure_facts E _ _ _ Hreach) as (res & pm' & evs & Hrun & Hfacts).
    destruct Hfacts as [rf_out0 rf_shape0 rf_all0 rf_processed0 rf_calls0 rf_failed0
                        rf_result0 rf_deref0 rf_opts0 rf_parser0 rf_worker0].
    rewrite (Configure_reaches_processing E _ _ _ Hreach) in Hrun.
    destruct (run_facts_results _ _ _ _ Hrun rf_out0) as [Hproc _].
    rewrite (Configure_reaches_processing E _ _ _ Hreach), Hrun. cbn [fst snd].
    rewrite <- Hproc.
    assert (Hiff : res = true <-> forall r, r ∈ processing evs -> processed_ok r = true).
    { rewrite rf_result0, forallb_forall.
      split; intros H r Hr; apply H; now apply list_elem_of_In. }
    split; [now exists evs|]. split; [exact rf_calls0|]. split; [exact Hiff|]. split.
    + intros (r & Hr & Hok). destruct res; [|reflexivity].
      destruct Hiff as [Hiff _]. rewrite (Hiff eq_refl r Hr) in Hok. discriminate.
    + intros n. rewrite rf_failed0, elem_of_list_to_set, list_elem_of_fmap. split.
      * intros (r & -> & Hr%elem_of_failures). exists r. tauto.
      * intros (r & Hr & Hok & <-). exists r. split; [reflexivity|].
        now apply elem_of_failures.
  - unfold processing_state in Hstate. unfold Configure. run_pm.
    destruct (PopulateContexts_facts E pm)
      as (evs1 & (_ & _ & (_ & _ & Hfailed) & Hout & Hevs) & _).
    destruct (PopulateContexts E pm) as [populated pm1]. cbn [snd] in *.
    destruct populated; cbn [negb].
    + destruct (callParseContextSelection_no_processing (m_context (opts pm1))
                  (checkCbuildSet (opts pm1)) pm1) as (Hfailed2 & evs2 & Hout2 & Hevs2).
      destruct (callParseContextSelection E _ _ pm1) as [selected pm2].
      cbn [snd] in *. destruct selected; [discriminate|]. cbn [negb fst snd].
      split; [reflexivity|]. split; [congruence|].
      exists (evs1 ++ evs2). rewrite Hout2, Hout, <- app_assoc. split; [reflexivity|].
      rewrite processing_app, Hevs2, (populate_events_no_processing _ Hevs). reflexivity.
    + cbn [fst snd]. split; [reflexivity|]. split; [exact Hfailed|].
      exists evs1. split; [exact Hout|]. now apply populate_events_no_processing.
Qed.

(** C2.  Whenever [Configure] gets to process the contexts: the loop goes
    through the whole ordered list and hands every selected context to
    [ProcessContext], on the worker as the calls before left it, whatever
    these calls answered; the failure set holds exactly the names of the
    contexts on which [ProcessContext] failed; and afterwards the full
    list and the processed list are exposed, the failed contexts among
    them, each item being the one its last processing left. *)
Theorem Configure_failure_isolation (pm pm1 pm2 : ProjMgr R X) :
  reaches_processing E pm pm1 pm2 ->
  exists res pm' evs,
    Configure E pm = (res, pm') /\
    out pm' = out pm2 ++ evs /\
    processing evs =
      (resolution_results E (GetYmlOrderedContexts (m_worker pm2)) (m_worker pm2)).1 /\
    m_worker pm' =
      (resolution_results E (GetYmlOrderedContexts (m_worker pm2)) (m_worker pm2)).2 /\
    map processed_key (processing evs) =
      List.filter (IsContextSelected (m_worker pm2))
                  (GetYmlOrderedContexts (m_worker pm2)) /\
    m_allContexts pm' = GetYmlOrderedContexts (m_worker pm2) /\
    m_processedContexts pm' =
      List.filter (IsContextSelected (m_worker pm2))
                  (GetYmlOrderedContexts (m_worker pm2)) /\
    (forall n, n ∈ m_failedContext pm' <->
       exists r, r ∈ processing evs /\ processed_ok r = false /\
                 name (processed_item r) = n) /\
    (forall r, r ∈ processing evs -> processed_ok r = false ->
       name (processed_item r) ∈ m_failedContext pm' /\
       processed_key r ∈ m_processedContexts pm' /\
       processed_key r ∈ m_allContexts pm') /\
    (forall k it, last_processed k evs = Some it -> deref E (m_worker pm') k = it).
Proof.
  intros Hreach.
  destruct (Configure_facts E _ _ _ Hreach) as (res & pm' & evs & Hrun & Hfacts).
    destruct Hfacts as [rf_out0 rf_shape0 rf_all0 rf_processed0 rf_calls0 rf_failed0
                        rf_result0 rf_deref0 rf_opts0 rf_parser0 rf_worker0].
  pose proof Hrun as Hrun'.
  rewrite (Configure_reaches_processing E _ _ _ Hreach) in Hrun'.
  destruct (run_facts_results _ _ _ _ Hrun' rf_out0) as [Hproc Hw].
  exists res, pm', evs.
  assert (Hfailed : forall n, n ∈ m_failedContext pm' <->
            exists r, r ∈ processing evs /\ processed_ok r = false /\
                      name (processed_item r) = n).
  { intros n. rewrite rf_failed0, elem_of_list_to_set, list_elem_of_fmap. split.
    - intros (r & -> & Hr%elem_of_failures). exists r. tauto.
    - intros (r & Hr & Hok & <-). exists r. split; [reflexivity|].
      now apply elem_of_failures. }
  repeat (split; [assumption|]).
  split.
  - intros r Hr Hok. split; [apply Hfailed; now exists r|]. split.
    + rewrite rf_processed0, <- rf_calls0, list_elem_of_fmap. now exists r.
    + assert (Hin : processed_key r ∈ map processed_key (processing evs))
        by (rewrite list_elem_of_fmap; now exists r).
      rewrite rf_calls0, list_elem_of_In, List.filter_In in Hin.
      rewrite rf_all0, list_elem_of_In. tauto.
  - intros k it Hlast. now rewrite rf_deref0, Hlast.
Qed.

End ResolutionResults.

(** *** Missing filters and conversion *)

Section ResolutionRunsOn.

Context {R X : Type} (E : External R X).


(** C10.  When [Configure] got to process the contexts and the emitter
    and the generator do their part, [RunConvert] generates a cbuild file
    and a cprj file for every processed context, in order, whether or not
    [ProcessContext] failed on it: the contexts on which it failed are in
    the processed list, their names are the failure set, and their cbuild
    file is generated with the error flag set; the failure only shows in
    the result, which is success if and only if [ProcessContext]
    succeeded on every selected context. *)
Theorem RunConvert_generates_for_failed (pm pm1 pm2 : ProjMgr R X) :
  reaches_processing E pm pm1 pm2 ->
  NoDup (GetYmlOrderedContexts (m_worker pm2)) ->
  (forall p items a b, GenerateCbuildPack E p items a b = true) ->
  (forall p items d, GenerateCbuildIndex E p items d = true) ->
  (forall items t f, GenerateCbuildSet E items t f = true) ->
  (forall c b, GenerateCbuild E c b = true) ->
  (forall c f b, GenerateCprj E c f b = true) ->
  exists res pm' evs,
    RunConvert E pm = (res, pm') /\
    out pm' = out pm2 ++ evs /\
    let results :=
      (resolution_results E (GetYmlOrderedContexts (m_worker pm2)) (m_worker pm2)).1 in
    let processed :=
      List.filter (IsContextSelected (m_worker pm2)) (GetYmlOrderedContexts (m_worker pm2)) in
    let item k := deref E (m_worker pm') k in
    processing evs = results /\
    m_processedContexts pm' = processed /\
    map processed_key results = processed /\
    (forall n, n ∈ m_failedContext pm' <->
       exists r, r ∈ results /\ processed_ok r = false /\ name (processed_item r) = n) /\
    cbuild_calls evs =
      map (fun k => (item k, bool_decide (name (item k) ∈ m_failedContext pm'))) processed /\
    cprj_calls evs = map item processed /\
    (forall r, r ∈ results -> processed_ok r = false ->
       processed_key r ∈ processed /\
       name (item (processed_key r)) = name (processed_item r) /\
       (item (processed_key r), true) ∈ cbuild_calls evs /\
       item (processed_key r) ∈ cprj_calls evs) /\
    (res = true <-> forall r, r ∈ results -> processed_ok r = true).
Proof.
  intros Hreach Hnd Hpack Hindex Hset Hcbuild Hcprj.
  destruct (Configure_facts E _ _ _ Hreach) as (cres & pmA & evsA & Hrun & Hfacts).
  destruct Hfacts as [rf_out0 rf_shape0 rf_all0 rf_processed0 rf_calls0 rf_failed0
                      rf_result0 rf_deref0 rf_opts0 rf_parser0 rf_worker0].
  pose proof Hrun as Hrun'.
  rewrite (Configure_reaches_processing E _ _ _ Hreach) in Hrun'.
  destruct (run_facts_results E _ _ _ _ Hrun' rf_out0) as [Hresults _].
  destruct rf_shape0 as (loop_evs & info & HevsA & Hloop & Hinfo).
  destruct (run_events_no_generation _ _ _ _ HevsA Hloop Hinfo) as [HcbA HcpA].
  destruct (after_updateRte_facts E pmA) as [evsU HfactsU].
  destruct HfactsU as [uf_out0 uf_quiet0 uf_events0 uf_opts0 uf_parser0 uf_toolchain0
                       uf_all0 uf_processed0 uf_failed0 uf_name0].
  set (pmU := after_updateRte E pmA) in *.
  set (processed := List.filter (IsContextSelected (m_worker pm2))
                                (GetYmlOrderedContexts (m_worker pm2))) in *.
  assert (Hyml : GenerateYMLConfigurationFiles E pmA =
            (true,
             set_out (out pmU ++ index_events E pmU ++ cbuild_set_events E pmU ++
                      map (fun k => EvGenerateCbuild (deref E (m_worker pmU) k)
                             (bool_decide (name (deref E (m_worker pmU) k)
                                           ∈ m_failedContext pmU))) processed) pmU)).
  { rewrite GenerateYML_reaches_cbuild.
    - fold pmU. rewrite GenerateCbuildLoop_ok by exact Hcbuild.
      rewrite uf_processed0, rf_processed0. fold processed.
      unfold set_out. simpl. now rewrite <- !app_assoc.
    - apply Hpack.
    - unfold index_succeeds. destruct (negb _); [apply Hindex | reflexivity].
    - unfold cbuild_set_succeeds. destruct (m_contextSet _); [|reflexivity].
      destruct (_ && _); [reflexivity|]. destruct (negb _); [apply Hset | reflexivity]. }
  set (cbuilds := map (fun k => EvGenerateCbuild (deref E (m_worker pmU) k)
                         (bool_decide (name (deref E (m_worker pmU) k)
                                       ∈ m_failedContext pmU))) processed) in *.
  set (cprjs := concat (map (fun k => cprj_events E (m_export (opts pmU))
                                        (deref E (m_worker pmU) k)) processed)).
  set (evs := evsA ++ evsU ++ index_events E pmU ++ cbuild_set_events E pmU ++ cbuilds ++ cprjs).
  assert (Hconv : RunConvert E pm = (cres, set_out (out pm2 ++ evs) pmU)).
  { unfold RunConvert. run_pm. rewrite Hrun, Hyml. simpl.
    rewrite uf_processed0, rf_processed0. fold processed.
    rewrite GenerateCprjLoop_ok by exact Hcprj. simpl. fold cprjs.
    rewrite andb_true_r. f_equal. unfold set_out. simpl. f_equal.
    subst evs. rewrite uf_out0, rf_out0. now rewrite <- !app_assoc. }
  destruct uf_quiet0 as (HpU & HcbU & HcpU).
  destruct (index_events_quiet E pmU) as (HpI & HcbI & HcpI).
  destruct (cbuild_set_events_quiet E pmU) as (HpS & HcbS & HcpS).
  destruct (cbuild_events_quiet E (m_worker pmU) (m_failedContext pmU) processed)
    as [HpB HcpB].
  fold cbuilds in HpB, HcpB.
  destruct (cprj_events_calls E (m_export (opts pmU)) (m_worker pmU) processed)
    as (HcpC & HpC & HcbC).
  cbv zeta in HcpC, HpC, HcbC. fold cprjs in HcpC, HpC, HcbC.
  assert (Hproc : processing evs = processing evsA).
  { subst evs. rewrite !processing_app, HpU, HpI, HpS, HpB, HpC. now rewrite !app_nil_r. }
  assert (Hcb : cbuild_calls evs =
                map (fun k => (deref E (m_worker pmU) k,
                               bool_decide (name (deref E (m_worker pmU) k)
                                            ∈ m_failedContext pmU))) processed).
  { subst evs. rewrite !cbuild_calls_app, HcbA, HcbU, HcbI, HcbS, HcbC. simpl.
    rewrite app_nil_r. apply cbuild_calls_map. }
  assert (Hcp : cprj_calls evs = map (deref E (m_worker pmU)) processed).
  { subst evs. rewrite !cprj_calls_app, HcpA, HcpU, HcpI, HcpS, HcpB, HcpC. reflexivity. }
  assert (Hfailed : forall n, n ∈ m_failedContext pmA <->
            exists r, r ∈ processing evsA /\ processed_ok r = false /\
                      name (processed_item r) = n).
  { intros n. rewrite rf_failed0, elem_of_list_to_set, list_elem_of_fmap. split.
    - intros (r & -> & Hr%elem_of_failures). exists r. tauto.
    - intros (r & Hr & Hok & <-). exists r. split; [reflexivity|].
      now apply elem_of_failures. }
  exists cres, (set_out (out pm2 ++ evs) pmU), evs.
  split; [exact Hconv|]. split; [reflexivity|].
  cbv zeta. simpl. fold processed. rewrite <- Hresults, Hproc.
  split; [reflexivity|].
  split; [now rewrite uf_processed0|].
  split; [exact rf_calls0|].
  split; [intros n; rewrite uf_failed0; apply Hfailed|].
  split; [exact Hcb|].
  split; [exact Hcp|].
  split.
  - intros [[k it] ok] Hr Hok. simpl in Hok. subst ok.
    unfold processed_key, processed_item. simpl.
    assert (Hk : k ∈ processed).
    { rewrite <- rf_calls0. apply list_elem_of_fmap. now exists (k, it, false). }
    assert (Hitem : name (deref E (m_worker pmU) k) = name it).
    { rewrite uf_name0, rf_deref0.
      rewrite (last_processed_unique k it false evsA); [reflexivity| |exact Hr].
      rewrite rf_calls0. now apply NoDup_filter_bool. }
    assert (Hname : name (deref E (m_worker pmU) k) ∈ m_failedContext pmU).
    { rewrite Hitem, uf_failed0. apply Hfailed. now exists (k, it, false). }
    split; [exact Hk|]. split; [exact Hitem|]. split.
    + rewrite Hcb. apply list_elem_of_fmap. exists k. split; [|exact Hk].
      f_equal. symmetry. now apply bool_decide_eq_true.
    + rewrite Hcp. now apply list_elem_of_fmap_2.
  - rewrite rf_result0, forallb_forall.
    split; intros H r Hr; apply H; now apply list_elem_of_In.
Qed.

End ResolutionRunsOn.

(* ===================================================================== *)
(** ** The command line *)
(* ===================================================================== *)

Section CommandLine.

Context {R X : Type} (E : External R X) (C : Console) (P : PathUtils) (S : Setters X).

(** X25.  Without a positional argument no command is run: the exit code
    is 0 and the whole trace is the version line, when the version is
    asked for, and the signature followed by the usage text otherwise.
    An unmatched argument, a help request, the load policy and the
    csolution file of [--solution] are not looked at.  The flags are
    assigned all the same, and handed to the worker and to the external
    generator, which is all that happens to the worker. *)
Theorem no_positional_argument (parseResult : ParseResult) (envp : option (list string)) :
  given parseResult "positional" = false ->
  let run := RunProjMgrArguments E C P S (inr parseResult) envp in
  run.1 = 0%Z /\
  out run.2 =
    (if given parseResult "version" then
       [Cout (ORIGINAL_FILENAME C +:+ " " +:+ VERSION_STRING C +:+ " " +:+
              COPYRIGHT_NOTICE C)]
     else
       [Cout ("csolution: Project Manager " +:+ VERSION_STRING C +:+ " " +:+
              COPYRIGHT_NOTICE C); Cout USAGE]) /\
  opts run.2 =
    set_flags (negb (given parseResult "n")) (given parseResult "m")
              (negb (given parseResult "no-update-rte")) (given parseResult "v")
              (given parseResult "d") (given parseResult "D")
              (given parseResult "yml-order") (given parseResult "context-set")
              (given parseResult "relative-paths") (given parseResult "frozen-packs")
              (given parseResult "update-idx") Options_init /\
  m_worker run.2 =
    w_call (flags_handed_over S (opts run.2)) (m_worker (ProjMgr_init E)).
Proof.
  intros Hpositional. cbv zeta.
  unfold RunProjMgrArguments, ParseCommandLineArguments. run_pm.
  rewrite Hpositional.
  destruct (given parseResult "version"); cbn; auto.
Qed.

(** X26.  With a positional argument the option [--version] changes
    nothing: the parsing gives the same code and the same driver however
    often the option is given. *)
Theorem version_ignored_with_command (parseResult : ParseResult) (n : nat)
    (pm : ProjMgr R X) :
  given parseResult "positional" = true ->
  ParseCommandLineArguments E C P S (inr (with_count "version" n parseResult)) pm =
  ParseCommandLineArguments E C P S (inr parseResult) pm.
Proof.
  intros Hpositional. unfold ParseCommandLineArguments.
  change (given (with_count "version" n parseResult) "positional")
    with (given parseResult "positional").
  rewrite Hpositional. reflexivity.
Qed.

End CommandLine.

Lemma AssignPositionalArguments_csolutionFile (is_csolution : string -> bool)
    (positionalArguments : list string) (o : Options) :
  m_csolutionFile (AssignPositionalArguments is_csolution positionalArguments o) =
  default (m_csolutionFile o) (last (List.filter is_csolution positionalArguments)).
Proof.
  revert o. induction positionalArguments as [|it rest IH]; intros o; [reflexivity|].
  cbn [AssignPositionalArguments]. rewrite filter_last_cons.
  destruct (is_csolution it).
  - rewrite IH. reflexivity.
  - destruct (is_empty (m_command o)); [rewrite IH; reflexivity|].
    destruct (is_empty (m_args o)); rewrite IH; reflexivity.
Qed.

Lemma AssignPositionalArguments_flags (is_csolution : string -> bool)
    (positionalArguments : list string) (o : Options) :
  let o' := AssignPositionalArguments is_csolution positionalArguments o in
  m_checkSchema o' = m_checkSchema o /\ m_verbose o' = m_verbose o /\
  m_debug o' = m_debug o /\ m_dryRun o' = m_dryRun o /\
  m_relativePaths o' = m_relativePaths o.
Proof.
  revert o. induction positionalArguments as [|it rest IH]; intros o; [cbn; auto|].
  cbn [AssignPositionalArguments]. cbv zeta in *.
  destruct (is_csolution it); [|destruct (is_empty (m_command o));
                                 [|destruct (is_empty (m_args o))]];
    try (destruct (IH (set_positional it (m_command o) (m_args o) o)) as (?&?&?&?&?));
    try (destruct (IH (set_positional (m_csolutionFile o) it (m_args o) o)) as (?&?&?&?&?));
    try (destruct (IH (set_positional (m_csolutionFile o) (m_command o) it o))
           as (?&?&?&?&?));
    try (destruct (IH o) as (?&?&?&?&?));
    cbn in *; auto.
Qed.

Section CsolutionFile.

Context {R X : Type} (E : External R X) (C : Console) (P : PathUtils) (S : Setters X).

(** X27.  The csolution file of a command line with a positional argument
    is the value of [--solution] when this option is given, and the last
    positional argument of the pattern of csolution files otherwise.  When
    it is not empty and no such file exists, the parsing of a new
    [ProjMgr] returns [ERROR] with the one message "csolution file was not
    found" on this file, whatever else is given: too many arguments, a
    help request and the load policy are not looked at.  The worker has
    been handed the flags by then, and nothing else: neither a root
    directory nor a load policy. *)
Theorem missing_csolution_file (parseResult : ParseResult) :
  let file :=
    if given parseResult "solution" then as_string parseResult "solution"
    else default "" (last (List.filter (is_csolution P)
                                       (as_strings parseResult "positional"))) in
  given parseResult "positional" = true ->
  is_empty file = false ->
  Exists E file = false ->
  let parsing := ParseCommandLineArguments E C P S (inr parseResult) (ProjMgr_init E) in
  parsing.1 = ERROR /\
  out parsing.2 = [LogError file "csolution file was not found"] /\
  m_csolutionFile (opts parsing.2) = file /\
  m_worker parsing.2 =
    w_call (flags_handed_over S (opts parsing.2)) (m_worker (ProjMgr_init E)).
Proof.
  intros file Hpositional Hfile Hexists. cbv zeta.
  unfold ParseCommandLineArguments. run_pm. rewrite Hpositional.
  cbn [opts set_opts set_worker m_worker].
  match goal with
  | |- context [AssignPositionalArguments ?c ?l ?o] =>
      pose proof (AssignPositionalArguments_csolutionFile c l o) as Hassigned;
      pose proof (AssignPositionalArguments_flags c l o) as Hflags;
      set (o0 := o) in *;
      set (o1 := AssignPositionalArguments c l o0) in *
  end.
  change (m_csolutionFile o0) with "" in Hassigned.
  cbv zeta in Hflags. destruct Hflags as (Hf1 & Hf2 & Hf3 & Hf4 & Hf5).
  subst file.
  destruct (given parseResult "solution"); cbv beta iota; cbn [opts set_opts];
    cbn [m_csolutionFile set_solution];
    rewrite ?Hassigned, Hfile, Hexists; cbn [negb]; cbv beta iota;
    cbn [fst snd out opts m_worker set_out set_opts set_worker ProjMgr_init app
         m_csolutionFile set_solution];
    rewrite ?Hassigned;
    (split; [reflexivity|]); (split; [reflexivity|]); (split; [reflexivity|]);
    unfold flags_handed_over, w_call;
    cbn [m_checkSchema m_verbose m_debug m_dryRun m_relativePaths set_solution
         w_internal set_w_internal];
    rewrite ?Hf1, ?Hf2, ?Hf3, ?Hf4, ?Hf5; reflexivity.
Qed.

End CsolutionFile.

(* ===================================================================== *)
(** ** The further statements on the sample solution *)
(* ===================================================================== *)

(** The three toolchains listed by the sample worker give two entries,
    AC6 before GCC; in verbose mode the entry of GCC names its environment
    variable with the dots of the version replaced. *)
Example sample_toolchain_entries :
  toolchainsSet false SampleCommands.toolchains = ["AC6@6.16.0" +:+ newline;
                                                   "GCC@10.3.1" +:+ newline] /\
  toolchainEntry true (mkToolchainItem "GCC" "10.3.1" "" "/opt/gcc" "") =
    "GCC@10.3.1" +:+ newline +:+
    "  Environment: GCC_TOOLCHAIN_10_3_1" +:+ newline +:+
    "  Toolchain: /opt/gcc" +:+ newline.
Proof. split; vm_compute; reflexivity. Qed.

(** [csolution demo.csolution.yml list packs extra]: the csolution file
    may come first, and the fourth argument is dropped. *)
Example sample_positional_arguments :
  let o := AssignPositionalArguments SampleCommands.ends_with_csolution_yml
             ["demo.csolution.yml"; "list"; "packs"; "extra"] Options_init in
  (m_csolutionFile o, m_command o, m_args o) = ("demo.csolution.yml", "list", "packs").
Proof. vm_compute. reflexivity. Qed.

(** [csolution list toolchains]: the entries are written although the
    worker reports a failure. *)
Example sample_list_toolchains :
  let run := RunListToolchains Sample.ext SampleCommands.listing
               (Sample.manager (Sample.options "" "list" "toolchains" [] false false false)) in
  run.1 = false /\ cout_lines (out run.2) = ["AC6@6.16.0"; "GCC@10.3.1"].
Proof. split; vm_compute; reflexivity. Qed.

Lemma PopulateContexts_success_witness :
  PopulateContexts Sample.ext Sample.convert = (true, Sample.convert_populated) /\
  exists cs evs,
    ParseCsolution Sample.ext (m_csolutionFile (opts Sample.convert))
      (m_checkSchema (opts Sample.convert)) (m_frozenPacks (opts Sample.convert)) = Some cs /\
    m_csolutionFile (opts Sample.convert) <> "" /\
    m_parser Sample.convert_populated = mkParser cs /\
    NoDup (map (filename Sample.ext) (cprojects cs)) /\
    forallb (cproject_parsed Sample.ext (opts Sample.convert)) (cprojects cs) = true /\
    out Sample.convert_populated = out Sample.convert ++ evs /\
    add_calls evs =
      map (fun d => (d, descriptorFileOf Sample.ext (opts Sample.convert) d)) (contexts cs).
Proof.
  assert (H : PopulateContexts Sample.ext Sample.convert = (true, Sample.convert_populated))
    by (vm_compute; reflexivity).
  exact (conj H (PopulateContexts_success Sample.ext _ _ H)).
Defined.

Lemma Configure_pointers_valid_witness :
  reaches_processing Sample.ext Sample.convert Sample.convert_populated
                     Sample.convert_selected /\
  Forall (fun k => is_Some (w_contexts (m_worker (Configure Sample.ext Sample.convert).2) !! k))
         (m_allContexts (Configure Sample.ext Sample.convert).2) /\
  m_processedContexts (Configure Sample.ext Sample.convert).2
    `sublist_of` m_allContexts (Configure Sample.ext Sample.convert).2 /\
  forall k, is_Some (w_contexts (m_worker Sample.convert_selected) !! k) ->
            is_Some (w_contexts (m_worker (Configure Sample.ext Sample.convert).2) !! k).
Proof.
  assert (H : reaches_processing Sample.ext Sample.convert Sample.convert_populated
                                 Sample.convert_selected)
    by (split; vm_compute; reflexivity).
  exact (conj H (Configure_pointers_valid Sample.ext _ _ _ H)).
Defined.

Lemma updateRte_updates_processed_witness :
  m_updateRteFiles (opts SampleCommands.convert_configured) = true /\
  NoDup (m_processedContexts SampleCommands.convert_configured) /\
  out (updateRte Sample.ext SampleCommands.convert_configured).2 =
    out SampleCommands.convert_configured ++
    map (fun k => EvUpdateRte
                    (name (deref Sample.ext (m_worker SampleCommands.convert_configured) k)))
        (List.filter (has_rteActiveProject Sample.ext SampleCommands.convert_configured)
                     (m_processedContexts SampleCommands.convert_configured)) /\
  forall k, deref Sample.ext (m_worker (updateRte Sample.ext SampleCommands.convert_configured).2) k =
            if bool_decide (k ∈ m_processedContexts SampleCommands.convert_configured)
            then updated_item Sample.ext
                   (deref Sample.ext (m_worker SampleCommands.convert_configured) k)
            else deref Sample.ext (m_worker SampleCommands.convert_configured) k.
Proof.
  assert (H1 : m_updateRteFiles (opts SampleCommands.convert_configured) = true)
    by (vm_compute; reflexivity).
  assert (H2 : NoDup (m_processedContexts SampleCommands.convert_configured))
    by (apply (bool_decide_unpack _); vm_compute; exact I).
  exact (conj H1 (conj H2 (updateRte_updates_processed Sample.ext _ H1 H2))).
Defined.

Lemma RunConfigure_no_update_rte_witness :
  m_updateRteFiles (opts SampleCommands.update_rte_skipped) = false /\
  RunConfigure Sample.ext SampleCommands.update_rte_skipped =
  Configure Sample.ext SampleCommands.update_rte_skipped.
Proof.
  assert (H : m_updateRteFiles (opts SampleCommands.update_rte_skipped) = false)
    by reflexivity.
  exact (conj H (RunConfigure_no_update_rte Sample.ext _ H)).
Defined.

Lemma ProcessCommands_rejects_unknown_witness :
  ~ (m_command (opts SampleCommands.build) = "list" /\
     m_args (opts SampleCommands.build) ∈
       ["packs"; "boards"; "devices"; "components"; "configs"; "dependencies";
        "contexts"; "generators"; "layers"; "toolchains"; "environment"] \/
     m_command (opts SampleCommands.build) ∈ ["update-rte"; "convert"; "run"]) /\
  ProcessCommands Sample.ext SampleCommands.build =
    (ERROR,
     set_out (out SampleCommands.build ++
       [LogError ""
          (if String.eqb (m_command (opts SampleCommands.build)) "list" then
             if String.eqb (m_args (opts SampleCommands.build)) ""
             then "list <args> was not specified"
             else "list <args> was not found"
           else "<command> was not found")]) SampleCommands.build).
Proof.
  assert (H : ~ (m_command (opts SampleCommands.build) = "list" /\
     m_args (opts SampleCommands.build) ∈
       ["packs"; "boards"; "devices"; "components"; "configs"; "dependencies";
        "contexts"; "generators"; "layers"; "toolchains"; "environment"] \/
     m_command (opts SampleCommands.build) ∈ ["update-rte"; "convert"; "run"])).
  { intros [[Hlist _]|Hin]; [discriminate|].
    exact (bool_decide_eq_false_1
             (m_command (opts SampleCommands.build) ∈ ["update-rte"; "convert"; "run"])
             eq_refl Hin). }
  exact (conj H (ProcessCommands_rejects_unknown Sample.ext _ H)).
Defined.

Lemma commands_without_csolution_witness :
  m_csolutionFile (opts SampleCommands.list_dependencies_alone) = "" /\
  let pm := SampleCommands.list_dependencies_alone in
  let refused : bool * ProjMgr nat nat :=
    (false, set_out (out pm ++ [LogError "" "input yml files were not specified"]) pm) in
  Configure Sample.ext pm = refused /\
  RunListContexts Sample.ext pm = refused /\
  RunListDependencies Sample.ext SampleCommands.listing pm = refused /\
  RunListGenerators Sample.ext SampleCommands.listing pm = refused /\
  RunCodeGenerator Sample.ext SampleCommands.listing pm =
    (if is_empty (m_codeGenerator (opts pm)) then
       (false,
        set_out (out pm ++ [LogError "" "generator identifier was not specified"]) pm)
     else refused) /\
  PopulateAndSelect Sample.ext true pm =
    callParseContextSelection Sample.ext (m_context (opts pm)) false pm.
Proof.
  assert (H : m_csolutionFile (opts SampleCommands.list_dependencies_alone) = "")
    by reflexivity.
  exact (conj H (commands_without_csolution Sample.ext SampleCommands.listing _ H)).
Defined.

Lemma Configure_verbose_info_witness :
  reaches_processing Sample.ext Sample.convert Sample.convert_populated
                     Sample.convert_selected /\
  let configFiles := ListConfigFiles Sample.ext (m_worker (Configure Sample.ext Sample.convert).2) in
  exists evs,
    out (Configure Sample.ext Sample.convert).2 = out Sample.convert_selected ++ evs /\
    infos evs =
      (if m_verbose (opts Sample.convert) && negb (is_nil configFiles) then
         [("", "config files for each component:" +:+
               String.concat ""
                 (map (fun configFile => newline +:+ "  " +:+ configFile) configFiles))]
       else []).
Proof.
  assert (H : reaches_processing Sample.ext Sample.convert Sample.convert_populated
                                 Sample.convert_selected)
    by (split; vm_compute; reflexivity).
  exact (conj H (Configure_verbose_info Sample.ext _ _ _ H)).
Defined.

(** [csolution list packs -h] shows the help of the command, [csolution
    list -h] is an error. *)
Example sample_help :
  (PrintUsage SampleCommands.console CommandLine.optionsDict "list" "packs"
              Sample.list_layers_alone).1 = true /\
  cout_lines (out (PrintUsage SampleCommands.console CommandLine.optionsDict "list" "packs"
                              Sample.list_layers_alone).2) =
    ["csolution: Project Manager 2.2.1 (C) 2023 Arm Ltd. and Contributors";
     "csolution list packs [csolution.yml]"] /\
  (PrintUsage SampleCommands.console CommandLine.optionsDict "list" ""
              Sample.list_layers_alone).1 = false.
Proof. repeat split; vm_compute; reflexivity. Qed.

Lemma PrintUsage_known_commands_witness :
  no_space "list" = true /\
  let C := SampleCommands.console in
  let cmd := "list" in
  let subCmd := "packs" in
  let pm := Sample.list_layers_alone in
  let shown := PrintUsage C CommandLine.optionsDict cmd subCmd pm in
  (shown.1 = true <->
   (cmd = "" /\ subCmd = "") \/
   (cmd = "list" /\
    subCmd ∈ ["packs"; "boards"; "devices"; "components"; "configs"; "dependencies";
              "contexts"; "generators"; "layers"; "toolchains"; "environment"]) \/
   (cmd ∈ ["update-rte"; "convert"; "run"] /\ subCmd = "")) /\
  exists evs,
    shown.2 = set_out (out pm ++ evs) pm /\
    (if shown.1 then
       exists text,
         cout_lines evs =
           ["csolution: Project Manager " +:+ VERSION_STRING C +:+ " " +:+
            COPYRIGHT_NOTICE C; text]
     else
       evs = [LogError ""
                ("'" +:+ (cmd +:+ (if is_empty subCmd then "" else " " +:+ subCmd)) +:+
                 "' is not a valid command. See 'csolution --help'.")]).
Proof.
  assert (H : no_space "list" = true) by reflexivity.
  exact (conj H (PrintUsage_known_commands SampleCommands.console "list" "packs"
                   Sample.list_layers_alone H)).
Defined.

(** C1 as stated fails on a run that does not get to process the
    contexts, here [csolution convert] without a csolution file: no
    context is selected, so every selected context was processed to
    success, and no [ProcessContext] call failed; yet [Configure] reports
    failure, and no identifier is in the failure set. *)
Lemma Configure_fails_without_failed_context :
  let run := Configure Sample.ext SampleCommands.convert_alone in
  processing_state Sample.ext SampleCommands.convert_alone = None /\
  w_selectedContexts (m_worker run.2) = [] /\
  processing (out run.2) = [] /\
  run.1 = false /\
  m_failedContext run.2 = ∅.
Proof. vm_compute. repeat split. Qed.

Lemma Configure_failure_isolation_witness :
  reaches_processing Sample.ext Sample.convert Sample.convert_populated
                     Sample.convert_selected /\
  exists res pm' evs,
    Configure Sample.ext Sample.convert = (res, pm') /\
    out pm' = out Sample.convert_selected ++ evs /\
    processing evs =
      (resolution_results Sample.ext
         (GetYmlOrderedContexts (m_worker Sample.convert_selected))
         (m_worker Sample.convert_selected)).1 /\
    m_worker pm' =
      (resolution_results Sample.ext
         (GetYmlOrderedContexts (m_worker Sample.convert_selected))
         (m_worker Sample.convert_selected)).2 /\
    map processed_key (processing evs) =
      List.filter (IsContextSelected (m_worker Sample.convert_selected))
                  (GetYmlOrderedContexts (m_worker Sample.convert_selected)) /\
    m_allContexts pm' = GetYmlOrderedContexts (m_worker Sample.convert_selected) /\
    m_processedContexts pm' =
      List.filter (IsContextSelected (m_worker Sample.convert_selected))
                  (GetYmlOrderedContexts (m_worker Sample.convert_selected)) /\
    (forall n, n ∈ m_failedContext pm' <->
       exists r, r ∈ processing evs /\ processed_ok r = false /\
                 name (processed_item r) = n) /\
    (forall r, r ∈ processing evs -> processed_ok r = false ->
       name (processed_item r) ∈ m_failedContext pm' /\
       processed_key r ∈ m_processedContexts pm' /\
       processed_key r ∈ m_allContexts pm') /\
    (forall k it, last_processed k evs = Some it ->
       deref Sample.ext (m_worker pm') k = it).
Proof.
  assert (H : reaches_processing Sample.ext Sample.convert Sample.convert_populated
                                 Sample.convert_selected)
    by (split; vm_compute; reflexivity).
  split; [exact H|].
  exact (Configure_failure_isolation Sample.ext _ _ _ H).
Defined.

(** In the sample run [ProcessContext] fails on the second of the two
    selected contexts. *)
Example sample_resolution_results :
  map (fun r => (processed_key r, processed_ok r))
      (resolution_results Sample.ext
         (GetYmlOrderedContexts (m_worker Sample.convert_selected))
         (m_worker Sample.convert_selected)).1
  = [("App.Debug+BoardA", true); ("App.Debug+BoardB", false)].
Proof. vm_compute. reflexivity. Qed.



Lemma RunConvert_generates_for_failed_witness :
  reaches_processing Sample.ext Sample.convert Sample.convert_populated
                     Sample.convert_selected /\
  NoDup (GetYmlOrderedContexts (m_worker Sample.convert_selected)) /\
  exists res pm' evs,
    RunConvert Sample.ext Sample.convert = (res, pm') /\
    out pm' = out Sample.convert_selected ++ evs /\
    let results :=
      (resolution_results Sample.ext
         (GetYmlOrderedContexts (m_worker Sample.convert_selected))
         (m_worker Sample.convert_selected)).1 in
    let processed :=
      List.filter (IsContextSelected (m_worker Sample.convert_selected))
                  (GetYmlOrderedContexts (m_worker Sample.convert_selected)) in
    let item k := deref Sample.ext (m_worker pm') k in
    processing evs = results /\
    m_processedContexts pm' = processed /\
    map processed_key results = processed /\
    (forall n, n ∈ m_failedContext pm' <->
       exists r, r ∈ results /\ processed_ok r = false /\ name (processed_item r) = n) /\
    cbuild_calls evs =
      map (fun k => (item k, bool_decide (name (item k) ∈ m_failedContext pm'))) processed /\
    cprj_calls evs = map item processed /\
    (forall r, r ∈ results -> processed_ok r = false ->
       processed_key r ∈ processed /\
       name (item (processed_key r)) = name (processed_item r) /\
       (item (processed_key r), true) ∈ cbuild_calls evs /\
       item (processed_key r) ∈ cprj_calls evs) /\
    (res = true <-> forall r, r ∈ results -> processed_ok r = true).
Proof.
  assert (H : reaches_processing Sample.ext Sample.convert Sample.convert_populated
                                 Sample.convert_selected)
    by (split; vm_compute; reflexivity).
  assert (Hnd : NoDup (GetYmlOrderedContexts (m_worker Sample.convert_selected)))
    by (apply (bool_decide_unpack _); vm_compute; exact I).
  split; [exact H|]. split; [exact Hnd|].
  exact (RunConvert_generates_for_failed Sample.ext _ _ _ H Hnd
           (fun _ _ _ _ => eq_refl) (fun _ _ _ => eq_refl) (fun _ _ _ => eq_refl)
           (fun _ _ => eq_refl) (fun _ _ _ => eq_refl)).
Defined.

(** [csolution --version -v] prints the version line and nothing else;
    the worker has the verbose flag. *)
Lemma no_positional_argument_witness :
  given SampleCommands.version_line "positional" = false /\
  let run := RunProjMgrArguments Sample.ext SampleCommands.console SampleCommands.paths
               SampleCommands.setters (inr SampleCommands.version_line) None in
  run.1 = 0%Z /\
  out run.2 =
    (if given SampleCommands.version_line "version" then
       [Cout (ORIGINAL_FILENAME SampleCommands.console +:+ " " +:+
              VERSION_STRING SampleCommands.console +:+ " " +:+
              COPYRIGHT_NOTICE SampleCommands.console)]
     else
       [Cout ("csolution: Project Manager " +:+ VERSION_STRING SampleCommands.console +:+
              " " +:+ COPYRIGHT_NOTICE SampleCommands.console); Cout USAGE]) /\
  opts run.2 =
    set_flags (negb (given SampleCommands.version_line "n"))
              (given SampleCommands.version_line "m")
              (negb (given SampleCommands.version_line "no-update-rte"))
              (given SampleCommands.version_line "v")
              (given SampleCommands.version_line "d")
              (given SampleCommands.version_line "D")
              (given SampleCommands.version_line "yml-order")
              (given SampleCommands.version_line "context-set")
              (given SampleCommands.version_line "relative-paths")
              (given SampleCommands.version_line "frozen-packs")
              (given SampleCommands.version_line "update-idx") Options_init /\
  m_worker run.2 =
    w_call (flags_handed_over SampleCommands.setters (opts run.2))
           (m_worker (ProjMgr_init Sample.ext)).
Proof.
  assert (H : given SampleCommands.version_line "positional" = false) by reflexivity.
  exact (conj H (no_positional_argument Sample.ext SampleCommands.console
                   SampleCommands.paths SampleCommands.setters
                   SampleCommands.version_line None H)).
Defined.

(** The worker of [csolution --version -v] has been handed the schema
    check, which is on by default, and the verbose flag. *)
Example sample_flags_handed_over :
  w_internal
    (m_worker (RunProjMgrArguments Sample.ext SampleCommands.console SampleCommands.paths
                 SampleCommands.setters (inr SampleCommands.version_line) None).2)
  = 7%nat.
Proof. vm_compute. reflexivity. Qed.

Lemma version_ignored_with_command_witness :
  given SampleCommands.list_environment_line "positional" = true /\
  ParseCommandLineArguments Sample.ext SampleCommands.console SampleCommands.paths
    SampleCommands.setters
    (inr (with_count "version" 1 SampleCommands.list_environment_line))
    (ProjMgr_init Sample.ext) =
  ParseCommandLineArguments Sample.ext SampleCommands.console SampleCommands.paths
    SampleCommands.setters
    (inr SampleCommands.list_environment_line) (ProjMgr_init Sample.ext).
Proof.
  assert (H : given SampleCommands.list_environment_line "positional" = true)
    by reflexivity.
  exact (conj H (version_ignored_with_command Sample.ext SampleCommands.console
                   SampleCommands.paths SampleCommands.setters
                   SampleCommands.list_environment_line 1
                   (ProjMgr_init Sample.ext) H)).
Defined.

(** [csolution convert gone.csolution.yml --help --load none surplus]:
    the missing file is all that is reported. *)
Lemma missing_csolution_file_witness :
  let parseResult := SampleCommands.convert_gone_line in
  let file := "gone.csolution.yml" in
  given parseResult "positional" = true /\
  is_empty file = false /\
  Exists Sample.ext file = false /\
  let parsing := ParseCommandLineArguments Sample.ext SampleCommands.console
                   SampleCommands.paths SampleCommands.setters (inr parseResult)
                   (ProjMgr_init Sample.ext) in
  parsing.1 = ERROR /\
  out parsing.2 = [LogError file "csolution file was not found"] /\
  m_csolutionFile (opts parsing.2) = file /\
  m_worker parsing.2 =
    w_call (flags_handed_over SampleCommands.setters (opts parsing.2))
           (m_worker (ProjMgr_init Sample.ext)).
Proof.
  assert (H1 : given SampleCommands.convert_gone_line "positional" = true) by reflexivity.
  assert (H2 : is_empty "gone.csolution.yml" = false) by reflexivity.
  assert (H3 : Exists Sample.ext "gone.csolution.yml" = false) by reflexivity.
  exact (conj H1 (conj H2 (conj H3
           (missing_csolution_file Sample.ext SampleCommands.console SampleCommands.paths
              SampleCommands.setters SampleCommands.convert_gone_line H1 H2 H3)))).
Defined.
